(** * hover: the packaging task graph (cmd/packaging/packaging.go)

    A shallow embedding of [packaging.go].  Go strings are byte strings
    ([string]), [map[string]string] is a [gmap string string], the process
    state the file touches (file system, the [sync.Once] guard, the
    [templateData] global, what was written to the log and which commands
    were run) is an explicit [world], and every function that can call
    [os.Exit] or panic returns an [outcome]. *)

From Stdlib Require Import ZArith Ascii String List Lia.
From stdpp Require Import base option strings pretty gmap list fin_maps.

Local Open Scope Z_scope.
Local Open Scope stdpp_scope.

(** ** Go's [strings] package, as far as the file uses it *)

Module strings.

(** [len(s)] *)
Definition len (s : string) : nat := String.length s.

(** [s[:n]] *)
Fixpoint take (n : nat) (s : string) : string :=
  match n, s with
  | S n', String c s' => String c (take n' s')
  | _, _ => EmptyString
  end.

(** [s[n:]] *)
Fixpoint drop (n : nat) (s : string) : string :=
  match n, s with
  | S n', String _ s' => drop n' s'
  | _, _ => s
  end.

(** [strings.HasPrefix(s, prefix)] *)
Definition HasPrefix (s prefix : string) : bool := String.prefix prefix s.

(** [strings.Index(s, substr)]: the position of the first instance of
    [substr] in [s]; Go's [-1] is [None]. *)
Fixpoint Index (s substr : string) : option nat :=
  if HasPrefix s substr then Some 0%nat
  else match s with
       | EmptyString => None
       | String _ s' => S <$> Index s' substr
       end.

(** The loop of [strings.Count] for a non-empty [substr]; every round
    consumes at least one byte, so [fuel] = [len s + 1] rounds suffice. *)
Fixpoint Count_loop (fuel : nat) (s substr : string) (n : Z) : Z :=
  match fuel with
  | O => n
  | S fuel' =>
      match Index s substr with
      | None => n
      | Some i => Count_loop fuel' (drop (i + len substr) s) substr (n + 1)
      end
  end.

(** [strings.Count(s, substr)]; for the empty [substr] Go answers the
    number of runes plus one, runes being bytes here. *)
Definition Count (s substr : string) : Z :=
  if decide (substr = EmptyString) then Z.of_nat (len s) + 1
  else Count_loop (S (len s)) s substr 0.

(** [explode(s, n)]: split into single characters, at most [n] pieces
    (runes are bytes in this model). *)
Fixpoint explode (s : string) (n : nat) : list string :=
  match n, s with
  | O, _ => []
  | _, EmptyString => []
  | S O, _ => [s]
  | S n', String c s' => String c EmptyString :: explode s' n'
  end.

(** The filling loop of [genSplit]: [k] is the number of separators that
    may still be consumed ([n-1-i] in the source). *)
Fixpoint genSplit_loop (k : nat) (s sep : string) : list string :=
  match k with
  | O => [s]
  | S k' =>
      match Index s sep with
      | None => [s]
      | Some m => take m s :: genSplit_loop k' (drop (m + len sep) s) sep
      end
  end.

(** [genSplit(s, sep, 0, n)] *)
Definition genSplit (s sep : string) (n : Z) : list string :=
  if n =? 0 then []
  else if decide (sep = EmptyString) then
    explode s (if n <? 0 then len s else Z.to_nat n)
  else
    let n := if n <? 0 then Count s sep + 1 else n in
    let n := if n >? Z.of_nat (len s) + 1 then Z.of_nat (len s) + 1 else n in
    genSplit_loop (Z.to_nat (n - 1)) s sep.

(** [strings.Split(s, sep)] *)
Definition Split (s sep : string) : list string := genSplit s sep (-1).

(** [strings.SplitN(s, sep, n)] *)
Definition SplitN (s sep : string) (n : Z) : list string := genSplit s sep n.

(** [strings.LastIndexByte(s, c)], [None] for Go's [-1] *)
Fixpoint LastIndexByte (s : string) (c : ascii) : option nat :=
  match s with
  | EmptyString => None
  | String c' s' =>
      match LastIndexByte s' c with
      | Some i => Some (S i)
      | None => if decide (c' = c) then Some O else None
      end
  end.

End strings.

(** ** Go's [text/template], as far as the file uses it

    The file builds its templates in one way only: the empty name, the
    option [missingkey=error], data of type [map[string]string].  Three
    forms are modelled here: literal text, the field action [{{.key}}] and
    the call [{{index . `key`}}] with a string constant of printable ASCII
    bytes without escapes;
    blanks (spaces and tabs) may surround them inside the delimiters.  What
    the library makes of any other template is not decided here: it is
    asked from the surroundings ([library]). *)

Module template.

Inductive error :=
| ErrUnclosedAction
| ErrMissingKey (key : string)
| ErrLibrary (msg : string).      (* an error of a template of another form *)

Inductive node :=
| TextNode (text : string)
| FieldNode (key : string)
| IndexNode (key : string).

(** A parsed template: its nodes, or for a template of another form what
    its execution writes and the error it ends with. *)
Inductive Template :=
| Nodes (nodes : list node)
| Foreign (exec : gmap string string → string * option error).

(** The library on the templates of another form: the parsed template or
    the parse error. *)
Definition library : Type := string → Template + error.

Inductive item :=
| ItemText (text : string)
| ItemAction (body : string).

(** The lexer: cut the input at the delimiters.  [skip] swallows the second
    byte of a delimiter, [inAction] tells on which side of [{{] we are and
    [cur] is the piece read so far.  An action that is not closed is an
    error whatever it holds. *)
Fixpoint lex (s : string) (skip inAction : bool) (cur : string) : option (list item) :=
  match s with
  | EmptyString => if inAction then None else Some [ItemText cur]
  | String c s' =>
      if skip then lex s' false inAction cur
      else if inAction then
        if strings.HasPrefix s "}}" then (ItemAction cur ::.) <$> lex s' true false EmptyString
        else lex s' false true (cur +:+ String c EmptyString)
      else
        if strings.HasPrefix s "{{" then (ItemText cur ::.) <$> lex s' true true EmptyString
        else lex s' false false (cur +:+ String c EmptyString)
  end.

Definition isSpace (c : ascii) : bool :=
  match c with
  | " " | "009" => true
  | _ => false
  end%char.

Definition isLetter (c : ascii) : bool :=
  let n := nat_of_ascii c in
  (n =? 95)%nat || ((65 <=? n) && (n <=? 90))%nat || ((97 <=? n) && (n <=? 122))%nat.

Definition isAlphaNumeric (c : ascii) : bool :=
  let n := nat_of_ascii c in
  isLetter c || ((48 <=? n) && (n <=? 57))%nat.

Fixpoint trimLeft (s : string) : string :=
  match s with
  | String c s' => if isSpace c then trimLeft s' else s
  | EmptyString => EmptyString
  end.

(** Read the letters and digits of an identifier, then only blanks may
    follow. *)
Fixpoint identifier (s : string) : option string :=
  match s with
  | EmptyString => Some EmptyString
  | String c s' =>
      if isAlphaNumeric c then String c <$> identifier s'
      else if decide (trimLeft s = EmptyString) then Some EmptyString else None
  end.

(** What follows the dot of a field: an identifier that starts with a
    letter or an underscore. *)
Definition field (rest : string) : option node :=
  match rest with
  | String c _ => if isLetter c then FieldNode <$> identifier rest else None
  | EmptyString => None
  end.

(** A string constant between double quotes or back quotes, of printable
    ASCII bytes without a backslash: its text and what follows it. *)
Definition stringConstant (s : string) : option (string * string) :=
  match s with
  | String q r =>
      if bool_decide (q = "034"%char) || bool_decide (q = "`"%char) then
        match strings.Index r (String q EmptyString) with
        | Some j =>
            let text := strings.take j r in
            if forallb (λ c, let n := nat_of_ascii c in
                             (32 <=? n)%nat && (n <? 127)%nat
                             && negb (bool_decide (c = "\"%char)))
                 (list_ascii_of_string text)
            then Some (text, strings.drop (S j) r) else None
        | None => None
        end
      else None
  | EmptyString => None
  end.

(** The call [index . key] with a string constant for the key. *)
Definition indexCall (s : string) : option node :=
  if strings.HasPrefix s "index" then
    match strings.drop 5 s with
    | String c1 r1 =>
        if isSpace c1 then
          match trimLeft r1 with
          | String "." (String c2 r2) =>
              if isSpace c2 then
                match stringConstant (trimLeft r2) with
                | Some (key, rest) =>
                    if decide (trimLeft rest = EmptyString)
                    then Some (IndexNode key) else None
                | None => None
                end
              else None
          | _ => None
          end
        else None
    | EmptyString => None
    end
  else None.

(** The body of an action of the three forms; [None] for another form. *)
Definition parseAction (body : string) : option node :=
  match trimLeft body with
  | String "." rest => field rest
  | s => indexCall s
  end.

Fixpoint parseItems (items : list item) : option (list node) :=
  match items with
  | [] => Some []
  | ItemText text :: rest => (TextNode text ::.) <$> parseItems rest
  | ItemAction body :: rest =>
      n ← parseAction body; (n ::.) <$> parseItems rest
  end.

(** [template.New(name).Option("missingkey=error").Parse(text)], for the empty name *)
Definition Parse (lib : library) (text : string) : Template * option error :=
  match lex text false false EmptyString with
  | None => (Nodes [], Some ErrUnclosedAction)
  | Some items =>
      match parseItems items with
      | Some nodes => (Nodes nodes, None)
      | None =>
          match lib text with
          | inl tmpl => (tmpl, None)
          | inr e => (Nodes [], Some e)
          end
      end
  end.

(** The nodes are written to the buffer one after the other.  A field
    whose key is not in the map stops the execution with an error, what was
    written so far stays in the buffer; [index] yields the zero value of
    the map's element type, the empty string, for a key that is not in the
    map. *)
Fixpoint walk (nodes : list node) (data : gmap string string) (buf : string)
  : string * option error :=
  match nodes with
  | [] => (buf, None)
  | TextNode text :: rest => walk rest data (buf +:+ text)
  | FieldNode key :: rest =>
      match data !! key with
      | Some value => walk rest data (buf +:+ value)
      | None => (buf, Some (ErrMissingKey key))
      end
  | IndexNode key :: rest => walk rest data (buf +:+ default EmptyString (data !! key))
  end.

(** [tmpl.Execute(&buf, data)] *)
Definition Execute (tmpl : Template) (data : gmap string string) (buf : string)
  : string * option error :=
  match tmpl with
  | Nodes nodes => walk nodes data buf
  | Foreign exec => let '(out, err) := exec data in (buf +:+ out, err)
  end.

End template.


(** ** The process and its surroundings *)

(** What the [os] package acts on: a path either names nothing or a file or
    directory with permission bits.  Paths are compared as strings. *)
Record fileInfo := FileInfo { IsDir : bool; Mode : Z }.

Abbreviation filesystem := (gmap string fileInfo).

Inductive syscall :=
| SysMkdir (path : string)
| SysMkdirAll (path : string)
| SysRemoveAll (path : string)
| SysChmod (path : string)
| SysTempDir (pattern : string)
| SysStat (path : string).

(** Go's [error] values, as far as the file can tell them apart. *)
Inductive error :=
| ErrNotExist (path : string)
| ErrExist (path : string)
| ErrNotDir (path : string)
| ErrFault (call : syscall)         (* the system refused: permissions, I/O, ... *)
| ErrGetwd                          (* filepath.Abs without a working directory *)
| ErrCopy (src dst : string)
| ErrExitStatus                     (* *exec.ExitError *)
| ErrPatternHasSeparator (pattern : string)
| ErrTemplate (e : template.error).

(** [err.Error()], up to the wording of the system's message. *)
Definition Error_ (err : error) : string :=
  match err with
  | ErrNotExist p => "stat " +:+ p +:+ ": no such file or directory"
  | ErrExist p => "mkdir " +:+ p +:+ ": file exists"
  | ErrNotDir p => "mkdir " +:+ p +:+ ": not a directory"
  | ErrFault _ => "operation not permitted"
  | ErrGetwd => "getwd: no such file or directory"
  | ErrCopy src dst => "copy " +:+ src +:+ " " +:+ dst
  | ErrExitStatus => "exit status 1"
  | ErrPatternHasSeparator p => "mkdirtemp " +:+ p +:+ ": pattern contains path separator"
  | ErrTemplate _ => "template: error"
  end.

Inductive level := LError | LWarn | LInfo | LPrint.

(** What the process does to the outside besides the file system: lines
    handed to the logger, system calls that change the file system, and
    calls into the collaborating packages. *)
Inductive event :=
| EvLog (lv : level) (msg : string)
| EvSys (call : syscall)
| EvBash (dir command : string)
| EvCopy (src dst : string)
| EvCopyTemplateDir (src dst : string)
| EvCopyAsset (src dst : string)
| EvGenerateBuildFiles (packageName path : string).

(** The state of the process: the file system it sees, the source of the
    random strings of [ioutil.TempDir], the package variables [once] and
    [templateData], and the events so far. *)
Record world := World {
  fs : filesystem;
  rng : nat;
  once : bool;
  templateData : gmap string string;
  trace : list event }.

Definition set_fs (f : filesystem → filesystem) (w : world) : world :=
  World (f (fs w)) (rng w) (once w) (templateData w) (trace w).
Definition set_rng (n : nat) (w : world) : world :=
  World (fs w) n (once w) (templateData w) (trace w).
Definition set_once (b : bool) (w : world) : world :=
  World (fs w) (rng w) b (templateData w) (trace w).
Definition set_templateData (m : gmap string string) (w : world) : world :=
  World (fs w) (rng w) (once w) m (trace w).
Definition emit (e : event) (w : world) : world :=
  World (fs w) (rng w) (once w) (templateData w) (trace w ++ [e]).

(** The value a Go panic carries. *)
Inductive panicValue :=
| IndexOutOfRange (index length : nat)
| PanicError (err : error).

(** How a call ends: it returns, the process ends through [os.Exit], or it
    panics.  Each case carries the world as it is at that moment. *)
Inductive outcome (A : Type) :=
| Returned (a : A) (w : world)
| Exited (code : Z) (w : world)
| Panicked (v : panicValue) (w : world).
Arguments Returned {A} a w.
Arguments Exited {A} code w.
Arguments Panicked {A} v w.

Definition world_of {A} (o : outcome A) : world :=
  match o with
  | Returned _ w | Exited _ w | Panicked _ w => w
  end.

Definition M (A : Type) : Type := world → outcome A.

#[global] Instance M_ret : MRet M := λ A a w, Returned a w.
#[global] Instance M_bind : MBind M := λ A B f m w,
  match m w with
  | Returned a w' => f a w'
  | Exited code w' => Exited code w'
  | Panicked v w' => Panicked v w'
  end.

(** [os.Exit(code)] *)
Definition os_Exit {A} (code : Z) : M A := λ w, Exited code w.

(** [panic(v)] *)
Definition panic {A} (v : panicValue) : M A := λ w, Panicked v w.

Definition gets {A} (f : world → A) : M A := λ w, Returned (f w) w.
Definition modify (f : world → world) : M unit := λ w, Returned tt (f w).

(** [defer cleanup(); body]: the deferred call runs when the body returns
    and when it panics, the panic going on afterwards unless the deferred
    call itself ends the process; [os.Exit] ends the process at once,
    deferred calls are not run. *)
Definition defer {A} (cleanup : M unit) (body : M A) : M A := λ w,
  match body w with
  | Returned a w' =>
      match cleanup w' with
      | Returned _ w'' => Returned a w''
      | Exited code w'' => Exited code w''
      | Panicked v w'' => Panicked v w''
      end
  | Panicked v w' =>
      match cleanup w' with
      | Returned _ w'' => Panicked v w''
      | Exited code w'' => Exited code w''
      | Panicked v' w'' => Panicked v' w''
      end
  | Exited code w' => Exited code w'
  end.

(** [for _, x := range xs { f(x) }] *)
Definition range {A} (f : A → M unit) : list A → M unit :=
  fix go (xs : list A) : M unit :=
    match xs with
    | [] => mret tt
    | x :: xs' => f x ;; go xs'
    end.

(** [xs[i]], with Go's run-time check. *)
Definition index (xs : list string) (i : nat) : M string :=
  match xs !! i with
  | Some x => mret x
  | None => panic (IndexOutOfRange i (length xs))
  end.

(** The logger ([internal/log]); the colours of [log.Au()] are left out. *)
Definition log_Errorf (msg : string) : M unit := modify (emit (EvLog LError msg)).
Definition log_Warnf (msg : string) : M unit := modify (emit (EvLog LWarn msg)).
Definition log_Infof (msg : string) : M unit := modify (emit (EvLog LInfo msg)).
Definition log_Printf (msg : string) : M unit := modify (emit (EvLog LPrint msg)).

(** Everything the file takes from elsewhere: the packages [build],
    [pubspec], [config], [androidmanifest] and [fileutils] of this
    repository, [path/filepath], [runtime], the copy library, the shell, and
    the decisions of the operating system.  The collaborators that act on
    the file system do so in any way they like. *)
Record Env := {
  build_BuildPath : string;
  build_OutputDirectoryPath : string → string;
  filepath_Join : list string → string;
  filepath_Abs : string → string * option error;
  filepath_Dir : string → string;
  runtime_GOARCH : string;
  os_TempDir : string;
  (** the random string [ioutil.TempDir] draws in a given state of its source *)
  nextRandom : nat → string;
  (** whether the system refuses a call for reasons of its own *)
  os_fault : syscall → filesystem → bool;
  (** whether the system refuses to look at a path, so that [os.Stat] fails
      with an error that is not a not-exist error: a component of the path
      that is not a directory, a directory that may not be searched, a name
      that is too long.  The reason lies in the path and in what is above
      it, which [Init] and the assertions leave as they are; it is given
      with the surroundings and not read off the modelled file system. *)
  os_stat_refused : string → bool;
  (** [text/template] on the templates of another form than the modelled
      ones *)
  text_template : template.library;
  pubspec_Name : string;
  pubspec_GetDescription : string;
  pubspec_GetAuthor : string;
  androidmanifest_AndroidOrganizationName : string;
  config_GetApplicationName : string → string;
  config_GetExecutableName : string → string;
  config_GetPackageName : string → string;
  config_GetLicense : string;
  (** [exec.LookPath(name)]: where the program is, or the name itself when
      it is not found *)
  exec_LookPath : string → string;
  (** [bash -c command] run in [dir]: the file system it leaves and whether
      it ended with status zero *)
  bash : string → string → filesystem → filesystem * bool;
  (** [copy.Copy(src, dst)] *)
  copy_Copy : string → string → filesystem → filesystem * option error;
  (** [fileutils.CopyTemplateDir(src, dst, data)]; [false] when it ends the
      process *)
  fileutils_CopyTemplateDir :
    string → string → gmap string string → filesystem → filesystem * bool;
  (** [fileutils.CopyAsset(box path, dst, fileutils.AssetsBox())]; [false]
      when it ends the process *)
  fileutils_CopyAsset : string → string → filesystem → filesystem * bool }.

(** A packaging task.  [dependsOn] and [templateFiles] are Go maps; the list
    gives their entries in the order in which [range] visits them. *)
#[warnings="-register-all"]
Inductive packagingTask := PackagingTask {
  packagingFormatName : string;
  dependsOn : list (packagingTask * string);
  templateFiles : list (string * string);
  executableFiles : list string;
  linuxDesktopFileExecutablePath : string;
  linuxDesktopFileIconPath : string;
  (** [nil], or a function that acts on the file system; [false] when it
      ends the process *)
  generateBuildFiles : option (string → string → filesystem → filesystem * bool);
  buildOutputDirectory : string;
  packagingScriptTemplate : string;
  outputFileExtension : string;
  outputFileContainsVersion : bool;
  outputFileUsesApplicationName : bool;
  skipAssertInitialized : bool }.

(** ** The [os] and [ioutil] calls *)

Module os.

(** [path] itself or something below it *)
Definition under (path k : string) : bool :=
  bool_decide (k = path) || strings.HasPrefix k (path +:+ "/").

Definition IsPathSeparator (c : ascii) : bool := bool_decide (c = "/"%char).

Fixpoint dropWhile {A} (p : A → bool) (l : list A) : list A :=
  match l with
  | x :: l' => if p x then dropWhile p l' else l
  | [] => []
  end.

(** The directory [MkdirAll] creates before [path]: trailing separators
    are dropped, then the last element, then the separator before it.
    [None] when nothing is left ([j > 1] fails in the source). *)
Definition parentOf (path : string) : option string :=
  let r := dropWhile IsPathSeparator (reverse (list_ascii_of_string path)) in
  let j := length (dropWhile (λ c, negb (IsPathSeparator c)) r) in
  if (1 <? j)%nat then Some (strings.take (j - 1) path) else None.

Section calls.
Context (E : Env).

(** The answer of [os.Stat(path)] in a file system: the system refuses,
    or it finds what is at the path, or it finds nothing. *)
Definition stat (path : string) (f : filesystem) : option fileInfo * option error :=
  if os_stat_refused E path then (None, Some (ErrFault (SysStat path)))
  else match f !! path with
       | Some info => (Some info, None)
       | None => (None, Some (ErrNotExist path))
       end.

(** [os.Stat(path)] *)
Definition Stat (path : string) : M (option fileInfo * option error) := λ w,
  Returned (stat path (fs w)) w.

(** [os.IsNotExist(err)] *)
Definition IsNotExist (err : option error) : bool :=
  match err with
  | Some (ErrNotExist _) => true
  | _ => false
  end.

(** [os.IsExist(err)] *)
Definition IsExist (err : option error) : bool :=
  match err with
  | Some (ErrExist _) => true
  | _ => false
  end.

(** The effect of [os.Mkdir(path, perm)] on a file system *)
Definition mkdir (path : string) (perm : Z) (f : filesystem)
  : filesystem * option error :=
  if os_fault E (SysMkdir path) f then (f, Some (ErrFault (SysMkdir path)))
  else match f !! path with
       | Some _ => (f, Some (ErrExist path))
       | None => (<[path := FileInfo true perm]> f, None)
       end.

(** The effect of [os.MkdirAll(path, perm)]: nothing to do for a
    directory, an error for a file, else the parent first and then the
    path itself.  The parent is shorter than the path, so [fuel] above
    the length of the path is never used up. *)
Fixpoint mkdirAll (fuel : nat) (path : string) (perm : Z) (f : filesystem)
  : filesystem * option error :=
  match f !! path with
  | Some info => if IsDir info then (f, None) else (f, Some (ErrNotDir path))
  | None =>
      match fuel with
      | O => (f, Some (ErrFault (SysMkdirAll path)))
      | S fuel' =>
          let '(f1, err) :=
            match parentOf path with
            | Some parent => mkdirAll fuel' parent perm f
            | None => (f, None)
            end in
          match err with
          | Some e => (f1, Some e)
          | None =>
              let '(f2, err) := mkdir path perm f1 in
              match err with
              | Some e =>
                  match f2 !! path with
                  | Some info => if IsDir info then (f2, None) else (f2, Some e)
                  | None => (f2, Some e)
                  end
              | None => (f2, None)
              end
          end
      end
  end.

(** [os.MkdirAll(path, perm)] *)
Definition MkdirAll (path : string) (perm : Z) : M (option error) := λ w,
  let w := emit (EvSys (SysMkdirAll path)) w in
  if os_fault E (SysMkdirAll path) (fs w)
  then Returned (Some (ErrFault (SysMkdirAll path))) w
  else let '(f, err) := mkdirAll (S (strings.len path)) path perm (fs w) in
       Returned err (set_fs (λ _, f) w).

(** [os.RemoveAll(path)]: the path and everything below it is gone, or
    the system refuses and nothing is. *)
Definition RemoveAll (path : string) : M (option error) := λ w,
  let w := emit (EvSys (SysRemoveAll path)) w in
  if os_fault E (SysRemoveAll path) (fs w)
  then Returned (Some (ErrFault (SysRemoveAll path))) w
  else Returned None
         (set_fs (filter (λ kv : string * fileInfo, under path kv.1 = false)) w).

(** [os.Chmod(path, mode)] *)
Definition Chmod (path : string) (mode : Z) : M (option error) := λ w,
  let w := emit (EvSys (SysChmod path)) w in
  if os_fault E (SysChmod path) (fs w)
  then Returned (Some (ErrFault (SysChmod path))) w
  else match fs w !! path with
       | Some info =>
           Returned None (set_fs (insert path (FileInfo (IsDir info) mode)) w)
       | None => Returned (Some (ErrNotExist path)) w
       end.

(** [prefixAndSuffix(pattern)]: a pattern with a path separator is
    refused; the others are cut at their last [*], the random string goes
    in its place, or at the end of a pattern without one. *)
Definition prefixAndSuffix (pattern : string) : string * string * option error :=
  if existsb IsPathSeparator (list_ascii_of_string pattern)
  then (EmptyString, EmptyString, Some (ErrPatternHasSeparator pattern))
  else match strings.LastIndexByte pattern "*" with
       | Some pos =>
           (strings.take pos pattern, strings.drop (S pos) pattern, None)
       | None => (pattern, EmptyString, None)
       end.

(** The loop of [ioutil.TempDir]: up to [tries] candidates, each with a
    fresh random string; a candidate that exists is skipped, any other
    failure and the first success end the loop. *)
Fixpoint tempDirLoop (tries : nat) (dir prefix suffix : string) (w : world)
  : outcome (string * option error) :=
  match tries with
  | O => Returned (EmptyString, Some (ErrExist dir)) w
  | S tries' =>
      let try :=
        filepath_Join E [dir; prefix +:+ nextRandom E (rng w) +:+ suffix] in
      let w := set_rng (S (rng w)) w in
      let '(f, err) := mkdir try 448 (fs w) in
      if IsExist err then tempDirLoop tries' dir prefix suffix w
      else match err with
           | Some e => Returned (EmptyString, Some e) w
           | None => Returned (try, None) (set_fs (λ _, f) w)
           end
  end.

(** [ioutil.TempDir(dir, pattern)] *)
Definition TempDir (dir pattern : string) : M (string * option error) := λ w,
  let w := emit (EvSys (SysTempDir pattern)) w in
  let dir := if decide (dir = EmptyString) then os_TempDir E else dir in
  let '(prefix, suffix, err) := prefixAndSuffix pattern in
  match err with
  | Some e => Returned (EmptyString, Some e) w
  | None => tempDirLoop (Z.to_nat 10000) dir prefix suffix w
  end.

End calls.
End os.

(** ** cmd/packaging/packaging.go *)

Module packaging.
Section functions.
Context (E : Env).

(** the double quote and the newline character, as strings *)
Definition dquote : string := String "034"%char EmptyString.
Definition newline : string := String "010"%char EmptyString.

(** [if err != nil { handler(err) }] *)
Definition on_error (err : option error) (handler : error → M unit) : M unit :=
  match err with
  | Some e => handler e
  | None => mret tt
  end.

(** The calls into the collaborators, as steps of the process. *)
Definition exec_Run (dir command : string) : M (option error) := λ w,
  let '(f, ok) := bash E dir command (fs w) in
  Returned (if ok then None else Some ErrExitStatus)
           (set_fs (λ _, f) (emit (EvBash dir command) w)).

Definition copy_Copy_ (src dst : string) : M (option error) := λ w,
  let '(f, err) := copy_Copy E src dst (fs w) in
  Returned err (set_fs (λ _, f) (emit (EvCopy src dst) w)).

Definition CopyTemplateDir (src dst : string) (data : gmap string string) : M unit := λ w,
  let '(f, ok) := fileutils_CopyTemplateDir E src dst data (fs w) in
  let w' := set_fs (λ _, f) (emit (EvCopyTemplateDir src dst) w) in
  if ok then Returned tt w' else Exited 1 w'.

Definition CopyAsset (boxPath to : string) : M unit := λ w,
  let '(f, ok) := fileutils_CopyAsset E boxPath to (fs w) in
  let w' := set_fs (λ _, f) (emit (EvCopyAsset boxPath to) w) in
  if ok then Returned tt w' else Exited 1 w'.

Definition call_generateBuildFiles
    (g : string → string → filesystem → filesystem * bool)
    (packageName path : string) : M unit := λ w,
  let '(f, ok) := g packageName path (fs w) in
  let w' := set_fs (λ _, f) (emit (EvGenerateBuildFiles packageName path) w) in
  if ok then Returned tt w' else Exited 1 w'.

(** [var packagingPath = filepath.Join(build.BuildPath, "packaging")] *)
Definition packagingPath : string :=
  filepath_Join E [build_BuildPath E; "packaging"].

Definition packagingFormatPath (packagingFormat : string) : M string :=
  let '(directoryPath, err) :=
    filepath_Abs E (filepath_Join E [packagingPath; packagingFormat]) in
  on_error err (λ e,
    log_Errorf ("Failed to resolve absolute path for " +:+ packagingFormat
                +:+ " directory: " +:+ Error_ e) ;;
    os_Exit 1) ;;
  mret directoryPath.

Definition createPackagingFormatDirectory (packagingFormat : string) : M unit :=
  path ← packagingFormatPath packagingFormat;
  '(_, err) ← os.Stat E path;
  (if negb (os.IsNotExist err) then
     log_Errorf ("A file or directory named `" +:+ packagingFormat
                 +:+ "` already exists. Cannot continue packaging init for "
                 +:+ packagingFormat +:+ ".") ;;
     os_Exit 1
   else mret tt) ;;
  path ← packagingFormatPath packagingFormat;
  err ← os.MkdirAll E path 509;
  on_error err (λ e,
    path ← packagingFormatPath packagingFormat;
    log_Errorf ("Failed to create " +:+ packagingFormat +:+ " directory "
                +:+ path +:+ ": " +:+ Error_ e) ;;
    os_Exit 1).

Definition getTemporaryBuildDirectory (projectName packagingFormat : string) : M string :=
  '(tmpPath, err) ← os.TempDir E EmptyString
                      ("hover-build-" +:+ projectName +:+ "-" +:+ packagingFormat);
  on_error err (λ e,
    log_Errorf ("Couldn't get temporary build directory: " +:+ Error_ e) ;;
    os_Exit 1) ;;
  mret tmpPath.

Definition runPackaging (path command : string) : M unit :=
  err ← exec_Run path command;
  on_error err (λ _,
    log_Warnf "Packaging is very experimental and has only been tested on Linux." ;;
    log_Infof ("To help us debuging this error, please zip the content of:" +:+
               newline +:+ "       " +:+ dquote +:+ path +:+ dquote +:+
               newline +:+ "       " +:+
               "and try to package on another OS. You can also share this zip with the go-flutter team.") ;;
    log_Infof "You can package the app without hover by running:" ;;
    log_Infof ("  `cd " +:+ path +:+ "`") ;;
    (* [bashCmd.String()]: the path of the program, then the arguments *)
    log_Infof ("  executed command: `" +:+ exec_LookPath E "bash" +:+ " -c "
               +:+ command +:+ "`") ;;
    os_Exit 1).

Definition executeStringTemplate (t : string) (data : gmap string string) : M string :=
  let '(tmplFile, err) := template.Parse (text_template E) t in
  on_error (ErrTemplate <$> err) (λ e,
    log_Errorf ("Failed to parse template string: " +:+ Error_ e +:+ newline) ;;
    os_Exit 1) ;;
  let '(tmplBytes, err) := template.Execute tmplFile data EmptyString in
  on_error (ErrTemplate <$> err) (λ e, panic (PanicError e)) ;;
  mret tmplBytes.

(** [once.Do(f)]: [f] runs unless the guard is set, and the guard is set by
    a deferred store, so also when [f] panics. *)
Definition once_Do (f : M unit) : M unit := λ w,
  if once w then Returned tt w else defer (modify (set_once true)) f w.

Definition getTemplateData (t : packagingTask) (projectName buildVersion : string)
  : M (gmap string string) :=
  once_Do (
    release ← index (strings.Split buildVersion ".") 0;
    modify (set_templateData (
      <["projectName" := projectName]> $
      <["version" := buildVersion]> $
      <["release" := release]> $
      <["arch" := runtime_GOARCH E]> $
      <["description" := pubspec_GetDescription E]> $
      <["organizationName" := androidmanifest_AndroidOrganizationName E]> $
      <["author" := pubspec_GetAuthor E]> $
      <["applicationName" := config_GetApplicationName E projectName]> $
      <["executableName" := config_GetExecutableName E projectName]> $
      <["packageName" := config_GetPackageName E projectName]> $
      <["license" := config_GetLicense E]> ∅)) ;;
    data ← gets templateData;
    iconPath ← executeStringTemplate (linuxDesktopFileIconPath t) data;
    modify (λ w, set_templateData (<["iconPath" := iconPath]> (templateData w)) w) ;;
    data ← gets templateData;
    executablePath ← executeStringTemplate (linuxDesktopFileExecutablePath t) data;
    modify (λ w, set_templateData (<["executablePath" := executablePath]> (templateData w)) w)
  ) ;;
  gets templateData.

Definition Name (t : packagingTask) : M string :=
  index (strings.SplitN (packagingFormatName t) "-" 2) 1.

Definition IsInitialized (t : packagingTask) : M bool :=
  path ← packagingFormatPath (packagingFormatName t);
  '(_, err) ← os.Stat E path;
  mret (negb (os.IsNotExist err)).

Definition AssertInitialized (t : packagingTask) : M unit :=
  if skipAssertInitialized t then mret tt
  else
    initialized ← IsInitialized t;
    if negb initialized then
      log_Errorf (packagingFormatName t +:+
                  " is not initialized for packaging. Please run `hover init-packaging "
                  +:+ packagingFormatName t +:+ "` first.") ;;
      os_Exit 1
    else mret tt.

(** The body of the loop over [t.templateFiles] in [init]. *)
Definition init_templateFile (dir : string) (entry : string * string) : M unit :=
  let '(sourceFile, destinationFile) := entry in
  let destinationFile := filepath_Join E [dir; destinationFile] in
  err ← os.MkdirAll E (filepath_Dir E destinationFile) 509;
  on_error err (λ e,
    log_Errorf ("Failed to create directory " +:+ filepath_Dir E destinationFile
                +:+ ": " +:+ Error_ e) ;;
    os_Exit 1) ;;
  CopyAsset ("packaging/" +:+ sourceFile) destinationFile.

(** [init] after the loop over [t.dependsOn]. *)
Definition init_own (t : packagingTask) (ignoreAlreadyExists : bool) : M unit :=
  initialized ← IsInitialized t;
  if negb initialized then
    createPackagingFormatDirectory (packagingFormatName t) ;;
    dir ← packagingFormatPath (packagingFormatName t);
    range (init_templateFile dir) (templateFiles t) ;;
    log_Infof ("go/packaging/" +:+ packagingFormatName t +:+
               " has been created. You can modify the configuration files and add it to git.") ;;
    platform ← index (strings.Split (packagingFormatName t) "-") 0;
    log_Infof ("You now can package the " +:+ platform +:+ " using `hover build "
               +:+ packagingFormatName t +:+ "`")
  else if negb ignoreAlreadyExists then
    log_Errorf (packagingFormatName t +:+ " is already initialized for packaging.") ;;
    os_Exit 1
  else mret tt.

Fixpoint init (t : packagingTask) (ignoreAlreadyExists : bool) : M unit :=
  range (λ dep : packagingTask * string, init dep.1 true) (dependsOn t) ;;
  init_own t ignoreAlreadyExists.

Definition Init (t : packagingTask) : M unit := init t false.

(** The name of the artifact, lines 205-219 of [Pack]. *)
Definition outputFileName (t : packagingTask) (projectName buildVersion : string) : string :=
  let outputFileName := EmptyString in
  let outputFileName :=
    if outputFileUsesApplicationName t
    then outputFileName +:+ config_GetApplicationName E projectName
    else outputFileName +:+ config_GetPackageName E projectName in
  let outputFileName :=
    if outputFileContainsVersion t then
      let outputFileName :=
        if outputFileUsesApplicationName t
        then outputFileName +:+ " "
        else outputFileName +:+ "-" in
      outputFileName +:+ buildVersion
    else outputFileName in
  outputFileName +:+ ("." +:+ outputFileExtension t).

(** [Pack] from the log line after the [defer] up to the rendering of the
    packaging script (lines 166-203); the result is the script. *)
Definition Pack_stage (t : packagingTask) (buildVersion projectName tmpPath : string)
  : M string :=
  variant ← index (strings.Split (packagingFormatName t) "-") 1;
  log_Infof ("Packaging " +:+ variant +:+ " in " +:+ tmpPath) ;;
  (if decide (buildOutputDirectory t ≠ EmptyString) then
     platform ← index (strings.Split (packagingFormatName t) "-") 0;
     data ← getTemplateData t projectName buildVersion;
     dst ← executeStringTemplate (filepath_Join E [tmpPath; buildOutputDirectory t]) data;
     err ← copy_Copy_ (build_OutputDirectoryPath E platform) dst;
     on_error err (λ e,
       log_Errorf ("Could not copy build folder: " +:+ Error_ e) ;;
       os_Exit 1)
   else mret tt) ;;
  range (λ dep : packagingTask * string,
     let '(task, destination) := dep in
     err ← copy_Copy_ (build_OutputDirectoryPath E (packagingFormatName task))
                      (filepath_Join E [tmpPath; destination]);
     on_error err (λ e,
       log_Errorf ("Could not copy build folder of " +:+ packagingFormatName task
                   +:+ ": " +:+ Error_ e) ;;
       os_Exit 1)) (dependsOn t) ;;
  src ← packagingFormatPath (packagingFormatName t);
  data ← getTemplateData t projectName buildVersion;
  CopyTemplateDir src (filepath_Join E [tmpPath]) data ;;
  match generateBuildFiles t with
  | Some g =>
      log_Infof "Generating dynamic build files" ;;
      call_generateBuildFiles g (config_GetPackageName E projectName) tmpPath
  | None => mret tt
  end ;;
  range (λ file : string,
     data ← getTemplateData t projectName buildVersion;
     path ← executeStringTemplate (filepath_Join E [tmpPath; file]) data;
     err ← os.Chmod E path 511;
     on_error err (λ e,
       log_Errorf ("Failed to change file permissions for " +:+ file +:+ " file: "
                   +:+ Error_ e) ;;
       os_Exit 1)) (executableFiles t) ;;
  err ← os.RemoveAll E (build_OutputDirectoryPath E (packagingFormatName t));
  log_Printf "Cleaning the build directory" ;;
  on_error err (λ e,
    log_Errorf ("Failed to clean output directory "
                +:+ build_OutputDirectoryPath E (packagingFormatName t)
                +:+ ": " +:+ Error_ e) ;;
    os_Exit 1) ;;
  data ← getTemplateData t projectName buildVersion;
  executeStringTemplate (packagingScriptTemplate t) data.

(** [Pack] after [runPackaging] (lines 205-225). *)
Definition Pack_deliver (t : packagingTask) (buildVersion projectName tmpPath : string)
  : M unit :=
  let outputFileName := outputFileName t projectName buildVersion in
  data ← getTemplateData t projectName buildVersion;
  outputFilePath ← executeStringTemplate
    (filepath_Join E [build_OutputDirectoryPath E (packagingFormatName t); outputFileName])
    data;
  err ← copy_Copy_ (filepath_Join E [tmpPath; outputFileName]) outputFilePath;
  on_error err (λ e,
    log_Errorf ("Could not move " +:+ outputFileName +:+ " file: " +:+ Error_ e) ;;
    os_Exit 1).

(** The deferred function of [Pack] (lines 159-165). *)
Definition Pack_cleanup (tmpPath : string) : M unit :=
  err ← os.RemoveAll E tmpPath;
  on_error err (λ e,
    log_Errorf ("Could not remove temporary build directory: " +:+ Error_ e) ;;
    os_Exit 1).

(** [Pack] after the loop over [t.dependsOn] (lines 157-225). *)
Definition Pack_own (t : packagingTask) (buildVersion : string) : M unit :=
  let projectName := pubspec_Name E in
  tmpPath ← getTemporaryBuildDirectory projectName (packagingFormatName t);
  defer (Pack_cleanup tmpPath)
    (packagingScript ← Pack_stage t buildVersion projectName tmpPath;
     runPackaging tmpPath packagingScript ;;
     Pack_deliver t buildVersion projectName tmpPath).

Fixpoint Pack (t : packagingTask) (buildVersion : string) : M unit :=
  range (λ dep : packagingTask * string, Pack dep.1 buildVersion) (dependsOn t) ;;
  Pack_own t buildVersion.

End functions.
End packaging.

(** ** A small project to run the functions on *)

Module demo.

(** [filepath.Join] on clean elements: the non-empty ones, with [/] between *)
Definition join (elem : list string) : string :=
  foldr (λ e acc,
    if decide (e = EmptyString) then acc
    else if decide (acc = EmptyString) then e else e +:+ "/" +:+ acc) EmptyString elem.

(** A shell that knows three commands: [touch name] creates the file in the
    working directory, [false] fails, anything else does nothing. *)
Definition shell (dir command : string) (f : filesystem) : filesystem * bool :=
  if strings.HasPrefix command "touch "
  then (<[join [dir; strings.drop 6 command] := FileInfo false 420]> f, true)
  else if decide (command = "false") then (f, false) else (f, true).

(** Copying needs the source to exist; the destination gets its parent
    directory. *)
Definition copy (src dst : string) (f : filesystem) : filesystem * option error :=
  match f !! src with
  | Some info =>
      let f :=
        match os.parentOf dst with
        | Some parent =>
            match f !! parent with
            | None => <[parent := FileInfo true 493]> f
            | Some _ => f
            end
        | None => f
        end in
      (<[dst := info]> f, None)
  | None => (f, Some (ErrNotExist src))
  end.

Definition env : Env := {|
  build_BuildPath := "go";
  build_OutputDirectoryPath := λ targetOS, "/project/go/build/outputs/" +:+ targetOS;
  filepath_Join := join;
  filepath_Abs := λ path, ("/project/" +:+ path, None);
  filepath_Dir := λ path, default "." (os.parentOf path);
  runtime_GOARCH := "amd64";
  os_TempDir := "/tmp";
  nextRandom := λ n, pretty n;
  os_fault := λ _ _, false;
  os_stat_refused := λ _, false;
  text_template := λ _, inr (template.ErrLibrary "not supported");
  pubspec_Name := "demo";
  pubspec_GetDescription := "A demo";
  pubspec_GetAuthor := "An author";
  androidmanifest_AndroidOrganizationName := "com.example";
  config_GetApplicationName := λ _, "MyApp";
  config_GetExecutableName := λ _, "my_app";
  config_GetPackageName := λ _, "my_app";
  config_GetLicense := "MIT";
  exec_LookPath := λ name, "/usr/bin/" +:+ name;
  bash := shell;
  copy_Copy := copy;
  fileutils_CopyTemplateDir := λ _ _ _ f, (f, true);
  fileutils_CopyAsset := λ _ dst f, (<[dst := FileInfo false 420]> f, true) |}.

Definition task (name : string) (deps : list (packagingTask * string))
    (script ext : string) : packagingTask := {|
  packagingFormatName := name;
  dependsOn := deps;
  templateFiles := [("app.desktop.tmpl", "usr/share/app.desktop")];
  executableFiles := [];
  linuxDesktopFileExecutablePath := "/usr/bin/{{.executableName}}";
  linuxDesktopFileIconPath := "/usr/share/icons/{{.packageName}}.png";
  generateBuildFiles := None;
  buildOutputDirectory := EmptyString;
  packagingScriptTemplate := script;
  outputFileExtension := ext;
  outputFileContainsVersion := true;
  outputFileUsesApplicationName := false;
  skipAssertInitialized := false |}.

Definition taskC : packagingTask :=
  task "linux-c" [] "touch {{.packageName}}-{{.version}}.c" "c".
Definition taskB : packagingTask :=
  task "linux-b" [(taskC, "c")] "touch {{.packageName}}-{{.version}}.b" "b".
Definition taskA : packagingTask :=
  task "linux-a" [(taskB, "b")] "touch {{.packageName}}-{{.version}}.a" "a".

(** a task whose packaging script exits non-zero *)
Definition taskFailing : packagingTask := task "linux-bad" [] "false" "bad".

(** the two naming schemes of the artifact *)
Definition taskDmg : packagingTask := {|
  packagingFormatName := "darwin-dmg";
  dependsOn := [];
  templateFiles := [];
  executableFiles := [];
  linuxDesktopFileExecutablePath := EmptyString;
  linuxDesktopFileIconPath := EmptyString;
  generateBuildFiles := None;
  buildOutputDirectory := EmptyString;
  packagingScriptTemplate := "true";
  outputFileExtension := "dmg";
  outputFileContainsVersion := true;
  outputFileUsesApplicationName := true;
  skipAssertInitialized := true |}.
Definition taskDmgPackageName : packagingTask := task "darwin-dmg" [] "true" "dmg".

(** a task whose format name holds the wildcard of [ioutil.TempDir] *)
Definition taskStar : packagingTask :=
  task "linux-s*r" [] "touch {{.packageName}}-{{.version}}.s" "s".

(** a task whose format name has no hyphen *)
Definition taskPlain : packagingTask := task "darwin" [] "true" "dmg".

(** a task without dependencies that needs no initialisation *)
Definition taskAlone : packagingTask := {|
  packagingFormatName := "linux-alone";
  dependsOn := [];
  templateFiles := [];
  executableFiles := ["run.sh"];
  linuxDesktopFileExecutablePath := EmptyString;
  linuxDesktopFileIconPath := EmptyString;
  generateBuildFiles := None;
  buildOutputDirectory := EmptyString;
  packagingScriptTemplate := "touch run.sh";
  outputFileExtension := "sh";
  outputFileContainsVersion := false;
  outputFileUsesApplicationName := false;
  skipAssertInitialized := true |}.

(** the process at its start: only the temporary directory of the system *)
Definition w0 : world := {|
  fs := {[ "/tmp" := FileInfo true 511 ]};
  rng := 0;
  once := false;
  templateData := ∅;
  trace := [] |}.

(** the same with a regular file where the configuration directory of
    [taskC] would be *)
Definition w_file : world :=
  set_fs (λ f, <["/project/go/packaging/linux-c" := FileInfo false 420]> f) w0.

(** the same with a regular file where the directory of all configuration
    directories would be *)
Definition w_blocked : world :=
  set_fs (λ f, <["/project/go/packaging" := FileInfo false 420]> f) w0.

(** the surroundings of [w_blocked], or of a [/project/go/packaging] that
    may not be searched: the system refuses to look below it *)
Definition env_refusing : Env := {|
  build_BuildPath := build_BuildPath env;
  build_OutputDirectoryPath := build_OutputDirectoryPath env;
  filepath_Join := filepath_Join env;
  filepath_Abs := filepath_Abs env;
  filepath_Dir := filepath_Dir env;
  runtime_GOARCH := runtime_GOARCH env;
  os_TempDir := os_TempDir env;
  nextRandom := nextRandom env;
  os_fault := os_fault env;
  os_stat_refused := λ path, strings.HasPrefix path "/project/go/packaging/";
  text_template := text_template env;
  pubspec_Name := pubspec_Name env;
  pubspec_GetDescription := pubspec_GetDescription env;
  pubspec_GetAuthor := pubspec_GetAuthor env;
  androidmanifest_AndroidOrganizationName := androidmanifest_AndroidOrganizationName env;
  config_GetApplicationName := config_GetApplicationName env;
  config_GetExecutableName := config_GetExecutableName env;
  config_GetPackageName := config_GetPackageName env;
  config_GetLicense := config_GetLicense env;
  exec_LookPath := exec_LookPath env;
  bash := bash env;
  copy_Copy := copy_Copy env;
  fileutils_CopyTemplateDir := fileutils_CopyTemplateDir env;
  fileutils_CopyAsset := fileutils_CopyAsset env |}.

(** the same with the artifact of an earlier run of [taskFailing] *)
Definition w_prior : world :=
  set_fs (λ f,
    <["/project/go/build/outputs/linux-bad/my_app-0.9.0.bad" := FileInfo false 420]>
      (<["/project/go/build/outputs/linux-bad" := FileInfo true 493]> f)) w0.

End demo.

(** ** Vocabulary of the statements *)

(** [c] does not occur in [s] *)
Definition no_char (c : ascii) (s : string) : Prop := ∀ a b, s ≠ a +:+ String c b.

(** The first segment of [s]: the bytes before the first [c]. *)
Fixpoint first_segment (c : ascii) (s : string) : string :=
  match s with
  | EmptyString => EmptyString
  | String d s' => if decide (d = c) then EmptyString else String d (first_segment c s')
  end.

(** A relation between the world before a call and the world it leaves,
    however the call ends. *)
Definition preserves {A} (R : relation world) (m : M A) : Prop :=
  ∀ w, R w (world_of (m w)).

(** A field action as it is written: [{{], blanks, a dot and the key,
    blanks, [}}]. *)
Record fieldAction := FieldAction {
  blanksBefore : string;
  fieldKey : string;
  blanksAfter : string }.

Definition written_action (a : fieldAction) : string :=
  "{{" +:+ blanksBefore a +:+ "." +:+ fieldKey a +:+ blanksAfter a +:+ "}}".

(** The text of a template made of pieces of literal text, each followed
    by a field action, and a last piece of text. *)
Fixpoint written (pieces : list (string * fieldAction)) (last : string) : string :=
  match pieces with
  | [] => last
  | (text, a) :: pieces' => text +:+ written_action a +:+ written pieces' last
  end.

(** Every byte of the string satisfies [P]. *)
Fixpoint all_chars (P : ascii → bool) (s : string) : bool :=
  match s with
  | EmptyString => true
  | String c s' => P c && all_chars P s'
  end.

(** Spaces and tabs. *)
Definition blank (s : string) : bool :=
  all_chars (λ c, bool_decide (c = " "%char) || bool_decide (c = "009"%char)) s.

(** The letters of a key (the underscore, [A] to [Z] and [a] to [z]) and
    its digits, by their codes. *)
Definition letter (c : ascii) : bool :=
  let n := nat_of_ascii c in
  (n =? 95)%nat || ((65 <=? n) && (n <=? 90))%nat || ((97 <=? n) && (n <=? 122))%nat.

Definition digit (c : ascii) : bool :=
  let n := nat_of_ascii c in ((48 <=? n) && (n <=? 57))%nat.

Definition letters_and_digits (s : string) : bool :=
  all_chars (λ c, letter c || digit c) s.

(** A key that can be written as a field: a letter or an underscore, then
    letters, digits and underscores. *)
Definition field_key (s : string) : bool :=
  match s with
  | EmptyString => false
  | String c s' => letter c && letters_and_digits s'
  end.

(** The pieces are what they are meant to be: the text before an action
    has no [{{] in it and no [{] at its end, the last text has no [{{],
    the blanks are blanks and the keys are keys. *)
Definition well_written (pieces : list (string * fieldAction)) (last : string) : Prop :=
  Forall (λ p : string * fieldAction,
            strings.Index (p.1 +:+ "{") "{{" = None
            ∧ blank (blanksBefore p.2) = true
            ∧ field_key (fieldKey p.2) = true
            ∧ blank (blanksAfter p.2) = true) pieces
  ∧ strings.Index last "{{" = None.

(** The fully substituted string: every field replaced by its value;
    [None] when a key has no value. *)
Fixpoint substituted (data : gmap string string)
    (pieces : list (string * fieldAction)) (last : string) : option string :=
  match pieces with
  | [] => Some last
  | (text, a) :: pieces' =>
      value ← data !! fieldKey a;
      rest ← substituted data pieces' last;
      Some (text +:+ value +:+ rest)
  end.

(** The first key of the template that has no value. *)
Fixpoint missing_key (data : gmap string string)
    (pieces : list (string * fieldAction)) : option string :=
  match pieces with
  | [] => None
  | (_, a) :: pieces' =>
      match data !! fieldKey a with
      | Some _ => missing_key data pieces'
      | None => Some (fieldKey a)
      end
  end.

(** The line of a template that does not parse. *)
Definition ParseError (e : template.error) : event :=
  EvLog LError ("Failed to parse template string: " +:+ Error_ (ErrTemplate e)
                +:+ packaging.newline).

(** The artifact name as the specification words it: application or
    package name, then separator and version if wanted, then a dot and the
    extension. *)
Definition artifact_name (usesApplicationName containsVersion : bool)
    (applicationName packageName version extension : string) : string :=
  (if usesApplicationName then applicationName else packageName)
  +:+ (if containsVersion
       then (if usesApplicationName then " " else "-") +:+ version
       else EmptyString)
  +:+ "." +:+ extension.

(** The configuration directory of a task, as [packagingFormatPath]
    resolves it. *)
Definition configurationDirectory (E : Env) (t : packagingTask) : string * option error :=
  filepath_Abs E (filepath_Join E [packaging.packagingPath E; packagingFormatName t]).

(** Something exists at the path. *)
Definition path_exists (f : filesystem) (path : string) : Prop := is_Some (f !! path).

(** Nothing exists at the path or below it. *)
Definition absent (f : filesystem) (path : string) : Prop :=
  ∀ k, os.under path k = true → f !! k = None.

(** The two failures of the initialisation protocol, as the log line that
    precedes [os.Exit(1)]. *)
Definition NotInitializedError (t : packagingTask) : event :=
  EvLog LError (packagingFormatName t +:+
                " is not initialized for packaging. Please run `hover init-packaging "
                +:+ packagingFormatName t +:+ "` first.").

Definition AlreadyInitializedError (t : packagingTask) : event :=
  EvLog LError (packagingFormatName t +:+ " is already initialized for packaging.").

(** Once the guard of [once] is set, it stays set and [templateData] is
    what it was. *)
Definition cache_kept (w w' : world) : Prop :=
  once w = true → once w' = true ∧ templateData w' = templateData w.

(** The calls the file offers, and the world a call leaves behind, however
    it ends. *)
Inductive call :=
| CallInit (t : packagingTask)
| CallPack (t : packagingTask) (buildVersion : string)
| CallAssertInitialized (t : packagingTask)
| CallIsInitialized (t : packagingTask)
| CallName (t : packagingTask)
| CallGetTemplateData (t : packagingTask) (projectName buildVersion : string)
| CallExecuteStringTemplate (t : string) (data : gmap string string).

Definition run (E : Env) (w : world) (c : call) : world :=
  match c with
  | CallInit t => world_of (packaging.Init E t w)
  | CallPack t buildVersion => world_of (packaging.Pack E t buildVersion w)
  | CallAssertInitialized t => world_of (packaging.AssertInitialized E t w)
  | CallIsInitialized t => world_of (packaging.IsInitialized E t w)
  | CallName t => world_of (packaging.Name t w)
  | CallGetTemplateData t projectName buildVersion =>
      world_of (packaging.getTemplateData E t projectName buildVersion w)
  | CallExecuteStringTemplate t data =>
      world_of (packaging.executeStringTemplate E t data w)
  end.

(** Whether a call returned, and what. *)
Definition is_Returned {A} (o : outcome A) : bool :=
  match o with
  | Returned _ _ => true
  | _ => false
  end.

Definition result_or {A} (d : A) (o : outcome A) : A :=
  match o with
  | Returned a _ => a
  | _ => d
  end.

(** The tasks whose own steps a [Pack] of [t] runs, in order: those of
    each dependency, then [t]. *)
Fixpoint pack_order (t : packagingTask) : list packagingTask :=
  concat (map (λ dep : packagingTask * string, pack_order dep.1) (dependsOn t)) ++ [t].

(** The task is initialised in the file system [f], as [IsInitialized]
    sees it: its configuration directory resolves and [os.Stat] does not
    answer that it does not exist. *)
Definition initialized (E : Env) (t : packagingTask) (f : filesystem) : Prop :=
  ∃ dir, configurationDirectory E t = (dir, None)
         ∧ os.IsNotExist (os.stat E dir f).2 = false.

(** The task and all the tasks it depends on are initialised. *)
Fixpoint all_initialized (E : Env) (t : packagingTask) (f : filesystem) : Prop :=
  initialized E t f
  ∧ foldr (λ (dep : packagingTask * string) P, all_initialized E dep.1 f ∧ P)
          True (dependsOn t).

(** What exists in [f] exists in [f']. *)
Definition keeps_paths (f f' : filesystem) : Prop :=
  ∀ path, path_exists f path → path_exists f' path.

Definition keeps_paths_of (w w' : world) : Prop := keeps_paths (fs w) (fs w').

(** Copying an asset removes nothing. *)
Definition asset_copy_keeps (E : Env) : Prop :=
  ∀ src dst f, keeps_paths f (fileutils_CopyAsset E src dst f).1.

(** The status with which the process ended, if the call ended it. *)
Definition exit_code {A} (o : outcome A) : option Z :=
  match o with
  | Exited code _ => Some code
  | _ => None
  end.

(** ** Vocabulary of the further properties *)

(** Every event [w'] has beyond those of [w] satisfies [Q]. *)
Definition emits (Q : event → Prop) (w w' : world) : Prop :=
  ∃ l, trace w' = trace w ++ l ∧ Forall Q l.

(** The call never panics. *)
Definition never_panics {A} (m : M A) : Prop := ∀ w v w', m w ≠ Panicked v w'.

(** What [Init] may do to the outside: log, create directories, copy
    assets. *)
Definition init_event (e : event) : Prop :=
  match e with
  | EvLog _ _ | EvSys (SysMkdirAll _) | EvCopyAsset _ _ => True
  | _ => False
  end.

(** The pattern [getTemporaryBuildDirectory] hands to [ioutil.TempDir], and
    the name of the directory for the string drawn in state [n] of the random
    source: the string stands in place of the last [*] of the pattern, or at
    its end when it has none. *)
Definition temporaryPrefix (projectName packagingFormat : string) : string :=
  "hover-build-" +:+ projectName +:+ "-" +:+ packagingFormat.

Definition temporaryName (E : Env) (projectName packagingFormat : string) (n : nat)
  : string :=
  let pattern := temporaryPrefix projectName packagingFormat in
  filepath_Join E
    [os_TempDir E;
     match strings.LastIndexByte pattern "*" with
     | Some pos =>
         strings.take pos pattern +:+ nextRandom E n
         +:+ strings.drop (S pos) pattern
     | None => pattern +:+ nextRandom E n
     end].

(** The keys of the template context. *)
Definition contextKeys : list string :=
  ["projectName"; "version"; "release"; "arch"; "description"; "organizationName";
   "author"; "applicationName"; "executableName"; "packageName"; "license";
   "iconPath"; "executablePath"].

(** The event removes, if it is a removal, only a path that satisfies [P]. *)
Definition removes_only (P : string → Prop) (e : event) : Prop :=
  match e with
  | EvSys (SysRemoveAll path) => P path
  | _ => True
  end.

(** The commands run, with their working directories, and the copies made,
    in the order of the trace. *)
Definition scripts (tr : list event) : list (string * string) :=
  omap (λ e, match e with EvBash dir command => Some (dir, command) | _ => None end) tr.

Definition copies (tr : list event) : list (string * string) :=
  omap (λ e, match e with EvCopy src dst => Some (src, dst) | _ => None end) tr.

Definition not_bash (e : event) : Prop :=
  match e with
  | EvBash _ _ => False
  | _ => True
  end.

Definition not_copy (e : event) : Prop :=
  match e with
  | EvCopy _ _ => False
  | _ => True
  end.

(** The paths a [Pack] of [t] may remove: the output directory or a
    temporary build directory of a task it packs. *)
Definition pack_removable (E : Env) (t : packagingTask) (path : string) : Prop :=
  ∃ u, u ∈ pack_order t
       ∧ (path = build_OutputDirectoryPath E (packagingFormatName u)
          ∨ ∃ n, path = temporaryName E (pubspec_Name E) (packagingFormatName u) n).

(** The paths whose permissions were changed, in the order of the trace. *)
Definition chmods (tr : list event) : list string :=
  omap (λ e, match e with EvSys (SysChmod path) => Some path | _ => None end) tr.

Definition not_chmod (e : event) : Prop :=
  match e with
  | EvSys (SysChmod _) => False
  | _ => True
  end.

(** A demo task with a build file generator that writes [run.sh], which the
    task lists as executable. *)
Definition demo_taskHook : packagingTask := {|
  packagingFormatName := "linux-hook";
  dependsOn := [];
  templateFiles := [];
  executableFiles := ["run.sh"];
  linuxDesktopFileExecutablePath := EmptyString;
  linuxDesktopFileIconPath := EmptyString;
  generateBuildFiles :=
    Some (λ _ path f, (<[demo.join [path; "run.sh"] := FileInfo false 420]> f, true));
  buildOutputDirectory := EmptyString;
  packagingScriptTemplate := "touch {{.packageName}}.hook";
  outputFileExtension := "hook";
  outputFileContainsVersion := false;
  outputFileUsesApplicationName := false;
  skipAssertInitialized := true |}.

(** * Properties *)

(** ** Strings *)

Section string_facts.
Implicit Types (s a b sep : string) (c d : ascii).

Lemma no_char_cons c d s : no_char c (String d s) → d ≠ c ∧ no_char c s.
Proof.
  intros H. split.
  - intros ->. by apply (H EmptyString s).
  - intros a b ->. by apply (H (String d a) b).
Qed.

Lemma no_char_cons_intro c d s : d ≠ c → no_char c s → no_char c (String d s).
Proof.
  intros Hd Hs [|e a] b; simpl; intros [= ? ?]; subst; [done|].
  by apply (Hs a b).
Qed.

Lemma Index_char_cons c d s :
  strings.Index (String d s) (String c EmptyString) =
  if decide (d = c) then Some 0%nat else S <$> strings.Index s (String c EmptyString).
Proof.
  simpl. unfold strings.HasPrefix. simpl.
  destruct (ascii_dec c d) as [->|Hne].
  - destruct s; by rewrite decide_True.
  - by rewrite decide_False by congruence.
Qed.

Lemma Index_char_nil c : strings.Index EmptyString (String c EmptyString) = None.
Proof. reflexivity. Qed.

Lemma Index_char_None c s :
  no_char c s → strings.Index s (String c EmptyString) = None.
Proof.
  induction s as [|d s IH]; intros H; [done|].
  apply no_char_cons in H as [Hd Hs].
  rewrite Index_char_cons, decide_False by done. by rewrite IH.
Qed.

Lemma Index_char_Some c a b :
  no_char c a →
  strings.Index (a +:+ String c b) (String c EmptyString) = Some (strings.len a).
Proof.
  induction a as [|d a IH]; intros H.
  - change (EmptyString +:+ String c b) with (String c b).
    by rewrite Index_char_cons, decide_True.
  - apply no_char_cons in H as [Hd Ha].
    change (String d a +:+ String c b) with (String d (a +:+ String c b)).
    rewrite Index_char_cons, decide_False by done. by rewrite IH.
Qed.

Lemma take_app_len a b : strings.take (strings.len a) (a +:+ b) = a.
Proof. induction a as [|d a IH]; simpl; [by destruct b|by rewrite IH]. Qed.

Lemma drop_app_len a b : strings.drop (strings.len a) (a +:+ b) = b.
Proof. induction a as [|d a IH]; simpl; [by destruct b|done]. Qed.

Lemma drop_app_len_1 a c b :
  strings.drop (strings.len a + 1) (a +:+ String c b) = b.
Proof.
  induction a as [|d a IH]; simpl; [by destruct b|done].
Qed.

Lemma len_app a b : strings.len (a +:+ b) = (strings.len a + strings.len b)%nat.
Proof. induction a as [|d a IH]; simpl; [done|by rewrite <- IH]. Qed.

Lemma Count_loop_ge fuel s sep n : n ≤ strings.Count_loop fuel s sep n.
Proof.
  revert s n. induction fuel as [|fuel IH]; intros s n; simpl; [lia|].
  destruct (strings.Index s sep); [|lia].
  etrans; [|apply IH]. lia.
Qed.

Lemma Count_pos s sep :
  sep ≠ EmptyString → is_Some (strings.Index s sep) → 1 ≤ strings.Count s sep.
Proof.
  intros Hsep [i Hi]. unfold strings.Count. rewrite decide_False by done.
  simpl. rewrite Hi. etrans; [|apply Count_loop_ge]. lia.
Qed.

Lemma first_segment_no_char c s : no_char c (first_segment c s).
Proof.
  induction s as [|d s IH]; simpl.
  - by intros [|??] ?.
  - case_decide; [by intros [|??] ?|]. by apply no_char_cons_intro.
Qed.

Lemma first_segment_split c s :
  s = first_segment c s ∨ ∃ rest, s = first_segment c s +:+ String c rest.
Proof.
  induction s as [|d s IH]; simpl; [by left|].
  case_decide as Hd.
  - subst. right. by exists s.
  - destruct IH as [IH|[rest IH]].
    + left. congruence.
    + right. exists rest.
      change (String d s = String d (first_segment c s +:+ String c rest)).
      congruence.
Qed.

(** A string is cut at its first [c] in one way only. *)
Lemma first_cut_unique c a a' b b' :
  no_char c a → no_char c a' →
  a +:+ String c b = a' +:+ String c b' → a = a' ∧ b = b'.
Proof.
  revert a'. induction a as [|d a IH]; intros [|d' a'] Ha Ha' Heq;
    cbn in Heq; simplify_eq.
  - done.
  - by destruct (Ha' EmptyString a').
  - by destruct (Ha EmptyString a).
  - apply no_char_cons in Ha as [_ Ha]. apply no_char_cons in Ha' as [_ Ha'].
    by destruct (IH a' Ha Ha') as [-> ->].
Qed.

Lemma Index_first_segment c s :
  match strings.Index s (String c EmptyString) with
  | Some m => strings.take m s = first_segment c s
  | None => s = first_segment c s
  end.
Proof.
  induction s as [|d s IH]; [done|].
  rewrite Index_char_cons. simpl. case_decide; [done|].
  destruct (strings.Index s (String c EmptyString)); simpl; by rewrite <- IH.
Qed.

(** [strings.Split(s, c)[0]] is in range and is the first segment. *)
Lemma Split_head c s :
  strings.Split s (String c EmptyString) !! 0%nat = Some (first_segment c s).
Proof.
  unfold strings.Split, strings.genSplit.
  rewrite decide_False by done.
  change (-1 =? 0) with false. change (-1 <? 0) with true. cbv iota.
  pose proof (Index_first_segment c s) as Hfs.
  destruct (strings.Index s (String c EmptyString)) as [m|] eqn:Hi.
  - assert (1 ≤ strings.Count s (String c EmptyString)) as Hc
      by (apply Count_pos; [done|by rewrite Hi]).
    assert (1 ≤ Z.of_nat (strings.len s)) as Hl.
    { destruct s; [done|]. simpl. lia. }
    set (n := if _ >? _ then _ else _).
    assert (1 ≤ n - 1) as Hn by (subst n; case_match; lia).
    destruct (Z.to_nat (n - 1)) as [|k] eqn:Hk; [lia|].
    simpl. rewrite Hi. simpl. by rewrite Hfs.
  - set (k := Z.to_nat _). destruct k; simpl; rewrite ?Hi; simpl; by rewrite <- Hfs.
Qed.

(** [strings.SplitN(s, c, 2)] for a string that has a [c] ... *)
Lemma SplitN_2_cut c a b :
  no_char c a →
  strings.SplitN (a +:+ String c b) (String c EmptyString) 2 = [a; b].
Proof.
  intros Ha. unfold strings.SplitN, strings.genSplit.
  rewrite decide_False by done.
  change (2 =? 0) with false. change (2 <? 0) with false. cbv iota.
  assert (1 ≤ Z.of_nat (strings.len (a +:+ String c b))) as Hl.
  { rewrite len_app. simpl. lia. }
  replace (2 >? _) with false by (symmetry; lia).
  simpl. rewrite Index_char_Some by done.
  by rewrite take_app_len, drop_app_len_1.
Qed.

(** ... and for one that has none. *)
Lemma SplitN_2_whole c s :
  no_char c s → strings.SplitN s (String c EmptyString) 2 = [s].
Proof.
  intros Hs. unfold strings.SplitN, strings.genSplit.
  rewrite decide_False by done.
  change (2 =? 0) with false. change (2 <? 0) with false. cbv iota.
  set (k := Z.to_nat _). destruct k; simpl; [done|].
  by rewrite Index_char_None.
Qed.

End string_facts.

(** ** The outcome monad *)

Section monad_facts.
Context {A B : Type}.
Implicit Types (m : M A) (f : A → M B) (w : world).

Lemma bind_unfold m f w :
  (m ≫= f) w =
  match m w with
  | Returned a w' => f a w'
  | Exited code w' => Exited code w'
  | Panicked v w' => Panicked v w'
  end.
Proof. reflexivity. Qed.

Lemma bind_Returned m f w a w1 : m w = Returned a w1 → (m ≫= f) w = f a w1.
Proof. intros H. by rewrite bind_unfold, H. Qed.

Lemma bind_Exited m f w code w1 : m w = Exited code w1 → (m ≫= f) w = Exited code w1.
Proof. intros H. by rewrite bind_unfold, H. Qed.

Lemma bind_Panicked m f w v w1 : m w = Panicked v w1 → (m ≫= f) w = Panicked v w1.
Proof. intros H. by rewrite bind_unfold, H. Qed.

Lemma bind_Returned_inv m f w b w' :
  (m ≫= f) w = Returned b w' →
  ∃ a w1, m w = Returned a w1 ∧ f a w1 = Returned b w'.
Proof. rewrite bind_unfold. destruct (m w); naive_solver. Qed.

End monad_facts.

Lemma is_Returned_eq {A} (d : A) (o : outcome A) :
  is_Returned o = true → o = Returned (result_or d o) (world_of o).
Proof. by destruct o. Qed.

Lemma bind_assoc {A B C} (m : M A) (f : A → M B) (g : B → M C) w :
  ((m ≫= f) ≫= g) w = (m ≫= λ a, f a ≫= g) w.
Proof. rewrite !bind_unfold. by destruct (m w). Qed.

Lemma range_app {A} (f : A → M unit) (xs ys : list A) w :
  range f (xs ++ ys) w = (range f xs ;; range f ys) w.
Proof.
  revert w. induction xs as [|x xs IH]; intros w; [done|].
  simpl. rewrite bind_assoc, !(bind_unfold (f x)).
  destruct (f x w); [apply IH|done..].
Qed.

Section preserves.
Context (R : relation world) `{!PreOrder R}.

Lemma preserves_ret {A} (a : A) : preserves R (mret a).
Proof. intros w. simpl. reflexivity. Qed.

Lemma preserves_bind {A B} (m : M A) (f : A → M B) :
  preserves R m → (∀ a, preserves R (f a)) → preserves R (m ≫= f).
Proof.
  intros Hm Hf w. rewrite bind_unfold. specialize (Hm w).
  destruct (m w) as [a w1| |]; simpl in *; [|done..].
  etrans; [done|apply Hf].
Qed.

Lemma preserves_exit {A} code : preserves R (os_Exit (A:=A) code).
Proof. intros w. simpl. reflexivity. Qed.

Lemma preserves_panic {A} v : preserves R (panic (A:=A) v).
Proof. intros w. simpl. reflexivity. Qed.

Lemma preserves_gets {A} (g : world → A) : preserves R (gets g).
Proof. intros w. simpl. reflexivity. Qed.

Lemma preserves_modify (g : world → world) :
  (∀ w, R w (g w)) → preserves R (modify g).
Proof. intros H w. apply H. Qed.

Lemma preserves_defer {A} (cleanup : M unit) (body : M A) :
  preserves R cleanup → preserves R body → preserves R (defer cleanup body).
Proof.
  intros Hc Hb w. unfold defer. specialize (Hb w).
  destruct (body w) as [a w1|code w1|v w1]; simpl in *; [| done |].
  - specialize (Hc w1). destruct (cleanup w1); simpl in *; by etrans.
  - specialize (Hc w1). destruct (cleanup w1); simpl in *; by etrans.
Qed.

Lemma preserves_range {A} (f : A → M unit) (xs : list A) :
  (∀ x, x ∈ xs → preserves R (f x)) → preserves R (range f xs).
Proof.
  induction xs as [|x xs IH]; intros H; [apply preserves_ret|].
  simpl. apply preserves_bind.
  - apply H. by left.
  - intros _. apply IH. intros y Hy. apply H. by right.
Qed.

Lemma preserves_index xs i : preserves R (index xs i).
Proof. unfold index. destruct (xs !! i); [apply preserves_ret|apply preserves_panic]. Qed.

Lemma preserves_on_error err (h : error → M unit) :
  (∀ e, preserves R (h e)) → preserves R (packaging.on_error err h).
Proof. intros H. destruct err; [apply H|apply preserves_ret]. Qed.

End preserves.

(** ** The template renderer *)

Lemma append_assoc (a b c : string) : (a +:+ b) +:+ c = a +:+ (b +:+ c).
Proof.
  induction a as [|x a IH]; [done|].
  change (String x ((a +:+ b) +:+ c) = String x (a +:+ (b +:+ c))). by rewrite IH.
Qed.

Lemma append_nil_r (a : string) : a +:+ EmptyString = a.
Proof.
  induction a as [|x a IH]; [done|].
  change (String x (a +:+ EmptyString) = String x a). by rewrite IH.
Qed.

Lemma executeStringTemplate_outcome E t data w :
  packaging.executeStringTemplate E t data w =
  match template.Parse (text_template E) t with
  | (_, Some e) =>
      Exited 1 (emit (EvLog LError ("Failed to parse template string: "
                                    +:+ Error_ (ErrTemplate e) +:+ packaging.newline)) w)
  | (tmpl, None) =>
      match template.Execute tmpl data EmptyString with
      | (_, Some e) => Panicked (PanicError (ErrTemplate e)) w
      | (bytes, None) => Returned bytes w
      end
  end.
Proof.
  unfold packaging.executeStringTemplate.
  destruct (template.Parse _ t) as [tmpl [e|]]; [done|].
  by destruct (template.Execute tmpl data EmptyString) as [bytes [e|]].
Qed.

(** ** The artifact name *)

(** C3: the name [Pack] computes is the application name or the package
    name, then a space or a hyphen and the version when the name is to
    contain it, then a dot and the extension; so "MyApp 1.2.3.dmg" for the
    application name "MyApp", version "1.2.3" and extension "dmg", and
    "my_app-1.2.3.dmg" for the package name "my_app". *)
Theorem outputFileName_spec (E : Env) (t : packagingTask) (projectName buildVersion : string) :
  packaging.outputFileName E t projectName buildVersion =
    artifact_name (outputFileUsesApplicationName t) (outputFileContainsVersion t)
      (config_GetApplicationName E projectName) (config_GetPackageName E projectName)
      buildVersion (outputFileExtension t)
  ∧ (outputFileUsesApplicationName t = true → outputFileContainsVersion t = true →
     config_GetApplicationName E projectName = "MyApp" →
     buildVersion = "1.2.3" → outputFileExtension t = "dmg" →
     packaging.outputFileName E t projectName buildVersion = "MyApp 1.2.3.dmg")
  ∧ (outputFileUsesApplicationName t = false → outputFileContainsVersion t = true →
     config_GetPackageName E projectName = "my_app" →
     buildVersion = "1.2.3" → outputFileExtension t = "dmg" →
     packaging.outputFileName E t projectName buildVersion = "my_app-1.2.3.dmg").
Proof.
  split_and!.
  - unfold packaging.outputFileName, artifact_name.
    destruct (outputFileUsesApplicationName t), (outputFileContainsVersion t); cbn;
      by rewrite ?append_assoc, ?append_nil_r.
  - unfold packaging.outputFileName. by intros -> -> -> -> ->.
  - unfold packaging.outputFileName. by intros -> -> -> -> ->.
Qed.

Lemma outputFileName_spec_witness :
  packaging.outputFileName demo.env demo.taskDmg "demo" "1.2.3" = "MyApp 1.2.3.dmg"
  ∧ packaging.outputFileName demo.env demo.taskDmgPackageName "demo" "1.2.3"
    = "my_app-1.2.3.dmg".
Proof.
  split.
  - apply (proj1 (proj2 (outputFileName_spec demo.env demo.taskDmg "demo" "1.2.3")));
      reflexivity.
  - apply (proj2 (proj2 (outputFileName_spec demo.env demo.taskDmgPackageName "demo" "1.2.3")));
      reflexivity.
Defined.

(** ** Format names and versions *)

Lemma no_char_first_segment c s : first_segment c s = s → no_char c s.
Proof. intros <-. apply first_segment_no_char. Qed.

(** C9: [Name] returns what follows the first hyphen of the format name,
    and panics with "index out of range [1] with length 1" when the format
    name has no hyphen. *)
Theorem Name_after_first_hyphen (t : packagingTask) (w : world) :
  (∀ platform variant,
     packagingFormatName t = platform +:+ "-" +:+ variant →
     no_char "-" platform →
     packaging.Name t w = Returned variant w)
  ∧ (no_char "-" (packagingFormatName t) →
     packaging.Name t w = Panicked (IndexOutOfRange 1 1) w).
Proof.
  unfold packaging.Name. split.
  - intros platform variant -> Hp.
    change (platform +:+ "-" +:+ variant) with (platform +:+ String "-" variant).
    by rewrite SplitN_2_cut.
  - intros Hn. by rewrite SplitN_2_whole.
Qed.

Lemma Name_after_first_hyphen_witness :
  packaging.Name demo.taskA demo.w0 = Returned "a" demo.w0
  ∧ packaging.Name demo.taskPlain demo.w0 = Panicked (IndexOutOfRange 1 1) demo.w0.
Proof.
  split.
  - apply (proj1 (Name_after_first_hyphen demo.taskA demo.w0) "linux" "a").
    + reflexivity.
    + apply no_char_first_segment. reflexivity.
  - apply (proj2 (Name_after_first_hyphen demo.taskPlain demo.w0)).
    apply no_char_first_segment. reflexivity.
Defined.

(** ** Initialisation state *)

Lemma packagingFormatPath_outcome E packagingFormat w :
  packaging.packagingFormatPath E packagingFormat w =
  match filepath_Abs E (filepath_Join E [packaging.packagingPath E; packagingFormat]) with
  | (dir, None) => Returned dir w
  | (_, Some e) =>
      Exited 1 (emit (EvLog LError ("Failed to resolve absolute path for "
                       +:+ packagingFormat +:+ " directory: " +:+ Error_ e)) w)
  end.
Proof.
  unfold packaging.packagingFormatPath.
  by destruct (filepath_Abs E _) as [dir [e|]].
Qed.

(** What [os.Stat] answers: never that a path that exists does not exist,
    and that a path does not exist only when it looked. *)
Lemma stat_exists E path f :
  path_exists f path → os.IsNotExist (os.stat E path f).2 = false.
Proof.
  intros [info Hinfo]. unfold os.stat. rewrite Hinfo. by destruct (os_stat_refused E path).
Qed.

Lemma stat_IsNotExist E path f :
  os.IsNotExist (os.stat E path f).2 = true ↔
  os_stat_refused E path = false ∧ f !! path = None.
Proof.
  unfold os.stat. destruct (os_stat_refused E path); simpl; [by split; [|intros []]|].
  destruct (f !! path); simpl; [by split; [|intros []]|done].
Qed.

Lemma stat_not_IsNotExist E path f :
  os.IsNotExist (os.stat E path f).2 = false ↔
  os_stat_refused E path = true ∨ path_exists f path.
Proof.
  unfold os.stat, path_exists. destruct (os_stat_refused E path); simpl; [by split; auto|].
  destruct (f !! path); simpl; [by split; eauto|].
  split; [done|]. by intros [|[? ?]].
Qed.

Lemma stat_refused E path f :
  os_stat_refused E path = true → os.IsNotExist (os.stat E path f).2 = false.
Proof. intros H. unfold os.stat. by rewrite H. Qed.

Lemma IsInitialized_outcome E t w :
  packaging.IsInitialized E t w =
  match configurationDirectory E t with
  | (dir, None) => Returned (negb (os.IsNotExist (os.stat E dir (fs w)).2)) w
  | (_, Some e) =>
      Exited 1 (emit (EvLog LError ("Failed to resolve absolute path for "
                       +:+ packagingFormatName t +:+ " directory: " +:+ Error_ e)) w)
  end.
Proof.
  unfold packaging.IsInitialized, configurationDirectory.
  rewrite bind_unfold, packagingFormatPath_outcome.
  destruct (filepath_Abs E _) as [dir [e|]]; [done|].
  rewrite bind_unfold. unfold os.Stat.
  by destruct (os.stat E dir (fs w)) as [info err].
Qed.

(** C6, as the code has it: [IsInitialized] answers true when a file or a
    directory exists at the configuration path of the task, and false when
    nothing exists there and the system does not refuse to look; it
    answers false exactly when [os.Stat] fails with a not-exist error.
    [AssertInitialized] returns at once, whatever the file system, when
    [skipAssertInitialized] is set, and otherwise returns when
    [IsInitialized] answers true and ends the process with the
    not-initialized error when it answers false. *)
Theorem AssertInitialized_spec (E : Env) (t : packagingTask) (w : world) :
  (∀ dir, configurationDirectory E t = (dir, None) →
     (path_exists (fs w) dir → packaging.IsInitialized E t w = Returned true w)
     ∧ (¬ path_exists (fs w) dir → os_stat_refused E dir = false →
        packaging.IsInitialized E t w = Returned false w)
     ∧ ∃ b, packaging.IsInitialized E t w = Returned b w
            ∧ (b = false ↔ os.IsNotExist (os.stat E dir (fs w)).2 = true))
  ∧ (skipAssertInitialized t = true →
     packaging.AssertInitialized E t w = Returned tt w)
  ∧ (skipAssertInitialized t = false →
     ∀ b w', packaging.IsInitialized E t w = Returned b w' →
       packaging.AssertInitialized E t w =
       if b then Returned tt w' else Exited 1 (emit (NotInitializedError t) w')).
Proof.
  split_and!.
  - intros dir Hdir. rewrite IsInitialized_outcome, Hdir. split_and!.
    + intros Hex. by rewrite stat_exists.
    + intros Hex Href.
      assert (os.IsNotExist (os.stat E dir (fs w)).2 = true) as ->; [|done].
      apply stat_IsNotExist. split; [done|].
      apply eq_None_not_Some. exact Hex.
    + eexists. split; [done|]. by destruct (os.IsNotExist _).
  - intros Hskip. unfold packaging.AssertInitialized. by rewrite Hskip.
  - intros Hskip b w' Hb. unfold packaging.AssertInitialized.
    rewrite Hskip, bind_unfold, Hb. by destruct b.
Qed.

Lemma AssertInitialized_spec_witness :
  packaging.IsInitialized demo.env demo.taskC demo.w0 = Returned false demo.w0
  ∧ packaging.IsInitialized demo.env demo.taskC demo.w_file = Returned true demo.w_file
  ∧ packaging.AssertInitialized demo.env demo.taskDmg demo.w0 = Returned tt demo.w0
  ∧ packaging.AssertInitialized demo.env demo.taskC demo.w0
    = Exited 1 (emit (NotInitializedError demo.taskC) demo.w0).
Proof.
  split_and!.
  - apply (proj1 (proj2 (proj1 (AssertInitialized_spec demo.env demo.taskC demo.w0)
                           "/project/go/packaging/linux-c" eq_refl))).
    + unfold path_exists. vm_compute. by intros [? ?].
    + reflexivity.
  - apply (proj1 (proj1 (AssertInitialized_spec demo.env demo.taskC demo.w_file)
                    "/project/go/packaging/linux-c" eq_refl)).
    unfold path_exists. vm_compute. eauto.
  - apply (proj1 (proj2 (AssertInitialized_spec demo.env demo.taskDmg demo.w0))).
    reflexivity.
  - apply (proj2 (proj2 (AssertInitialized_spec demo.env demo.taskC demo.w0)) eq_refl
             false demo.w0).
    vm_compute. reflexivity.
Defined.

(** C6 fails as stated.  With a regular file at the configuration path of
    [demo.taskC] there is no configuration directory, yet [IsInitialized]
    answers true and [AssertInitialized] returns.  And when the system
    refuses to look at the path, nothing at all exists there and the answer
    is true as well. *)
Lemma IsInitialized_without_directory :
  let dir := "/project/go/packaging/linux-c" in
  configurationDirectory demo.env demo.taskC = (dir, None)
  ∧ IsDir <$> fs demo.w_file !! dir = Some false
  ∧ packaging.IsInitialized demo.env demo.taskC demo.w_file = Returned true demo.w_file
  ∧ packaging.AssertInitialized demo.env demo.taskC demo.w_file = Returned tt demo.w_file
  ∧ configurationDirectory demo.env_refusing demo.taskC = (dir, None)
  ∧ fs demo.w0 !! dir = None
  ∧ packaging.IsInitialized demo.env_refusing demo.taskC demo.w0 = Returned true demo.w0
  ∧ packaging.AssertInitialized demo.env_refusing demo.taskC demo.w0 = Returned tt demo.w0.
Proof. split_and!; vm_compute; reflexivity. Qed.

(** ** Induction on a task and its dependencies *)

Lemma packagingTask_deps_ind (P : packagingTask → Prop) :
  (∀ t, (∀ dep, dep ∈ dependsOn t → P dep.1) → P t) → ∀ t, P t.
Proof.
  intros step. fix IH 1. intros t. apply step.
  apply Forall_forall.
  destruct t as [name deps ? ? ? ? ? ? ? ? ? ? ?]. simpl.
  induction deps as [|dep deps IHdeps]; constructor; [apply IH|apply IHdeps].
Qed.

(** ** The template context *)

Lemma getTemplateData_done E t projectName buildVersion w :
  once w = true →
  packaging.getTemplateData E t projectName buildVersion w = Returned (templateData w) w.
Proof.
  intros Hw. unfold packaging.getTemplateData, packaging.once_Do.
  by rewrite bind_unfold, Hw.
Qed.

(** The first call: the file system and the random source are untouched,
    only errors are logged, the map holds the arguments of this call, and
    when the call returns the guard is set and the result is the map. *)
Lemma getTemplateData_fresh E t projectName buildVersion w :
  once w = false →
  let o := packaging.getTemplateData E t projectName buildVersion w in
  fs (world_of o) = fs w ∧ rng (world_of o) = rng w
  ∧ (∃ l, trace (world_of o) = trace w ++ l ∧ ∀ e, e ∈ l → ∃ msg, e = EvLog LError msg)
  ∧ templateData (world_of o) !! "release" = Some (first_segment "." buildVersion)
  ∧ templateData (world_of o) !! "version" = Some buildVersion
  ∧ templateData (world_of o) !! "projectName" = Some projectName
  ∧ (∀ data w', o = Returned data w' → once w' = true ∧ templateData w' = data).
Proof.
  intros Hw o. subst o. unfold packaging.getTemplateData, packaging.once_Do.
  rewrite bind_unfold, Hw. unfold defer. rewrite bind_unfold.
  unfold index. rewrite Split_head. simpl.
  set (M0 := <["projectName":=_]> _).
  assert (M0 !! "release" = Some (first_segment "." buildVersion)
          ∧ M0 !! "version" = Some buildVersion
          ∧ M0 !! "projectName" = Some projectName) as (HM0 & HM1 & HM2).
  { subst M0. by simplify_map_eq. }
  clearbody M0.
  rewrite bind_unfold. simpl. rewrite bind_unfold. simpl.
  rewrite bind_unfold, executeStringTemplate_outcome.
  destruct (template.Parse _ (linuxDesktopFileIconPath t)) as [tmpl1 [e1|]]; simpl.
  { split_and!; [done|done| |done|done|done|done]. eexists [_]. split; [done|].
    intros e ->%list_elem_of_singleton. eauto. }
  destruct (template.Execute tmpl1 M0 EmptyString) as [iconPath [e1|]]; simpl.
  { split_and!; [done|done| |done|done|done|done]. exists []. split; [by rewrite app_nil_r|].
    by intros e ?%elem_of_nil. }
  rewrite bind_unfold. simpl. rewrite bind_unfold. simpl.
  rewrite bind_unfold, executeStringTemplate_outcome.
  destruct (template.Parse _ (linuxDesktopFileExecutablePath t)) as [tmpl2 [e2|]]; simpl.
  { split_and!; [done|done| |by simplify_map_eq|by simplify_map_eq|by simplify_map_eq|done]. eexists [_]. split; [done|].
    intros e ->%list_elem_of_singleton. eauto. }
  destruct (template.Execute tmpl2 _ EmptyString) as [executablePath [e2|]]; simpl.
  { split_and!; [done|done| |by simplify_map_eq|by simplify_map_eq|by simplify_map_eq|done].
    exists []. split; [by rewrite app_nil_r|]. by intros e ?%elem_of_nil. }
  split_and!; [done|done| |by simplify_map_eq|by simplify_map_eq|by simplify_map_eq|].
  - exists []. split; [by rewrite app_nil_r|]. by intros e ?%elem_of_nil.
  - by intros data w' [= <- <-].
Qed.

(** C8: the [release] entry of the context is the first dot-separated
    segment of [buildVersion]: it has no dot, and [buildVersion] is it or
    it followed by a dot and the rest.  This holds in the map the first
    call builds, however the call ends, and in the map it returns. *)
Theorem release_first_segment (E : Env) (t : packagingTask)
    (projectName buildVersion : string) (w : world) :
  once w = false →
  let o := packaging.getTemplateData E t projectName buildVersion w in
  let release := first_segment "." buildVersion in
  templateData (world_of o) !! "release" = Some release
  ∧ (∀ data w', o = Returned data w' → data !! "release" = Some release)
  ∧ no_char "." release
  ∧ (buildVersion = release ∨ ∃ rest, buildVersion = release +:+ "." +:+ rest).
Proof.
  intros Hw o release.
  destruct (getTemplateData_fresh E t projectName buildVersion w Hw)
    as (_ & _ & _ & Hrel & _ & _ & Hret).
  split_and!.
  - done.
  - intros data w' Ho. destruct (Hret data w' Ho) as [_ <-].
    fold o in Hrel. by rewrite Ho in Hrel.
  - apply first_segment_no_char.
  - apply first_segment_split.
Qed.

Lemma release_first_segment_witness :
  once demo.w0 = false
  ∧ templateData (world_of (packaging.getTemplateData demo.env demo.taskA "demo" "2.5.1"
                              demo.w0)) !! "release" = Some "2".
Proof.
  split; [reflexivity|].
  exact (proj1 (release_first_segment demo.env demo.taskA "demo" "2.5.1" demo.w0 eq_refl)).
Defined.

(** ** The template context is computed once *)

#[local] Instance cache_kept_preorder : PreOrder cache_kept.
Proof.
  split.
  - by intros w Hw.
  - intros w1 w2 w3 H12 H23 Hw. destruct (H12 Hw) as [Hw2 Heq].
    destruct (H23 Hw2) as [Hw3 Heq']. split; [done|congruence].
Qed.

Ltac cache_prim :=
  intros w Hw; simpl; repeat case_match; simpl; auto.

Lemma cache_log lv msg : preserves cache_kept (modify (emit (EvLog lv msg))).
Proof. apply preserves_modify. by intros w Hw. Qed.

Lemma cache_Stat E path : preserves cache_kept (os.Stat E path).
Proof. unfold os.Stat. cache_prim. Qed.

Lemma cache_MkdirAll E path perm : preserves cache_kept (os.MkdirAll E path perm).
Proof. unfold os.MkdirAll. cache_prim. Qed.

Lemma cache_RemoveAll E path : preserves cache_kept (os.RemoveAll E path).
Proof. unfold os.RemoveAll. cache_prim. Qed.

Lemma cache_Chmod E path mode : preserves cache_kept (os.Chmod E path mode).
Proof. unfold os.Chmod. cache_prim. Qed.

Lemma tempDirLoop_cache E tries dir prefix suffix w :
  let w' := world_of (os.tempDirLoop E tries dir prefix suffix w) in
  once w' = once w ∧ templateData w' = templateData w ∧ trace w' = trace w.
Proof.
  revert w. induction tries as [|tries IH]; intros w; simpl; [done|].
  destruct (os.mkdir E _ _ _) as [f err]. simpl.
  destruct (os.IsExist err).
  - destruct (IH (set_rng (S (rng w)) w)) as (-> & -> & ->). done.
  - by destruct err.
Qed.

Lemma TempDir_world E dir pattern w :
  let w' := world_of (os.TempDir E dir pattern w) in
  once w' = once w ∧ templateData w' = templateData w
  ∧ trace w' = trace w ++ [EvSys (SysTempDir pattern)].
Proof.
  unfold os.TempDir.
  destruct (os.prefixAndSuffix pattern) as [[prefix suffix] [e|]]; [done|].
  by destruct (tempDirLoop_cache E (Z.to_nat 10000)
                 (if decide (dir = EmptyString) then os_TempDir E else dir) prefix suffix
                 (emit (EvSys (SysTempDir pattern)) w)) as (-> & -> & ->).
Qed.

Lemma cache_TempDir E dir pattern : preserves cache_kept (os.TempDir E dir pattern).
Proof.
  intros w Hw. by destruct (TempDir_world E dir pattern w) as (-> & -> & _).
Qed.

Lemma cache_exec_Run E dir command : preserves cache_kept (packaging.exec_Run E dir command).
Proof. unfold packaging.exec_Run. cache_prim. Qed.

Lemma cache_copy_Copy E src dst : preserves cache_kept (packaging.copy_Copy_ E src dst).
Proof. unfold packaging.copy_Copy_. cache_prim. Qed.

Lemma cache_CopyTemplateDir E src dst data :
  preserves cache_kept (packaging.CopyTemplateDir E src dst data).
Proof. unfold packaging.CopyTemplateDir. cache_prim. Qed.

Lemma cache_CopyAsset E src dst : preserves cache_kept (packaging.CopyAsset E src dst).
Proof. unfold packaging.CopyAsset. cache_prim. Qed.

Lemma cache_generateBuildFiles g packageName path :
  preserves cache_kept (packaging.call_generateBuildFiles g packageName path).
Proof. unfold packaging.call_generateBuildFiles. cache_prim. Qed.

Lemma cache_executeStringTemplate E t data :
  preserves cache_kept (packaging.executeStringTemplate E t data).
Proof. intros w Hw. rewrite executeStringTemplate_outcome. by repeat case_match. Qed.

Lemma cache_getTemplateData E t projectName buildVersion :
  preserves cache_kept (packaging.getTemplateData E t projectName buildVersion).
Proof. intros w Hw. by rewrite getTemplateData_done. Qed.

Create HintDb cache discriminated.
#[local] Hint Resolve cache_Stat cache_MkdirAll cache_RemoveAll cache_Chmod
  cache_TempDir cache_exec_Run cache_copy_Copy cache_CopyTemplateDir cache_CopyAsset
  cache_generateBuildFiles cache_executeStringTemplate cache_getTemplateData : cache.

(** One step of a proof that a composite call preserves a relation. *)
Ltac preserves_step db :=
  lazymatch goal with
  | |- preserves _ (mbind _ _) => apply preserves_bind; [apply _| |intros ?]
  | |- preserves _ (mret _) => apply preserves_ret; apply _
  | |- preserves _ (os_Exit _) => apply preserves_exit; apply _
  | |- preserves _ (panic _) => apply preserves_panic; apply _
  | |- preserves _ (gets _) => apply preserves_gets; apply _
  | |- preserves _ (index _ _) => apply preserves_index; apply _
  | |- preserves _ (packaging.on_error _ _) =>
      apply preserves_on_error; [apply _|intros ?]
  | |- preserves _ (defer _ _) => apply preserves_defer; [apply _| |]
  | |- preserves _ (range _ _) => apply preserves_range; [apply _|intros ? _]
  | |- preserves _ (if ?b then _ else _) => destruct b
  | |- preserves _ (match ?x with _ => _ end) => destruct x
  | |- _ => solve [eauto with db]
  end.

Lemma cache_log_Errorf msg : preserves cache_kept (log_Errorf msg).
Proof. apply cache_log. Qed.
Lemma cache_log_Warnf msg : preserves cache_kept (log_Warnf msg).
Proof. apply cache_log. Qed.
Lemma cache_log_Infof msg : preserves cache_kept (log_Infof msg).
Proof. apply cache_log. Qed.
Lemma cache_log_Printf msg : preserves cache_kept (log_Printf msg).
Proof. apply cache_log. Qed.
#[local] Hint Resolve cache_log_Errorf cache_log_Warnf cache_log_Infof cache_log_Printf : cache.

Lemma cache_packagingFormatPath E packagingFormat :
  preserves cache_kept (packaging.packagingFormatPath E packagingFormat).
Proof. unfold packaging.packagingFormatPath. repeat preserves_step cache. Qed.
#[local] Hint Resolve cache_packagingFormatPath : cache.

Lemma cache_IsInitialized E t : preserves cache_kept (packaging.IsInitialized E t).
Proof. unfold packaging.IsInitialized. repeat preserves_step cache. Qed.
#[local] Hint Resolve cache_IsInitialized : cache.

Lemma cache_AssertInitialized E t : preserves cache_kept (packaging.AssertInitialized E t).
Proof. unfold packaging.AssertInitialized. repeat preserves_step cache. Qed.

Lemma cache_Name t : preserves cache_kept (packaging.Name t).
Proof. unfold packaging.Name. repeat preserves_step cache. Qed.

Lemma cache_init_own E t ignoreAlreadyExists :
  preserves cache_kept (packaging.init_own E t ignoreAlreadyExists).
Proof.
  unfold packaging.init_own, packaging.createPackagingFormatDirectory,
    packaging.init_templateFile.
  repeat preserves_step cache.
Qed.

Lemma init_unfold E t ignoreAlreadyExists :
  packaging.init E t ignoreAlreadyExists =
  (range (λ dep : packagingTask * string, packaging.init E dep.1 true) (dependsOn t) ;;
   packaging.init_own E t ignoreAlreadyExists).
Proof. by destruct t. Qed.

Lemma Pack_unfold E t buildVersion :
  packaging.Pack E t buildVersion =
  (range (λ dep : packagingTask * string, packaging.Pack E dep.1 buildVersion) (dependsOn t) ;;
   packaging.Pack_own E t buildVersion).
Proof. by destruct t. Qed.

Lemma cache_init E t ignoreAlreadyExists :
  preserves cache_kept (packaging.init E t ignoreAlreadyExists).
Proof.
  revert ignoreAlreadyExists.
  induction t as [t IH] using packagingTask_deps_ind; intros ignoreAlreadyExists.
  rewrite init_unfold. apply preserves_bind; [apply _| |intros _; apply cache_init_own].
  apply preserves_range; [apply _|]. intros dep Hdep. by apply IH.
Qed.

Lemma cache_Pack_own E t buildVersion :
  preserves cache_kept (packaging.Pack_own E t buildVersion).
Proof.
  unfold packaging.Pack_own, packaging.getTemporaryBuildDirectory,
    packaging.Pack_cleanup, packaging.Pack_stage, packaging.runPackaging,
    packaging.Pack_deliver.
  repeat preserves_step cache.
Qed.

Lemma cache_Pack E t buildVersion :
  preserves cache_kept (packaging.Pack E t buildVersion).
Proof.
  induction t as [t IH] using packagingTask_deps_ind.
  rewrite Pack_unfold. apply preserves_bind; [apply _| |intros _; apply cache_Pack_own].
  apply preserves_range; [apply _|]. intros dep Hdep. by apply IH.
Qed.

Lemma cache_run E c : ∀ w, cache_kept w (run E w c).
Proof.
  destruct c as [t|t v|t|t|t|t p v|t data]; intros w.
  - exact (cache_init E t false w).
  - exact (cache_Pack E t v w).
  - exact (cache_AssertInitialized E t w).
  - exact (cache_IsInitialized E t w).
  - exact (cache_Name t w).
  - exact (cache_getTemplateData E t p v w).
  - exact (cache_executeStringTemplate E t data w).
Qed.

Lemma cache_run_all E cs : ∀ w, cache_kept w (foldl (run E) w cs).
Proof.
  induction cs as [|c cs IH]; intros w; simpl; [reflexivity|].
  etrans; [apply cache_run|apply IH].
Qed.

(** C7: when a call of [getTemplateData] has returned a context, every
    later call in the process, for any task and any arguments and after any
    other calls into the file, returns that same context and leaves the
    world as it is; in a process where the guard was not yet set, that
    context holds the arguments of the first call. *)
Theorem getTemplateData_once (E : Env) (t1 : packagingTask)
    (projectName1 buildVersion1 : string) (w w1 : world) (data : gmap string string) :
  packaging.getTemplateData E t1 projectName1 buildVersion1 w = Returned data w1 →
  (once w = false →
     data !! "projectName" = Some projectName1 ∧ data !! "version" = Some buildVersion1)
  ∧ ∀ (between : list call) t2 projectName2 buildVersion2,
      let w2 := foldl (run E) w1 between in
      packaging.getTemplateData E t2 projectName2 buildVersion2 w2 = Returned data w2
      ∧ templateData w2 = data.
Proof.
  intros Hfirst.
  assert (once w1 = true ∧ templateData w1 = data) as [Honce Hdata].
  { destruct (once w) eqn:Hw.
    - rewrite getTemplateData_done in Hfirst by done. by simplify_eq.
    - destruct (getTemplateData_fresh E t1 projectName1 buildVersion1 w Hw)
        as (_ & _ & _ & _ & _ & _ & Hret). by apply Hret. }
  split.
  - intros Hw.
    destruct (getTemplateData_fresh E t1 projectName1 buildVersion1 w Hw)
      as (_ & _ & _ & _ & Hv & Hp & Hret).
    rewrite Hfirst in Hv, Hp. simpl in Hv, Hp.
    destruct (Hret data w1 Hfirst) as [_ <-]. done.
  - intros between t2 projectName2 buildVersion2 w2.
    destruct (cache_run_all E between w1 Honce) as [Honce2 Hdata2].
    fold w2 in Honce2, Hdata2.
    rewrite getTemplateData_done by done. split; congruence.
Qed.

Lemma getTemplateData_once_witness :
  let o := packaging.getTemplateData demo.env demo.taskA "demo" "1.2.3" demo.w0 in
  let w2 := foldl (run demo.env) (world_of o) [CallIsInitialized demo.taskB] in
  (once demo.w0 = false → result_or ∅ o !! "version" = Some "1.2.3")
  ∧ packaging.getTemplateData demo.env demo.taskB "other" "9.9.9" w2
    = Returned (result_or ∅ o) w2.
Proof.
  intros o w2.
  assert (o = Returned (result_or ∅ o) (world_of o)) as Ho.
  { apply is_Returned_eq. vm_compute. reflexivity. }
  pose proof (getTemplateData_once demo.env demo.taskA "demo" "1.2.3" demo.w0
                (world_of o) (result_or ∅ o) Ho) as [Hargs Hlater].
  split.
  - intros Hw. exact (proj2 (Hargs Hw)).
  - exact (proj1 (Hlater [CallIsInitialized demo.taskB] demo.taskB "other" "9.9.9")).
Defined.

(** ** Dependencies are packed first *)

Lemma bind_ret_tt (m : M unit) w : (m ;; mret tt) w = m w.
Proof. rewrite bind_unfold. by destruct (m w) as [[] ?| |]. Qed.

Lemma range_ext {A} (f g : A → M unit) (xs : list A) :
  (∀ x, x ∈ xs → ∀ w, f x w = g x w) → ∀ w, range f xs w = range g xs w.
Proof.
  induction xs as [|x xs IH]; intros H w; [done|].
  simpl. rewrite !bind_unfold, (H x) by by left.
  destruct (g x w); [|done..]. apply IH. intros y Hy. apply H. by right.
Qed.

Lemma range_concat {A B} (f : B → M unit) (g : A → list B) (xs : list A) w :
  range f (concat (map g xs)) w = range (λ x, range f (g x)) xs w.
Proof.
  revert w. induction xs as [|x xs IH]; intros w; [done|].
  simpl. rewrite range_app, !bind_unfold.
  destruct (range f (g x) w); [apply IH|done..].
Qed.

Lemma pack_order_unfold t :
  pack_order t =
  concat (map (λ dep : packagingTask * string, pack_order dep.1) (dependsOn t)) ++ [t].
Proof. by destruct t. Qed.

Lemma Pack_flat E buildVersion t :
  ∀ w, packaging.Pack E t buildVersion w =
       range (λ u, packaging.Pack_own E u buildVersion) (pack_order t) w.
Proof.
  induction t as [t IH] using packagingTask_deps_ind; intros w.
  rewrite Pack_unfold, pack_order_unfold, range_app, !bind_unfold.
  rewrite (range_concat _ (λ dep : packagingTask * string, pack_order dep.1)).
  rewrite (range_ext _ (λ dep : packagingTask * string,
                          range (λ u, packaging.Pack_own E u buildVersion)
                                (pack_order dep.1)) _ IH).
  destruct (range _ (dependsOn t) w) as [[] w1| |]; [|done..].
  simpl. by rewrite bind_ret_tt.
Qed.

(** C5: [Pack] runs the own steps (everything after the loop over the
    dependencies) of the tasks of [pack_order t] one after the other, all
    with the same version; in that order the whole packing of each
    dependency comes before the own steps of [t], which come last; for a
    chain A -> B -> C the order is C, B, A. *)
Theorem Pack_dependencies_first (E : Env) (t : packagingTask) (buildVersion : string) :
  (∀ w, packaging.Pack E t buildVersion w =
        range (λ u, packaging.Pack_own E u buildVersion) (pack_order t) w)
  ∧ (∀ dep, dep ∈ dependsOn t →
       ∃ before after, pack_order t = before ++ pack_order dep.1 ++ after ++ [t])
  ∧ (∀ B C destB destC,
       dependsOn t = [(B, destB)] → dependsOn B = [(C, destC)] → dependsOn C = [] →
       pack_order t = [C; B; t]
       ∧ ∀ w, packaging.Pack E t buildVersion w =
              (packaging.Pack_own E C buildVersion ;;
               packaging.Pack_own E B buildVersion ;;
               packaging.Pack_own E t buildVersion) w).
Proof.
  split_and!.
  - apply Pack_flat.
  - intros dep Hdep. rewrite pack_order_unfold.
    apply list_elem_of_split in Hdep as (l1 & l2 & ->).
    rewrite map_app, concat_app. simpl.
    exists (concat (map (λ dep : packagingTask * string, pack_order dep.1) l1)),
           (concat (map (λ dep : packagingTask * string, pack_order dep.1) l2)).
    by rewrite <- !app_assoc.
  - intros B C destB destC HA HB HC.
    assert (pack_order t = [C; B; t]) as Horder.
    { rewrite (pack_order_unfold t), HA. simpl.
      rewrite (pack_order_unfold B), HB. simpl.
      by rewrite (pack_order_unfold C), HC. }
    split; [done|]. intros w. rewrite Pack_flat, Horder. simpl.
    rewrite !bind_unfold. destruct (packaging.Pack_own E C buildVersion w); [|done..].
    rewrite !bind_unfold. destruct (packaging.Pack_own E B buildVersion w0); [|done..].
    by rewrite bind_ret_tt.
Qed.

Lemma Pack_dependencies_first_witness :
  pack_order demo.taskA = [demo.taskC; demo.taskB; demo.taskA]
  ∧ (∃ before after,
       pack_order demo.taskA = before ++ pack_order demo.taskB ++ after ++ [demo.taskA]).
Proof.
  split.
  - apply (proj2 (proj2 (Pack_dependencies_first demo.env demo.taskA "1.2.3"))
             demo.taskB demo.taskC "b" "c"); reflexivity.
  - apply (proj1 (proj2 (Pack_dependencies_first demo.env demo.taskA "1.2.3"))
             (demo.taskB, "b")).
    simpl. left.
Defined.

(** ** The file system calls *)

Arguments os.mkdirAll : simpl never.
Arguments os.tempDirLoop : simpl never.

Lemma mkdir_spec E path perm f :
  match os.mkdir E path perm f with
  | (f', None) => f !! path = None ∧ f' = <[path := FileInfo true perm]> f
  | (f', Some _) => f' = f
  end.
Proof.
  unfold os.mkdir. destruct (os_fault E _ f); [done|].
  by destruct (f !! path) eqn:Hp.
Qed.

Lemma mkdirAll_O E path perm f :
  os.mkdirAll E O path perm f =
  match f !! path with
  | Some info => if IsDir info then (f, None) else (f, Some (ErrNotDir path))
  | None => (f, Some (ErrFault (SysMkdirAll path)))
  end.
Proof. reflexivity. Qed.

Lemma mkdirAll_S E fuel path perm f :
  os.mkdirAll E (S fuel) path perm f =
  match f !! path with
  | Some info => if IsDir info then (f, None) else (f, Some (ErrNotDir path))
  | None =>
      let '(f1, err) :=
        match os.parentOf path with
        | Some parent => os.mkdirAll E fuel parent perm f
        | None => (f, None)
        end in
      match err with
      | Some e => (f1, Some e)
      | None =>
          let '(f2, err) := os.mkdir E path perm f1 in
          match err with
          | Some e =>
              match f2 !! path with
              | Some info => if IsDir info then (f2, None) else (f2, Some e)
              | None => (f2, Some e)
              end
          | None => (f2, None)
          end
      end
  end.
Proof. reflexivity. Qed.

Lemma mkdirAll_subseteq E fuel path perm f : f ⊆ (os.mkdirAll E fuel path perm f).1.
Proof.
  revert path f. induction fuel as [|fuel IH]; intros path f;
    [rewrite mkdirAll_O|rewrite mkdirAll_S].
  - by repeat case_match.
  - destruct (f !! path) as [info|] eqn:Hp; [by destruct (IsDir info)|].
    assert (∃ f1 err1, match os.parentOf path with
                       | Some parent => os.mkdirAll E fuel parent perm f
                       | None => (f, None)
                       end = (f1, err1) ∧ f ⊆ f1) as (f1 & err1 & -> & Hf1).
    { destruct (os.parentOf path) as [parent|]; [|by eexists _, _].
      specialize (IH parent f).
      destruct (os.mkdirAll E fuel parent perm f) as [f1 err1]. by eexists _, _. }
    destruct err1 as [e|]; [done|].
    pose proof (mkdir_spec E path perm f1) as Hm.
    destruct (os.mkdir E path perm f1) as [f2 [e|]].
    + subst f2. by repeat case_match.
    + destruct Hm as [Hnone ->]. simpl. etrans; [done|]. by apply insert_subseteq.
Qed.

Lemma mkdirAll_ok E fuel path perm f f' :
  os.mkdirAll E fuel path perm f = (f', None) → path_exists f' path.
Proof.
  unfold path_exists. destruct fuel as [|fuel];
    [rewrite mkdirAll_O|rewrite mkdirAll_S].
  - destruct (f !! path) as [info|] eqn:Hp; [|done].
    destruct (IsDir info); [|done]. intros [= <-]. by rewrite Hp.
  - destruct (f !! path) as [info|] eqn:Hp.
    { destruct (IsDir info); [|done]. intros [= <-]. by rewrite Hp. }
    destruct (match os.parentOf path with
              | Some parent => os.mkdirAll E fuel parent perm f
              | None => (f, None)
              end) as [f1 [e1|]]; [done|].
    pose proof (mkdir_spec E path perm f1) as Hm.
    destruct (os.mkdir E path perm f1) as [f2 [e|]].
    + subst f2. destruct (f1 !! path) as [info|] eqn:Hp1; [|done].
      destruct (IsDir info); [|done]. intros [= <-]. by rewrite Hp1.
    + destruct Hm as [_ ->]. intros [= <-]. by rewrite lookup_insert_eq.
Qed.

Lemma keeps_paths_subseteq (f f' : filesystem) : f ⊆ f' → keeps_paths f f'.
Proof.
  intros Hsub path [info Hp]. exists info. by eapply lookup_weaken.
Qed.

#[local] Instance keeps_paths_of_preorder : PreOrder keeps_paths_of.
Proof.
  split.
  - by intros w path.
  - intros w1 w2 w3 H12 H23 path Hp. by apply H23, H12.
Qed.

Lemma RemoveAll_absent E path w err w' :
  os.RemoveAll E path w = Returned err w' → err = None → absent (fs w') path.
Proof.
  unfold os.RemoveAll. simpl. destruct (os_fault E _ _); [by intros [= <- <-]|].
  intros [= <- <-] _ k Hk. simpl.
  apply map_lookup_filter_None. right. intros info _. simpl. by rewrite Hk.
Qed.

(** ** Initialisation *)

Section init_facts.
Context (E : Env) (Hkeep : asset_copy_keeps E).

Lemma keeps_log lv msg : preserves keeps_paths_of (modify (emit (EvLog lv msg))).
Proof. apply preserves_modify. by intros w path. Qed.

Lemma keeps_Stat path : preserves keeps_paths_of (os.Stat E path).
Proof. by intros w. Qed.

Lemma keeps_MkdirAll path perm : preserves keeps_paths_of (os.MkdirAll E path perm).
Proof.
  intros w. unfold os.MkdirAll. simpl. destruct (os_fault E _ _); [by intros p|].
  pose proof (mkdirAll_subseteq E (S (strings.len path)) path perm (fs w)) as Hsub.
  destruct (os.mkdirAll E _ path perm (fs w)) as [f err].
  unfold keeps_paths_of. simpl in *. by apply keeps_paths_subseteq.
Qed.

Lemma keeps_CopyAsset boxPath to : preserves keeps_paths_of (packaging.CopyAsset E boxPath to).
Proof.
  intros w. unfold packaging.CopyAsset.
  pose proof (Hkeep boxPath to (fs w)) as H.
  destruct (fileutils_CopyAsset E boxPath to (fs w)) as [f ok].
  unfold keeps_paths_of. by destruct ok.
Qed.

Lemma keeps_log_Errorf msg : preserves keeps_paths_of (log_Errorf msg).
Proof. apply keeps_log. Qed.
Lemma keeps_log_Infof msg : preserves keeps_paths_of (log_Infof msg).
Proof. apply keeps_log. Qed.

Create HintDb keeps discriminated.
Hint Resolve keeps_Stat keeps_MkdirAll keeps_CopyAsset keeps_log_Errorf keeps_log_Infof
  : keeps.

Lemma keeps_packagingFormatPath packagingFormat :
  preserves keeps_paths_of (packaging.packagingFormatPath E packagingFormat).
Proof. unfold packaging.packagingFormatPath. repeat preserves_step keeps. Qed.
Hint Resolve keeps_packagingFormatPath : keeps.

Lemma keeps_init_own t ignoreAlreadyExists :
  preserves keeps_paths_of (packaging.init_own E t ignoreAlreadyExists).
Proof.
  unfold packaging.init_own, packaging.IsInitialized,
    packaging.createPackagingFormatDirectory, packaging.init_templateFile.
  repeat preserves_step keeps.
Qed.

Lemma keeps_init t ignoreAlreadyExists :
  preserves keeps_paths_of (packaging.init E t ignoreAlreadyExists).
Proof.
  revert ignoreAlreadyExists.
  induction t as [t IH] using packagingTask_deps_ind; intros ignoreAlreadyExists.
  rewrite init_unfold. apply preserves_bind; [apply _| |intros _; apply keeps_init_own].
  apply preserves_range; [apply _|]. intros dep Hdep. by apply IH.
Qed.

(** When [createPackagingFormatDirectory] returns, the directory exists. *)
Lemma createPackagingFormatDirectory_returned t w w' :
  packaging.createPackagingFormatDirectory E (packagingFormatName t) w = Returned tt w' →
  initialized E t (fs w').
Proof.
  unfold packaging.createPackagingFormatDirectory, initialized, configurationDirectory.
  rewrite bind_unfold, packagingFormatPath_outcome.
  destruct (filepath_Abs E _) as [dir [e|]] eqn:Habs; [done|].
  rewrite bind_unfold. unfold os.Stat.
  destruct (os.stat E dir (fs w)) as [info err]; simpl.
  destruct (os.IsNotExist err); simpl; [|done].
  rewrite bind_unfold. simpl.
  rewrite bind_unfold, packagingFormatPath_outcome, Habs.
  rewrite bind_unfold. unfold os.MkdirAll. simpl.
  destruct (os_fault E _ _).
  { simpl. by rewrite bind_unfold, packagingFormatPath_outcome, Habs. }
  destruct (os.mkdirAll E _ dir 509 _) as [f [e|]] eqn:Hmk.
  { simpl. by rewrite bind_unfold, packagingFormatPath_outcome, Habs. }
  simpl. intros [= <-]. exists dir. split; [done|].
  apply stat_exists. by eapply mkdirAll_ok.
Qed.

Lemma initialized_keeps t f f' : keeps_paths f f' → initialized E t f → initialized E t f'.
Proof.
  intros Hk (dir & Hdir & Hp). exists dir. split; [done|].
  apply stat_not_IsNotExist in Hp as [Href|Hex]; apply stat_not_IsNotExist; auto.
Qed.

Lemma all_initialized_unfold t f :
  all_initialized E t f ↔
  initialized E t f ∧ ∀ dep, dep ∈ dependsOn t → all_initialized E dep.1 f.
Proof.
  destruct t as [name deps ? ? ? ? ? ? ? ? ? ? ?]. simpl.
  apply and_iff_compat_l.
  induction deps as [|dep deps IH]; simpl.
  - split; [by intros _ ? ?%elem_of_nil|done].
  - rewrite IH. split.
    + intros [Hd Hds] dep' [->|?]%elem_of_cons; [done|by apply Hds].
    + intros H. split; [apply H; by left|]. intros dep' Hdep'. apply H. by right.
Qed.

Lemma all_initialized_keeps t f f' :
  keeps_paths f f' → all_initialized E t f → all_initialized E t f'.
Proof.
  intros Hk. induction t as [t IH] using packagingTask_deps_ind.
  rewrite !all_initialized_unfold. intros [Ht Hdeps]. split.
  - by eapply initialized_keeps.
  - intros dep Hdep. by apply IH, Hdeps.
Qed.

(** When [init_own] returns, the task is initialised. *)
Lemma init_own_returned t ignoreAlreadyExists w w' :
  packaging.init_own E t ignoreAlreadyExists w = Returned tt w' →
  initialized E t (fs w').
Proof.
  unfold packaging.init_own. rewrite bind_unfold.
  pose proof (IsInitialized_outcome E t w) as Hinit.
  destruct (configurationDirectory E t) as [dir [e|]] eqn:Hdir;
    rewrite Hinit; [done|].
  destruct (os.IsNotExist (os.stat E dir (fs w)).2) eqn:Hex; simpl.
  2:{ destruct ignoreAlreadyExists; simpl; [|done].
      intros [= <-]. by exists dir. }
  - intros H. apply bind_Returned_inv in H as ([] & w1 & Hcreate & H).
    apply createPackagingFormatDirectory_returned in Hcreate.
    eapply initialized_keeps; [|done].
    change (keeps_paths_of w1 (world_of (Returned tt w'))). rewrite <- H.
    generalize w1. change (preserves keeps_paths_of
      (dir0 ← packaging.packagingFormatPath E (packagingFormatName t);
       range (packaging.init_templateFile E dir0) (templateFiles t) ;;
       log_Infof ("go/packaging/" +:+ packagingFormatName t +:+
                  " has been created. You can modify the configuration files and add it to git.") ;;
       platform ← index (strings.Split (packagingFormatName t) "-") 0;
       log_Infof ("You now can package the " +:+ platform +:+ " using `hover build "
                  +:+ packagingFormatName t +:+ "`"))).
    unfold packaging.init_templateFile. repeat preserves_step keeps.
Qed.

(** When [init] returns, the task and its dependencies are initialised. *)
Lemma init_returned t ignoreAlreadyExists w w' :
  packaging.init E t ignoreAlreadyExists w = Returned tt w' →
  all_initialized E t (fs w').
Proof.
  revert ignoreAlreadyExists w w'.
  induction t as [t IH] using packagingTask_deps_ind; intros ig w w'.
  rewrite init_unfold. intros H.
  apply bind_Returned_inv in H as ([] & w1 & Hdeps & Hown).
  apply all_initialized_unfold. split; [by eapply init_own_returned|].
  assert (keeps_paths_of w1 w') as Hk1.
  { change w' with (world_of (Returned tt w')). rewrite <- Hown. apply keeps_init_own. }
  intros dep Hdep. eapply all_initialized_keeps; [exact Hk1|].
  clear Hown Hk1. revert w Hdeps.
  induction (dependsOn t) as [|d deps IHdeps]; intros w Hdeps;
    [by apply elem_of_nil in Hdep|].
  simpl in Hdeps. apply bind_Returned_inv in Hdeps as ([] & w0 & Hd & Hrest).
  apply elem_of_cons in Hdep as [->|Hdep].
  - eapply all_initialized_keeps; [|eapply (IH d); [by left|done]].
    change (keeps_paths_of w0 (world_of (Returned tt w1))). rewrite <- Hrest.
    apply preserves_range; [apply _|]. intros x _. apply keeps_init.
  - eapply IHdeps; [|done|done]. intros dep' Hdep'. apply IH. by right.
Qed.

(** An initialised task with initialised dependencies: the suppressed
    [init] returns and changes nothing, the unsuppressed one ends the
    process with the already-initialised error. *)
Lemma init_own_initialized t ignoreAlreadyExists w :
  initialized E t (fs w) →
  packaging.init_own E t ignoreAlreadyExists w =
  if ignoreAlreadyExists then Returned tt w
  else Exited 1 (emit (AlreadyInitializedError t) w).
Proof.
  intros (dir & Hdir & Hp). unfold packaging.init_own.
  rewrite bind_unfold, IsInitialized_outcome, Hdir, Hp.
  by destruct ignoreAlreadyExists.
Qed.

Lemma init_deps_initialized t w :
  (∀ dep, dep ∈ dependsOn t → packaging.init E dep.1 true w = Returned tt w) →
  range (λ dep : packagingTask * string, packaging.init E dep.1 true) (dependsOn t) w
  = Returned tt w.
Proof.
  induction (dependsOn t) as [|d deps IHdeps]; intros H; [done|].
  simpl. rewrite bind_unfold, H by by left. apply IHdeps.
  intros dep Hdep. apply H. by right.
Qed.

Lemma init_initialized t ignoreAlreadyExists w :
  all_initialized E t (fs w) →
  packaging.init E t ignoreAlreadyExists w =
  if ignoreAlreadyExists then Returned tt w
  else Exited 1 (emit (AlreadyInitializedError t) w).
Proof.
  revert ignoreAlreadyExists.
  induction t as [t IH] using packagingTask_deps_ind; intros ig.
  rewrite all_initialized_unfold. intros [Ht Hdeps].
  rewrite init_unfold, bind_unfold, init_deps_initialized.
  - by apply init_own_initialized.
  - intros dep Hdep. apply (IH dep Hdep true). by apply Hdeps.
Qed.

End init_facts.

Lemma asset_copy_keeps_demo : asset_copy_keeps demo.env.
Proof.
  intros src dst f path Hp. unfold path_exists. simpl.
  rewrite lookup_insert_is_Some. destruct (decide (dst = path)); auto.
Qed.

(** ** The temporary build directory and the output directory *)

Lemma tempDirLoop_S E tries dir prefix suffix w :
  os.tempDirLoop E (S tries) dir prefix suffix w =
  let try := filepath_Join E [dir; prefix +:+ nextRandom E (rng w) +:+ suffix] in
  let w := set_rng (S (rng w)) w in
  let '(f, err) := os.mkdir E try 448 (fs w) in
  if os.IsExist err then os.tempDirLoop E tries dir prefix suffix w
  else match err with
       | Some e => Returned (EmptyString, Some e) w
       | None => Returned (try, None) (set_fs (λ _, f) w)
       end.
Proof. reflexivity. Qed.

(** A directory [ioutil.TempDir] hands out did not exist and exists now. *)
Lemma tempDirLoop_returned E tries dir prefix suffix w path w1 :
  os.tempDirLoop E tries dir prefix suffix w = Returned (path, None) w1 →
  fs w !! path = None ∧ fs w1 = <[path := FileInfo true 448]> (fs w).
Proof.
  revert w. induction tries as [|tries IH]; intros w; [done|].
  rewrite tempDirLoop_S. cbv zeta.
  pose proof (mkdir_spec E
                (filepath_Join E [dir; prefix +:+ nextRandom E (rng w) +:+ suffix])
                448 (fs (set_rng (S (rng w)) w))) as Hm.
  destruct (os.mkdir E _ 448 _) as [f [e|]].
  - destruct (os.IsExist (Some e)); [|done]. intros H. by apply IH in H.
  - simpl. intros [= <- <-]. by destruct Hm as [? ->].
Qed.

Lemma getTemporaryBuildDirectory_returned E projectName packagingFormat w tmpPath w1 :
  packaging.getTemporaryBuildDirectory E projectName packagingFormat w
    = Returned tmpPath w1 →
  fs w !! tmpPath = None ∧ fs w1 = <[tmpPath := FileInfo true 448]> (fs w).
Proof.
  unfold packaging.getTemporaryBuildDirectory. intros H.
  apply bind_Returned_inv in H as ([path err] & w' & Htmp & H).
  destruct err as [e|]; [done|]. simpl in H. injection H as <- <-.
  unfold os.TempDir in Htmp.
  destruct (os.prefixAndSuffix _) as [[prefix suffix] [e|]]; [done|].
  by apply tempDirLoop_returned in Htmp.
Qed.

Lemma Pack_cleanup_outcome E tmpPath w :
  match packaging.Pack_cleanup E tmpPath w with
  | Returned _ w' => absent (fs w') tmpPath
  | Exited code w' => code = 1 ∧ fs w' = fs w
  | Panicked _ _ => False
  end.
Proof.
  unfold packaging.Pack_cleanup. rewrite bind_unfold.
  destruct (os.RemoveAll E tmpPath w) as [err w'| |] eqn:Hrm;
    [|by unfold os.RemoveAll in Hrm; repeat case_match..].
  destruct err as [e|]; simpl.
  - unfold os.RemoveAll in Hrm. simpl in Hrm.
    destruct (os_fault E _ _); by simplify_eq.
  - by eapply RemoveAll_absent.
Qed.

(** A packaging script that exits non-zero ends the process; the file
    system stays as the script left it. *)
Lemma runPackaging_failing E path command w :
  (bash E path command (fs w)).2 = false →
  ∃ w', packaging.runPackaging E path command w = Exited 1 w'
        ∧ fs w' = (bash E path command (fs w)).1.
Proof.
  intros Hfail. unfold packaging.runPackaging, packaging.exec_Run.
  rewrite bind_unfold. destruct (bash E path command (fs w)) as [f ok].
  simpl in Hfail. subst ok. simpl. by eexists.
Qed.

Lemma getTemplateData_fs E t projectName buildVersion w :
  fs (world_of (packaging.getTemplateData E t projectName buildVersion w)) = fs w.
Proof.
  destruct (once w) eqn:Hw.
  - by rewrite getTemplateData_done.
  - by destruct (getTemplateData_fresh E t projectName buildVersion w Hw) as [? _].
Qed.

Lemma executeStringTemplate_fs E t data w :
  fs (world_of (packaging.executeStringTemplate E t data w)) = fs w.
Proof. rewrite executeStringTemplate_outcome. by repeat case_match. Qed.

(** Invert the binds of a returning computation up to a given call. *)
Ltac invert_binds_until H stop :=
  repeat lazymatch type of H with
         | (mbind _ ?m) _ = Returned _ _ =>
             lazymatch m with
             | context [stop] => fail
             | _ => apply bind_Returned_inv in H as (? & ? & _ & H); cbv beta in H
             end
         end.

(** When the staging part of [Pack] returns, the output directory of the
    format is gone. *)
Lemma Pack_stage_returned E t buildVersion projectName tmpPath w1 script w2 :
  packaging.Pack_stage E t buildVersion projectName tmpPath w1 = Returned script w2 →
  absent (fs w2) (build_OutputDirectoryPath E (packagingFormatName t)).
Proof.
  unfold packaging.Pack_stage. intros H.
  invert_binds_until H os.RemoveAll.
  apply bind_Returned_inv in H as (err & wr & Hrm & H).
  apply bind_Returned_inv in H as ([] & wl & Hlog & H).
  injection Hlog as <-.
  apply bind_Returned_inv in H as ([] & wh & Herr & H).
  destruct err as [e|]; [done|]. injection Herr as <-.
  apply bind_Returned_inv in H as (data & wd & Hdata & H).
  pose proof (getTemplateData_fs E t projectName buildVersion
                (emit (EvLog LPrint "Cleaning the build directory") wr)) as Hfs1.
  rewrite Hdata in Hfs1. simpl in Hfs1.
  pose proof (executeStringTemplate_fs E (packagingScriptTemplate t) data wd) as Hfs2.
  rewrite H in Hfs2. simpl in Hfs2.
  rewrite Hfs2, Hfs1. by eapply RemoveAll_absent.
Qed.

Lemma Pack_after_dependencies E t buildVersion w0 w :
  range (λ dep : packagingTask * string, packaging.Pack E dep.1 buildVersion)
        (dependsOn t) w0 = Returned tt w →
  packaging.Pack E t buildVersion w0 = packaging.Pack_own E t buildVersion w.
Proof. intros Hdeps. by rewrite Pack_unfold, bind_unfold, Hdeps. Qed.

Lemma Pack_own_allocated E t buildVersion w tmpPath w1 :
  packaging.getTemporaryBuildDirectory E (pubspec_Name E) (packagingFormatName t) w
    = Returned tmpPath w1 →
  packaging.Pack_own E t buildVersion w =
  defer (packaging.Pack_cleanup E tmpPath)
    (packagingScript ← packaging.Pack_stage E t buildVersion (pubspec_Name E) tmpPath;
     packaging.runPackaging E tmpPath packagingScript ;;
     packaging.Pack_deliver E t buildVersion (pubspec_Name E) tmpPath) w1.
Proof. intros Htmp. unfold packaging.Pack_own. by rewrite bind_unfold, Htmp. Qed.

(** Whenever the deferred removal has run and the call goes on (returning
    or panicking), the directory is gone. *)
Lemma defer_cleanup_absent {A} E tmpPath (body : M A) w1 :
  match defer (packaging.Pack_cleanup E tmpPath) body w1 with
  | Returned _ w' | Panicked _ w' => absent (fs w') tmpPath
  | Exited _ _ => True
  end.
Proof.
  unfold defer. destruct (body w1) as [a w2|code w2|v w2]; [|done|].
  - pose proof (Pack_cleanup_outcome E tmpPath w2) as Hc.
    by destruct (packaging.Pack_cleanup E tmpPath w2).
  - pose proof (Pack_cleanup_outcome E tmpPath w2) as Hc.
    by destruct (packaging.Pack_cleanup E tmpPath w2).
Qed.

Lemma Pack_own_script_fails E t buildVersion w tmpPath w1 script w2 :
  packaging.getTemporaryBuildDirectory E (pubspec_Name E) (packagingFormatName t) w
    = Returned tmpPath w1 →
  packaging.Pack_stage E t buildVersion (pubspec_Name E) tmpPath w1 = Returned script w2 →
  (bash E tmpPath script (fs w2)).2 = false →
  ∃ w3, packaging.Pack_own E t buildVersion w = Exited 1 w3
        ∧ fs w3 = (bash E tmpPath script (fs w2)).1.
Proof.
  intros Htmp Hstage Hfail.
  destruct (runPackaging_failing E tmpPath script w2 Hfail) as (w3 & Hrun & Hfs).
  exists w3. split; [|done].
  rewrite (Pack_own_allocated E t buildVersion w tmpPath w1 Htmp).
  unfold defer. by rewrite bind_unfold, Hstage, bind_unfold, Hrun.
Qed.

(** C1, as the code has it: the temporary build directory of a [Pack]
    invocation is new, and it is gone when the invocation returns and when
    it unwinds with a panic, the deferred [os.RemoveAll] having run; when
    the packaging script exits non-zero, [runPackaging] ends the process
    with [os.Exit(1)], the deferred removal does not run and the file system
    is left as the script left it. *)
Theorem Pack_temporary_directory (E : Env) (t : packagingTask) (buildVersion : string)
    (w0 w w1 : world) (tmpPath : string) :
  range (λ dep : packagingTask * string, packaging.Pack E dep.1 buildVersion)
        (dependsOn t) w0 = Returned tt w →
  packaging.getTemporaryBuildDirectory E (pubspec_Name E) (packagingFormatName t) w
    = Returned tmpPath w1 →
  (¬ path_exists (fs w) tmpPath ∧ path_exists (fs w1) tmpPath)
  ∧ (∀ w', packaging.Pack E t buildVersion w0 = Returned tt w' → absent (fs w') tmpPath)
  ∧ (∀ v w', packaging.Pack E t buildVersion w0 = Panicked v w' → absent (fs w') tmpPath)
  ∧ (∀ script w2,
       packaging.Pack_stage E t buildVersion (pubspec_Name E) tmpPath w1
         = Returned script w2 →
       (bash E tmpPath script (fs w2)).2 = false →
       ∃ w3, packaging.Pack E t buildVersion w0 = Exited 1 w3
             ∧ fs w3 = (bash E tmpPath script (fs w2)).1).
Proof.
  intros Hdeps Htmp.
  rewrite (Pack_after_dependencies E t buildVersion w0 w Hdeps).
  destruct (getTemporaryBuildDirectory_returned _ _ _ _ _ _ Htmp) as [Hnew Hfs1].
  pose proof (defer_cleanup_absent E tmpPath
    (packagingScript ← packaging.Pack_stage E t buildVersion (pubspec_Name E) tmpPath;
     packaging.runPackaging E tmpPath packagingScript ;;
     packaging.Pack_deliver E t buildVersion (pubspec_Name E) tmpPath) w1) as Hdefer.
  rewrite <- (Pack_own_allocated E t buildVersion w tmpPath w1 Htmp) in Hdefer.
  split_and!.
  - unfold path_exists. rewrite Hnew. by intros [??].
  - unfold path_exists. rewrite Hfs1, lookup_insert_eq. by eexists.
  - intros w' Hret. by rewrite Hret in Hdefer.
  - intros v w' Hpanic. by rewrite Hpanic in Hdefer.
  - intros script w2 Hstage Hfail. by eapply Pack_own_script_fails.
Qed.

(** C10: when the staging part of [Pack] has returned, that is, when the
    packaging script is about to run, nothing exists at or below the output
    directory of the format; and when the script then exits non-zero the
    process ends with status 1 in the file system the script left, so what
    the script did not put there itself is absent at the end. *)
Theorem Pack_output_directory (E : Env) (t : packagingTask) (buildVersion : string)
    (w0 w w1 w2 : world) (tmpPath script : string) :
  range (λ dep : packagingTask * string, packaging.Pack E dep.1 buildVersion)
        (dependsOn t) w0 = Returned tt w →
  packaging.getTemporaryBuildDirectory E (pubspec_Name E) (packagingFormatName t) w
    = Returned tmpPath w1 →
  packaging.Pack_stage E t buildVersion (pubspec_Name E) tmpPath w1 = Returned script w2 →
  let out := build_OutputDirectoryPath E (packagingFormatName t) in
  absent (fs w2) out
  ∧ ((bash E tmpPath script (fs w2)).2 = false →
     ∃ w3, packaging.Pack E t buildVersion w0 = Exited 1 w3
           ∧ fs w3 = (bash E tmpPath script (fs w2)).1
           ∧ (absent (bash E tmpPath script (fs w2)).1 out → absent (fs w3) out)).
Proof.
  intros Hdeps Htmp Hstage out. split.
  - by eapply Pack_stage_returned.
  - intros Hfail.
    rewrite (Pack_after_dependencies E t buildVersion w0 w Hdeps).
    destruct (Pack_own_script_fails E t buildVersion w tmpPath w1 script w2
                Htmp Hstage Hfail) as (w3 & Hexit & Hfs).
    exists w3. split_and!; [done|done|]. by rewrite Hfs.
Qed.

Lemma Pack_temporary_directory_witness :
  let o := packaging.Pack demo.env demo.taskC "1.2.3" demo.w0 in
  is_Returned o = true ∧ absent (fs (world_of o)) "/tmp/hover-build-demo-linux-c0".
Proof.
  intros o.
  assert (is_Returned o = true) as Hret by (vm_compute; reflexivity).
  split; [done|].
  assert (o = Returned tt (world_of o)) as Ho.
  { rewrite (is_Returned_eq tt o Hret) at 1. by destruct (result_or tt o). }
  set (tmp := "/tmp/hover-build-demo-linux-c0").
  set (g := packaging.getTemporaryBuildDirectory demo.env "demo" "linux-c" demo.w0).
  assert (g = Returned tmp (world_of g)) as Hg.
  { rewrite (is_Returned_eq EmptyString g) at 1 by (vm_compute; reflexivity).
    by assert (result_or EmptyString g = tmp) as -> by (vm_compute; reflexivity). }
  exact (proj1 (proj2
           (Pack_temporary_directory demo.env demo.taskC "1.2.3" demo.w0 demo.w0
              (world_of g) tmp eq_refl Hg))
           (world_of o) Ho).
Defined.

(** C1 fails as stated: the packaging script of [demo.taskFailing] exits
    non-zero, the process ends with status 1, and the temporary build
    directory allocated for the invocation still exists. *)
Lemma Pack_failing_script_keeps_temporary_directory :
  let tmp := "/tmp/hover-build-demo-linux-bad0" in
  let o := packaging.Pack demo.env demo.taskFailing "1.2.3" demo.w0 in
  result_or EmptyString
    (packaging.getTemporaryBuildDirectory demo.env "demo" "linux-bad" demo.w0) = tmp
  ∧ trace (world_of o) !! 5%nat = Some (EvBash tmp "false")
  ∧ (∀ f, (bash demo.env tmp "false" f).2 = false)
  ∧ exit_code o = Some 1
  ∧ path_exists (fs (world_of o)) tmp.
Proof.
  split_and!.
  - vm_compute. reflexivity.
  - vm_compute. reflexivity.
  - reflexivity.
  - vm_compute. reflexivity.
  - unfold path_exists. vm_compute. eauto.
Qed.

Lemma Pack_output_directory_witness :
  let out := "/project/go/build/outputs/linux-bad" in
  let o := packaging.Pack demo.env demo.taskFailing "1.2.3" demo.w_prior in
  path_exists (fs demo.w_prior) (out +:+ "/my_app-0.9.0.bad")
  ∧ exit_code o = Some 1
  ∧ absent (fs (world_of o)) out.
Proof.
  intros out o.
  set (tmp := "/tmp/hover-build-demo-linux-bad0").
  set (g := packaging.getTemporaryBuildDirectory demo.env "demo" "linux-bad" demo.w_prior).
  assert (g = Returned tmp (world_of g)) as Hg.
  { rewrite (is_Returned_eq EmptyString g) at 1 by (vm_compute; reflexivity).
    by assert (result_or EmptyString g = tmp) as -> by (vm_compute; reflexivity). }
  set (s := packaging.Pack_stage demo.env demo.taskFailing "1.2.3" "demo" tmp (world_of g)).
  assert (s = Returned "false" (world_of s)) as Hs.
  { rewrite (is_Returned_eq EmptyString s) at 1 by (vm_compute; reflexivity).
    by assert (result_or EmptyString s = "false") as -> by (vm_compute; reflexivity). }
  destruct (Pack_output_directory demo.env demo.taskFailing "1.2.3" demo.w_prior
              demo.w_prior (world_of g) (world_of s) tmp "false" eq_refl Hg Hs)
    as [Habsent Hfail].
  destruct (Hfail eq_refl) as (w3 & Hexit & _ & Hout).
  split_and!.
  - unfold path_exists. vm_compute. eauto.
  - subst o. by rewrite Hexit.
  - subst o. rewrite Hexit. apply Hout, Habsent.
Defined.

(** * Further properties of the file *)

(** ** Events and panics of composite calls *)

#[local] Instance emits_preorder Q : PreOrder (emits Q).
Proof.
  split.
  - intros w. exists []. by rewrite app_nil_r.
  - intros w1 w2 w3 (l1 & H1 & Hl1) (l2 & H2 & Hl2). exists (l1 ++ l2).
    rewrite H2, H1, <- app_assoc. split; [done|]. by apply Forall_app.
Qed.

Lemma emits_emit Q e w : Q e → emits Q w (emit e w).
Proof. intros HQ. exists [e]. split; [done|]. by constructor. Qed.

Lemma emits_trace_eq Q w w' : trace w' = trace w → emits Q w w'.
Proof. intros H. exists []. by rewrite app_nil_r. Qed.

Lemma emits_weaken (Q Q' : event → Prop) w w' :
  (∀ e, Q e → Q' e) → emits Q w w' → emits Q' w w'.
Proof.
  intros HQ (l & Hl & HF). exists l. split; [done|]. by eapply Forall_impl.
Qed.

Section emits_calls.
Context (Q : event → Prop).

Lemma emits_log_Errorf msg : Q (EvLog LError msg) → preserves (emits Q) (log_Errorf msg).
Proof. intros HQ w. by apply emits_emit. Qed.
Lemma emits_log_Warnf msg : Q (EvLog LWarn msg) → preserves (emits Q) (log_Warnf msg).
Proof. intros HQ w. by apply emits_emit. Qed.
Lemma emits_log_Infof msg : Q (EvLog LInfo msg) → preserves (emits Q) (log_Infof msg).
Proof. intros HQ w. by apply emits_emit. Qed.
Lemma emits_log_Printf msg : Q (EvLog LPrint msg) → preserves (emits Q) (log_Printf msg).
Proof. intros HQ w. by apply emits_emit. Qed.

Lemma emits_Stat E path : preserves (emits Q) (os.Stat E path).
Proof. intros w. by apply emits_trace_eq. Qed.

Lemma emits_MkdirAll E path perm :
  Q (EvSys (SysMkdirAll path)) → preserves (emits Q) (os.MkdirAll E path perm).
Proof.
  intros HQ w. unfold os.MkdirAll. cbv zeta.
  destruct (os_fault E _ _); [by apply emits_emit|].
  destruct (os.mkdirAll E _ _ _ _) as [f err]. exists [EvSys (SysMkdirAll path)].
  split; [done|]. by constructor.
Qed.

Lemma emits_RemoveAll E path :
  Q (EvSys (SysRemoveAll path)) → preserves (emits Q) (os.RemoveAll E path).
Proof.
  intros HQ w. unfold os.RemoveAll. cbv zeta.
  destruct (os_fault E _ _); [by apply emits_emit|].
  exists [EvSys (SysRemoveAll path)]. split; [done|]. by constructor.
Qed.

Lemma emits_Chmod E path mode :
  Q (EvSys (SysChmod path)) → preserves (emits Q) (os.Chmod E path mode).
Proof.
  intros HQ w. unfold os.Chmod. cbv zeta.
  destruct (os_fault E _ _); [by apply emits_emit|].
  simpl. destruct (fs w !! path); [|by apply emits_emit].
  exists [EvSys (SysChmod path)]. split; [done|]. by constructor.
Qed.

Lemma emits_TempDir E dir pattern :
  Q (EvSys (SysTempDir pattern)) → preserves (emits Q) (os.TempDir E dir pattern).
Proof.
  intros HQ w. destruct (TempDir_world E dir pattern w) as (_ & _ & Htr).
  exists [EvSys (SysTempDir pattern)]. split; [done|]. by constructor.
Qed.

Lemma emits_exec_Run E dir command :
  Q (EvBash dir command) → preserves (emits Q) (packaging.exec_Run E dir command).
Proof.
  intros HQ w. unfold packaging.exec_Run. destruct (bash E _ _ _) as [f ok].
  exists [EvBash dir command]. split; [done|]. by constructor.
Qed.

Lemma emits_copy_Copy E src dst :
  Q (EvCopy src dst) → preserves (emits Q) (packaging.copy_Copy_ E src dst).
Proof.
  intros HQ w. unfold packaging.copy_Copy_. destruct (copy_Copy E _ _ _) as [f err].
  exists [EvCopy src dst]. split; [done|]. by constructor.
Qed.

Lemma emits_CopyTemplateDir E src dst data :
  Q (EvCopyTemplateDir src dst) →
  preserves (emits Q) (packaging.CopyTemplateDir E src dst data).
Proof.
  intros HQ w. unfold packaging.CopyTemplateDir.
  destruct (fileutils_CopyTemplateDir E _ _ _ _) as [f ok].
  exists [EvCopyTemplateDir src dst]. split; [by destruct ok|]. by constructor.
Qed.

Lemma emits_CopyAsset E src dst :
  Q (EvCopyAsset src dst) → preserves (emits Q) (packaging.CopyAsset E src dst).
Proof.
  intros HQ w. unfold packaging.CopyAsset.
  destruct (fileutils_CopyAsset E _ _ _) as [f ok].
  exists [EvCopyAsset src dst]. split; [by destruct ok|]. by constructor.
Qed.

Lemma emits_generateBuildFiles g packageName path :
  Q (EvGenerateBuildFiles packageName path) →
  preserves (emits Q) (packaging.call_generateBuildFiles g packageName path).
Proof.
  intros HQ w. unfold packaging.call_generateBuildFiles.
  destruct (g _ _ _) as [f ok].
  exists [EvGenerateBuildFiles packageName path]. split; [by destruct ok|]. by constructor.
Qed.

Lemma emits_executeStringTemplate E t data :
  (∀ msg, Q (EvLog LError msg)) →
  preserves (emits Q) (packaging.executeStringTemplate E t data).
Proof.
  intros HQ w. rewrite executeStringTemplate_outcome.
  repeat case_match; simpl; first [by apply emits_emit|by apply emits_trace_eq].
Qed.

Lemma emits_getTemplateData E t projectName buildVersion :
  (∀ msg, Q (EvLog LError msg)) →
  preserves (emits Q) (packaging.getTemplateData E t projectName buildVersion).
Proof.
  intros HQ w. destruct (once w) eqn:Hw.
  - rewrite getTemplateData_done by done. reflexivity.
  - destruct (getTemplateData_fresh E t projectName buildVersion w Hw)
      as (_ & _ & (l & Hl & Hlog) & _).
    exists l. split; [done|]. apply Forall_forall. intros e He.
    destruct (Hlog e He) as [msg ->]. apply HQ.
Qed.

End emits_calls.

(** The call at hand emits one event that satisfies the predicate. *)
Ltac emits_prim :=
  first [ apply emits_log_Errorf | apply emits_log_Warnf | apply emits_log_Infof
        | apply emits_log_Printf | apply emits_Stat | apply emits_MkdirAll
        | apply emits_RemoveAll | apply emits_Chmod | apply emits_TempDir
        | apply emits_exec_Run | apply emits_copy_Copy | apply emits_CopyTemplateDir
        | apply emits_CopyAsset | apply emits_generateBuildFiles
        | apply emits_executeStringTemplate | apply emits_getTemplateData ];
  try (intros; simpl; eauto; done).

Create HintDb emits discriminated.

Ltac emits_step := first [solve [emits_prim] | preserves_step emits].

Section never_panics.

Lemma never_panics_ret {A} (a : A) : never_panics (mret a).
Proof. by intros w v w'. Qed.

Lemma never_panics_exit {A} code : never_panics (os_Exit (A:=A) code).
Proof. by intros w v w'. Qed.

Lemma never_panics_modify g : never_panics (modify g).
Proof. by intros w v w'. Qed.

Lemma never_panics_bind {A B} (m : M A) (f : A → M B) :
  never_panics m → (∀ a, never_panics (f a)) → never_panics (m ≫= f).
Proof.
  intros Hm Hf w v w'. rewrite bind_unfold.
  destruct (m w) as [a w1| |v1 w1] eqn:Hmw; [apply Hf|done|by destruct (Hm w v1 w1)].
Qed.

Lemma never_panics_range {A} (f : A → M unit) (xs : list A) :
  (∀ x, never_panics (f x)) → never_panics (range f xs).
Proof.
  intros Hf. induction xs as [|x xs IH]; [apply never_panics_ret|].
  simpl. apply never_panics_bind; [apply Hf|by intros _].
Qed.

Lemma never_panics_on_error err (h : error → M unit) :
  (∀ e, never_panics (h e)) → never_panics (packaging.on_error err h).
Proof. intros H. destruct err; [apply H|apply never_panics_ret]. Qed.

Lemma never_panics_Stat E path : never_panics (os.Stat E path).
Proof. by intros w v w'. Qed.

Lemma never_panics_MkdirAll E path perm : never_panics (os.MkdirAll E path perm).
Proof. intros w v w'. unfold os.MkdirAll. cbv zeta. by repeat case_match. Qed.

Lemma never_panics_CopyAsset E src dst : never_panics (packaging.CopyAsset E src dst).
Proof. intros w v w'. unfold packaging.CopyAsset. by repeat case_match. Qed.

(** [strings.Split(s, c)[0]] never panics. *)
Lemma never_panics_Split_0 s c : never_panics (index (strings.Split s (String c EmptyString)) 0).
Proof. intros w v w'. unfold index. by rewrite Split_head. Qed.

End never_panics.

Ltac never_panics_step :=
  lazymatch goal with
  | |- never_panics (mbind _ _) => apply never_panics_bind; [|intros ?]
  | |- never_panics (mret _) => apply never_panics_ret
  | |- never_panics (os_Exit _) => apply never_panics_exit
  | |- never_panics (log_Errorf _) => apply never_panics_modify
  | |- never_panics (log_Infof _) => apply never_panics_modify
  | |- never_panics (log_Warnf _) => apply never_panics_modify
  | |- never_panics (log_Printf _) => apply never_panics_modify
  | |- never_panics (packaging.on_error _ _) => apply never_panics_on_error; intros ?
  | |- never_panics (range _ _) => apply never_panics_range; intros ?
  | |- never_panics (os.Stat _ _) => apply never_panics_Stat
  | |- never_panics (os.MkdirAll _ _ _) => apply never_panics_MkdirAll
  | |- never_panics (packaging.CopyAsset _ _ _) => apply never_panics_CopyAsset
  | |- never_panics (index (strings.Split _ _) 0) => apply never_panics_Split_0
  | |- never_panics (if ?b then _ else _) => destruct b
  | |- never_panics (match ?x with _ => _ end) => destruct x
  end.

Lemma never_panics_packagingFormatPath E packagingFormat :
  never_panics (packaging.packagingFormatPath E packagingFormat).
Proof. unfold packaging.packagingFormatPath. repeat never_panics_step. Qed.

Lemma never_panics_init_own E t ignoreAlreadyExists :
  never_panics (packaging.init_own E t ignoreAlreadyExists).
Proof.
  unfold packaging.init_own, packaging.IsInitialized,
    packaging.createPackagingFormatDirectory, packaging.init_templateFile.
  repeat first [never_panics_step | apply never_panics_packagingFormatPath].
Qed.

Lemma never_panics_init E t ignoreAlreadyExists :
  never_panics (packaging.init E t ignoreAlreadyExists).
Proof.
  revert ignoreAlreadyExists.
  induction t as [t IH] using packagingTask_deps_ind; intros ig.
  rewrite init_unfold. apply never_panics_bind; [|intros _; apply never_panics_init_own].
  induction (dependsOn t) as [|d deps IHdeps]; [apply never_panics_ret|].
  simpl. apply never_panics_bind.
  - apply IH. by left.
  - intros _. apply IHdeps. intros dep Hdep. apply IH. by right.
Qed.

Lemma emits_init_own E t ignoreAlreadyExists :
  preserves (emits init_event) (packaging.init_own E t ignoreAlreadyExists).
Proof.
  unfold packaging.init_own, packaging.IsInitialized,
    packaging.createPackagingFormatDirectory, packaging.init_templateFile,
    packaging.packagingFormatPath.
  repeat emits_step.
Qed.

Lemma emits_init E t ignoreAlreadyExists :
  preserves (emits init_event) (packaging.init E t ignoreAlreadyExists).
Proof.
  revert ignoreAlreadyExists.
  induction t as [t IH] using packagingTask_deps_ind; intros ig.
  rewrite init_unfold. apply preserves_bind; [apply _| |intros _; apply emits_init_own].
  apply preserves_range; [apply _|]. intros dep Hdep. by apply IH.
Qed.

(** ** Initialisation, further *)

(** The events of a call that goes on after [m] begin with those of
    [m]. *)
Lemma trace_bind_after {A B} (m : M A) (k : A → M B) w :
  (∀ a, preserves (emits (λ _, True)) (k a)) →
  ∃ l, trace (world_of ((m ≫= k) w)) = trace (world_of (m w)) ++ l.
Proof.
  intros Hk. rewrite bind_unfold.
  destruct (m w) as [a w1| |]; try (exists []; by rewrite app_nil_r).
  destruct (Hk a w1) as (l & Hl & _). by exists l.
Qed.

Lemma MkdirAll_trace E path perm w :
  trace (world_of (os.MkdirAll E path perm w)) = trace w ++ [EvSys (SysMkdirAll path)].
Proof.
  unfold os.MkdirAll. cbv zeta. destruct (os_fault E _ _); [done|].
  by destruct (os.mkdirAll E _ path perm _).
Qed.

Lemma not_initialized_IsNotExist E t dir f :
  configurationDirectory E t = (dir, None) → ¬ initialized E t f →
  os.IsNotExist (os.stat E dir f).2 = true.
Proof.
  intros Hdir Hnot. destruct (os.IsNotExist _) eqn:Hne; [done|].
  destruct Hnot. by exists dir.
Qed.

(** For a task that is not initialised the first thing [init_own] does to
    the outside, whatever [ignoreAlreadyExists], is to create the
    configuration directory. *)
Lemma init_own_creates E t ignoreAlreadyExists w dir :
  configurationDirectory E t = (dir, None) → ¬ initialized E t (fs w) →
  ∃ l, trace (world_of (packaging.init_own E t ignoreAlreadyExists w))
       = trace w ++ EvSys (SysMkdirAll dir) :: l.
Proof.
  intros Hdir Hnot.
  pose proof (not_initialized_IsNotExist E t dir (fs w) Hdir Hnot) as Hne.
  unfold packaging.init_own.
  rewrite bind_unfold, IsInitialized_outcome, Hdir, Hne. cbn [negb].
  lazymatch goal with
  | |- context [world_of ((?m ≫= ?k) w)] =>
      destruct (trace_bind_after m k w) as [l2 ->]
  end.
  { intros _. unfold packaging.init_templateFile, packaging.packagingFormatPath.
    repeat emits_step. }
  unfold packaging.createPackagingFormatDirectory, configurationDirectory in *.
  rewrite bind_unfold, packagingFormatPath_outcome, Hdir.
  rewrite bind_unfold. unfold os.Stat.
  destruct (os.stat E dir (fs w)) as [info err]. simpl in Hne. simpl. rewrite Hne. simpl.
  rewrite bind_unfold. simpl.
  rewrite bind_unfold, packagingFormatPath_outcome, Hdir.
  lazymatch goal with
  | |- context [world_of ((?m ≫= ?k) w)] =>
      destruct (trace_bind_after m k w) as [l1 ->]
  end.
  { intros err'. unfold packaging.packagingFormatPath. repeat emits_step. }
  rewrite MkdirAll_trace. exists (l1 ++ l2). by rewrite <- !app_assoc.
Qed.

(** C2, as the code has it: [init] first runs [init] with the failure
    suppressed on every dependency, and when it returns, the task and every
    task it depends on are initialised; a dependency that is already
    initialised (with its own dependencies) returns without a change.
    Then, for the task itself: if it is initialised, which it is as soon as
    a file or a directory exists at its configuration path, the suppressed
    call returns without a change and the unsuppressed one ends the process
    with the already-initialised error; if it is not, the first thing done
    to the outside is the creation of the configuration directory,
    suppressed or not, and the directory exists once the call returns.  So after an [Init] that returned,
    [IsInitialized] answers true and a second [Init] ends with the
    already-initialised error.  The copying of assets is assumed to remove
    nothing. *)
Theorem Init_spec (E : Env) (t : packagingTask) (w : world) :
  asset_copy_keeps E →
  (∀ ignoreAlreadyExists,
     packaging.init E t ignoreAlreadyExists w =
     (range (λ dep : packagingTask * string, packaging.init E dep.1 true) (dependsOn t) ;;
      packaging.init_own E t ignoreAlreadyExists) w)
  ∧ (∀ ignoreAlreadyExists w',
       packaging.init E t ignoreAlreadyExists w = Returned tt w' →
       all_initialized E t (fs w')
       ∧ ∀ dep, dep ∈ dependsOn t → all_initialized E dep.1 (fs w'))
  ∧ (∀ dep, dep ∈ dependsOn t → all_initialized E dep.1 (fs w) →
       packaging.init E dep.1 true w = Returned tt w)
  ∧ (∀ w1 dir, configurationDirectory E t = (dir, None) →
       (initialized E t (fs w1) ↔ os_stat_refused E dir = true ∨ path_exists (fs w1) dir))
  ∧ (∀ ignoreAlreadyExists w1, initialized E t (fs w1) →
       packaging.init_own E t ignoreAlreadyExists w1 =
       if ignoreAlreadyExists then Returned tt w1
       else Exited 1 (emit (AlreadyInitializedError t) w1))
  ∧ (∀ ignoreAlreadyExists w1 dir,
       configurationDirectory E t = (dir, None) → ¬ initialized E t (fs w1) →
       (∃ l, trace (world_of (packaging.init_own E t ignoreAlreadyExists w1))
             = trace w1 ++ EvSys (SysMkdirAll dir) :: l)
       ∧ ∀ w', packaging.init_own E t ignoreAlreadyExists w1 = Returned tt w' →
               ¬ path_exists (fs w1) dir ∧ path_exists (fs w') dir)
  ∧ (∀ w', packaging.Init E t w = Returned tt w' →
       packaging.IsInitialized E t w' = Returned true w'
       ∧ packaging.Init E t w' = Exited 1 (emit (AlreadyInitializedError t) w')).
Proof.
  intros Hkeep. split_and!.
  - intros ig. by rewrite init_unfold.
  - intros ig w' Hret.
    pose proof (init_returned E Hkeep t ig w w' Hret) as Hall.
    split; [done|]. by apply all_initialized_unfold in Hall as [_ Hdeps].
  - intros dep _ Hdep. by rewrite init_initialized.
  - intros w1 dir Hdir. rewrite <- stat_not_IsNotExist. split.
    + intros (dir' & Hdir' & Hp). rewrite Hdir in Hdir'. by injection Hdir' as <-.
    + intros Hp. by exists dir.
  - intros ig w1 Ht. by apply init_own_initialized.
  - intros ig w1 dir Hdir Hnot. split; [by apply init_own_creates|].
    intros w' Hret.
    pose proof (not_initialized_IsNotExist E t dir (fs w1) Hdir Hnot) as Hne.
    apply stat_IsNotExist in Hne as [Href Hnone]. split.
    + unfold path_exists. rewrite Hnone. by intros [? ?].
    + apply (init_own_returned E Hkeep) in Hret as (dir' & Hdir' & Hp).
      rewrite Hdir in Hdir'. injection Hdir' as <-.
      apply stat_not_IsNotExist in Hp as [Hp|Hp]; [congruence|done].
  - intros w' Hret. unfold packaging.Init in *.
    pose proof (init_returned E Hkeep t false w w' Hret) as Hall.
    split.
    + apply all_initialized_unfold in Hall as [(dir & Hdir & Hp) _].
      by rewrite IsInitialized_outcome, Hdir, Hp.
    + by rewrite init_initialized.
Qed.

Lemma Init_spec_witness :
  let o := packaging.Init demo.env demo.taskB demo.w0 in
  is_Returned o = true
  ∧ ¬ path_exists (fs demo.w0) "/project/go/packaging/linux-c"
  ∧ all_initialized demo.env demo.taskC (fs (world_of o))
  ∧ path_exists (fs (world_of o)) "/project/go/packaging/linux-c"
  ∧ packaging.IsInitialized demo.env demo.taskB (world_of o) = Returned true (world_of o)
  ∧ packaging.Init demo.env demo.taskB (world_of o)
    = Exited 1 (emit (AlreadyInitializedError demo.taskB) (world_of o)).
Proof.
  intros o.
  assert (is_Returned o = true) as Hret by (vm_compute; reflexivity).
  assert (o = Returned tt (world_of o)) as Ho.
  { rewrite (is_Returned_eq tt o Hret) at 1. by destruct (result_or tt o). }
  pose proof (Init_spec demo.env demo.taskB demo.w0 asset_copy_keeps_demo)
    as (_ & Hall & _ & _ & _ & _ & Hagain).
  destruct (Hall false (world_of o) Ho) as [_ Hdeps].
  pose proof (Hdeps (demo.taskC, "c") ltac:(by left)) as HC.
  split_and!; [done| |exact HC| |exact (proj1 (Hagain _ Ho))|exact (proj2 (Hagain _ Ho))].
  - unfold path_exists. vm_compute. by intros [? ?].
  - destruct HC as [(dir & [= <-] & Hp) _].
    by apply stat_not_IsNotExist in Hp as [Hp|Hp].
Defined.


(** C2 fails as stated.  With a regular file at the configuration path of
    [demo.taskC] there is no configuration directory, yet [Init] does not
    create it: it ends the process with the already-initialised error and
    leaves the file system as it is.  The same happens when nothing exists
    at the path and the system refuses to look at it. *)
Lemma Init_without_directory :
  let dir := "/project/go/packaging/linux-c" in
  configurationDirectory demo.env demo.taskC = (dir, None)
  ∧ IsDir <$> fs demo.w_file !! dir = Some false
  ∧ packaging.Init demo.env demo.taskC demo.w_file
    = Exited 1 (emit (AlreadyInitializedError demo.taskC) demo.w_file)
  ∧ configurationDirectory demo.env_refusing demo.taskC = (dir, None)
  ∧ fs demo.w0 !! dir = None
  ∧ packaging.Init demo.env_refusing demo.taskC demo.w0
    = Exited 1 (emit (AlreadyInitializedError demo.taskC) demo.w0).
Proof. split_and!; vm_compute; reflexivity. Qed.

(** X1: [Init] never panics, whatever the format names and the state of the
    file system, and all it does to the outside is to log, to create
    directories and to copy assets: it runs no command, removes nothing,
    changes no permission and copies no build output. *)
Theorem Init_effects (E : Env) (t : packagingTask) (w : world) :
  (∀ v w', packaging.Init E t w ≠ Panicked v w')
  ∧ emits init_event w (world_of (packaging.Init E t w)).
Proof.
  split.
  - exact (never_panics_init E t false w).
  - exact (emits_init E t false w).
Qed.

(** X2: [Init] removes nothing: whatever exists before the call exists
    after it, however the call ends (the copying of assets assumed to
    remove nothing). *)
Theorem Init_keeps_paths (E : Env) (t : packagingTask) (w : world) (path : string) :
  asset_copy_keeps E →
  path_exists (fs w) path →
  path_exists (fs (world_of (packaging.Init E t w))) path.
Proof. intros Hkeep. exact (keeps_init E Hkeep t false w path). Qed.

Lemma Init_keeps_paths_witness :
  path_exists (fs (world_of (packaging.Init demo.env demo.taskB demo.w0))) "/tmp".
Proof.
  apply (Init_keeps_paths demo.env demo.taskB demo.w0 "/tmp" asset_copy_keeps_demo).
  unfold path_exists. vm_compute. eauto.
Defined.






(** X4: the suppressed initialisation can be repeated: once [init] with
    [ignoreAlreadyExists] has returned, running it again returns at once and
    leaves the world, trace included, as it is (asset copying assumed to
    remove nothing). *)
Theorem init_suppressed_again (E : Env) (t : packagingTask)
    (ignoreAlreadyExists : bool) (w w' : world) :
  asset_copy_keeps E →
  packaging.init E t ignoreAlreadyExists w = Returned tt w' →
  packaging.init E t true w' = Returned tt w'.
Proof.
  intros Hkeep Hret.
  rewrite (init_initialized E t true w'); [done|]. by eapply init_returned.
Qed.

Lemma init_suppressed_again_witness :
  let o := packaging.init demo.env demo.taskB true demo.w0 in
  packaging.init demo.env demo.taskB true (world_of o) = Returned tt (world_of o).
Proof.
  intros o.
  assert (o = Returned tt (world_of o)) as Ho.
  { rewrite (is_Returned_eq tt o) at 1 by (vm_compute; reflexivity).
    by destruct (result_or tt o). }
  exact (init_suppressed_again demo.env demo.taskB true demo.w0 (world_of o)
           asset_copy_keeps_demo Ho).
Defined.

Lemma mkdirAll_dir E fuel path perm f f' :
  os.mkdirAll E fuel path perm f = (f', None) →
  ∃ info, f' !! path = Some info ∧ IsDir info = true.
Proof.
  destruct fuel as [|fuel]; [rewrite mkdirAll_O|rewrite mkdirAll_S].
  - destruct (f !! path) as [info|] eqn:Hp; [|done].
    destruct (IsDir info) eqn:Hd; [|done]. intros [= <-]. eauto.
  - destruct (f !! path) as [info|] eqn:Hp.
    { destruct (IsDir info) eqn:Hd; [|done]. intros [= <-]. eauto. }
    destruct (match os.parentOf path with
              | Some parent => os.mkdirAll E fuel parent perm f
              | None => (f, None)
              end) as [f1 [e1|]]; [done|].
    pose proof (mkdir_spec E path perm f1) as Hm.
    destruct (os.mkdir E path perm f1) as [f2 [e|]].
    + subst f2. destruct (f1 !! path) as [info|] eqn:Hp1; [|done].
      destruct (IsDir info) eqn:Hd; [|done]. intros [= <-]. eauto.
    + destruct Hm as [_ ->]. intros [= <-]. rewrite lookup_insert_eq. eauto.
Qed.

(** X5: [createPackagingFormatDirectory] never overwrites: when a file or
    a directory already exists at the configuration path it logs that and
    ends the process with status 1, the file system untouched; and when it
    returns, the path did not exist before, is a directory now, and
    everything that existed still exists. *)
Theorem createPackagingFormatDirectory_spec (E : Env) (packagingFormat dir : string)
    (w : world) :
  filepath_Abs E (filepath_Join E [packaging.packagingPath E; packagingFormat])
    = (dir, None) →
  (path_exists (fs w) dir →
     packaging.createPackagingFormatDirectory E packagingFormat w =
     Exited 1 (emit (EvLog LError
       ("A file or directory named `" +:+ packagingFormat
        +:+ "` already exists. Cannot continue packaging init for "
        +:+ packagingFormat +:+ ".")) w))
  ∧ (∀ w', packaging.createPackagingFormatDirectory E packagingFormat w = Returned tt w' →
       fs w !! dir = None
       ∧ (∃ info, fs w' !! dir = Some info ∧ IsDir info = true)
       ∧ fs w ⊆ fs w').
Proof.
  intros Habs. unfold packaging.createPackagingFormatDirectory.
  rewrite bind_unfold, packagingFormatPath_outcome, Habs.
  rewrite bind_unfold. unfold os.Stat. split.
  - intros Hex. pose proof (stat_exists E dir (fs w) Hex) as Hne.
    destruct (os.stat E dir (fs w)) as [info err]. simpl in *. by rewrite Hne.
  - intros w'. pose proof (stat_IsNotExist E dir (fs w)) as Hst.
    destruct (os.stat E dir (fs w)) as [info err]. simpl in *.
    destruct (os.IsNotExist err); simpl; [|done].
    assert (fs w !! dir = None) as Hdir by by apply Hst.
    rewrite bind_unfold. simpl.
    rewrite bind_unfold, packagingFormatPath_outcome, Habs.
    rewrite bind_unfold. unfold os.MkdirAll. cbv zeta.
    destruct (os_fault E _ _).
    { simpl. by rewrite bind_unfold, packagingFormatPath_outcome, Habs. }
    pose proof (mkdirAll_subseteq E (S (strings.len dir)) dir 509
                  (fs (emit (EvSys (SysMkdirAll dir)) w))) as Hsub.
    destruct (os.mkdirAll E _ dir 509 _) as [f [e|]] eqn:Hmk.
    { simpl. by rewrite bind_unfold, packagingFormatPath_outcome, Habs. }
    simpl. intros [= <-]. split_and!; [done| |done].
    by eapply mkdirAll_dir.
Qed.

Lemma createPackagingFormatDirectory_spec_witness :
  let dir := "/project/go/packaging/linux-c" in
  let o := packaging.createPackagingFormatDirectory demo.env "linux-c" demo.w0 in
  is_Returned o = true
  ∧ (∃ info, fs (world_of o) !! dir = Some info ∧ IsDir info = true)
  ∧ exit_code (packaging.createPackagingFormatDirectory demo.env "linux-c" (world_of o))
    = Some 1.
Proof.
  intros dir o.
  assert (is_Returned o = true) as Hret by (vm_compute; reflexivity).
  assert (o = Returned tt (world_of o)) as Ho.
  { rewrite (is_Returned_eq tt o Hret) at 1. by destruct (result_or tt o). }
  destruct (proj2 (createPackagingFormatDirectory_spec demo.env "linux-c" dir demo.w0
                     eq_refl) (world_of o) Ho) as (_ & Hdir & _).
  split_and!; [done|done|].
  rewrite (proj1 (createPackagingFormatDirectory_spec demo.env "linux-c" dir (world_of o)
                    eq_refl)); [done|].
  destruct Hdir as (info & Hinfo & _). by exists info.
Defined.

(** X6: [IsInitialized] and [AssertInitialized] only look: however they
    end, the file system, the random source, the guard and the template
    context are as before; they never panic; they log nothing unless they
    end the process, and then the status is 1 and one error line was
    logged. *)
Theorem AssertInitialized_read_only (E : Env) (t : packagingTask) (w : world) :
  match packaging.AssertInitialized E t w with
  | Returned _ w' => w' = w
  | Exited code w' => code = 1 ∧ ∃ msg, w' = emit (EvLog LError msg) w
  | Panicked _ _ => False
  end
  ∧ match packaging.IsInitialized E t w with
    | Returned _ w' => w' = w
    | Exited code w' => code = 1 ∧ ∃ msg, w' = emit (EvLog LError msg) w
    | Panicked _ _ => False
    end.
Proof.
  split.
  - unfold packaging.AssertInitialized. destruct (skipAssertInitialized t); [done|].
    rewrite bind_unfold, IsInitialized_outcome.
    destruct (configurationDirectory E t) as [dir [e|]]; [by eauto|].
    destruct (os.IsNotExist _); simpl; by eauto.
  - rewrite IsInitialized_outcome.
    destruct (configurationDirectory E t) as [dir [e|]]; by eauto.
Qed.

(** ** The temporary directory, further *)

Lemma tempDirLoop_spec E tries dir prefix suffix w :
  match os.tempDirLoop E tries dir prefix suffix w with
  | Returned (path, None) w1 =>
      (∃ n, path = filepath_Join E [dir; prefix +:+ nextRandom E n +:+ suffix])
      ∧ fs w !! path = None ∧ fs w1 = <[path := FileInfo true 448]> (fs w)
      ∧ trace w1 = trace w
  | Returned (_, Some _) w1 => fs w1 = fs w ∧ trace w1 = trace w
  | _ => False
  end.
Proof.
  revert w. induction tries as [|tries IH]; intros w; [done|].
  rewrite tempDirLoop_S. cbv zeta.
  pose proof (mkdir_spec E
                (filepath_Join E [dir; prefix +:+ nextRandom E (rng w) +:+ suffix])
                448 (fs (set_rng (S (rng w)) w))) as Hm.
  destruct (os.mkdir E _ 448 _) as [f [e|]].
  - destruct (os.IsExist (Some e)); [|by subst f].
    specialize (IH (set_rng (S (rng w)) w)).
    by destruct (os.tempDirLoop E tries dir prefix suffix _) as [[path [e'|]] w1| |].
  - destruct Hm as [Hnew ->]. simpl. split_and!; [by eexists|done..].
Qed.

Lemma TempDir_spec E pattern w :
  match os.TempDir E EmptyString pattern w with
  | Returned (path, None) w1 =>
      (∃ n, path = filepath_Join E
                     [os_TempDir E;
                      match strings.LastIndexByte pattern "*" with
                      | Some pos =>
                          strings.take pos pattern +:+ nextRandom E n
                          +:+ strings.drop (S pos) pattern
                      | None => pattern +:+ nextRandom E n
                      end])
      ∧ fs w !! path = None ∧ fs w1 = <[path := FileInfo true 448]> (fs w)
      ∧ trace w1 = trace w ++ [EvSys (SysTempDir pattern)]
  | Returned (_, Some _) w1 =>
      fs w1 = fs w ∧ trace w1 = trace w ++ [EvSys (SysTempDir pattern)]
  | _ => False
  end.
Proof.
  unfold os.TempDir. cbv zeta. rewrite decide_True by done.
  unfold os.prefixAndSuffix.
  destruct (existsb os.IsPathSeparator (list_ascii_of_string pattern)); [done|].
  destruct (strings.LastIndexByte pattern "*") as [pos|].
  - exact (tempDirLoop_spec E (Z.to_nat 10000) (os_TempDir E) _ _
             (emit (EvSys (SysTempDir pattern)) w)).
  - pose proof (tempDirLoop_spec E (Z.to_nat 10000) (os_TempDir E) pattern EmptyString
                  (emit (EvSys (SysTempDir pattern)) w)) as Hloop.
    destruct (os.tempDirLoop E _ _ _ _ _) as [[path [e|]] w1| |]; [done| |done..].
    destruct Hloop as ((n & Hn) & Hloop). rewrite append_nil_r in Hn.
    split; [by exists n|done].
Qed.

Lemma getTemporaryBuildDirectory_cases (E : Env) (projectName packagingFormat : string)
    (w : world) :
  match packaging.getTemporaryBuildDirectory E projectName packagingFormat w with
  | Returned tmpPath w1 =>
      (∃ n, tmpPath = temporaryName E projectName packagingFormat n)
      ∧ fs w !! tmpPath = None
      ∧ fs w1 = <[tmpPath := FileInfo true 448]> (fs w)
      ∧ trace w1 = trace w ++ [EvSys (SysTempDir (temporaryPrefix projectName packagingFormat))]
  | Exited code w1 =>
      code = 1 ∧ fs w1 = fs w
      ∧ ∃ msg, trace w1 = trace w ++
                 [EvSys (SysTempDir (temporaryPrefix projectName packagingFormat));
                  EvLog LError msg]
  | Panicked _ _ => False
  end.
Proof.
  unfold packaging.getTemporaryBuildDirectory, temporaryName.
  rewrite bind_unfold. cbv zeta.
  fold (temporaryPrefix projectName packagingFormat).
  pose proof (TempDir_spec E (temporaryPrefix projectName packagingFormat) w) as Hloop.
  destruct (os.TempDir E _ _ _) as [[path [e|]] w1| |]; [| |done..].
  - destruct Hloop as [Hfs Htr]. simpl in *. rewrite Htr. split_and!; [done|done|].
    eexists. by rewrite <- app_assoc.
  - destruct Hloop as (Hname & Hnew & Hfs & Htr). by simpl in *.
Qed.

(** X7: [getTemporaryBuildDirectory] either returns a directory that did
    not exist, created with mode 0700 under the system's temporary directory
    and named after the pattern hover-build-<project>-<format>, with a
    random string at its end or, when the pattern has a [*], in place of
    the last one, nothing else in the file system changed and nothing
    logged; or it logs the error and ends the process with status 1, the
    file system unchanged.  It never panics. *)
Theorem getTemporaryBuildDirectory_spec (E : Env) (projectName packagingFormat : string)
    (w : world) :
  match packaging.getTemporaryBuildDirectory E projectName packagingFormat w with
  | Returned tmpPath w1 =>
      (∃ n, tmpPath = temporaryName E projectName packagingFormat n)
      ∧ ¬ path_exists (fs w) tmpPath
      ∧ fs w1 !! tmpPath = Some (FileInfo true 448)
      ∧ (∀ path, path ≠ tmpPath → fs w1 !! path = fs w !! path)
      ∧ trace w1 = trace w ++ [EvSys (SysTempDir (temporaryPrefix projectName packagingFormat))]
  | Exited code w1 =>
      code = 1 ∧ fs w1 = fs w
      ∧ ∃ msg, trace w1 = trace w ++
                 [EvSys (SysTempDir (temporaryPrefix projectName packagingFormat));
                  EvLog LError msg]
  | Panicked _ _ => False
  end.
Proof.
  pose proof (getTemporaryBuildDirectory_cases E projectName packagingFormat w) as H.
  destruct (packaging.getTemporaryBuildDirectory E projectName packagingFormat w)
    as [tmpPath w1|code w1|]; [|done..].
  destruct H as (Hname & Hnew & Hfs & Htr). split_and!; [done| | | |done].
  - unfold path_exists. rewrite Hnew. by intros [??].
  - by rewrite Hfs, lookup_insert_eq.
  - intros path Hne. by rewrite Hfs, lookup_insert_ne.
Qed.

Lemma getTemporaryBuildDirectory_spec_witness :
  let o := packaging.getTemporaryBuildDirectory demo.env "demo" "linux-a*b" demo.w0 in
  result_or EmptyString o = "/tmp/hover-build-demo-linux-a0b"
  ∧ (∃ n, result_or EmptyString o = temporaryName demo.env "demo" "linux-a*b" n)
  ∧ fs (world_of o) !! result_or EmptyString o = Some (FileInfo true 448).
Proof.
  intros o.
  pose proof (getTemporaryBuildDirectory_spec demo.env "demo" "linux-a*b" demo.w0) as H.
  fold o in H.
  assert (result_or EmptyString o = "/tmp/hover-build-demo-linux-a0b") as Hres
    by (vm_compute; reflexivity).
  assert (is_Returned o = true) as Hret by (vm_compute; reflexivity).
  clearbody o. destruct o as [tmpPath w1| |]; [|done..].
  destruct H as (Hname & _ & Hdir & _). by split_and!.
Defined.

(** ** Format names, further *)

Lemma first_segment_app c a b :
  no_char c a → first_segment c (a +:+ String c b) = a.
Proof.
  induction a as [|d a IH]; intros Ha.
  - change (EmptyString +:+ String c b) with (String c b). simpl.
    by rewrite decide_True.
  - apply no_char_cons in Ha as [Hd Ha].
    change (String d a +:+ String c b) with (String d (a +:+ String c b)). simpl.
    rewrite decide_False by done. by rewrite IH.
Qed.

(** X8: whenever [Name] returns, the format name is the platform, a
    hyphen, and the returned name, where the platform is what [Init] and
    [Pack] take as [strings.Split(name, "-")[0]] and has no hyphen; the
    world is untouched. *)
Theorem Name_returns_variant (t : packagingTask) (w w' : world) (variant : string) :
  packaging.Name t w = Returned variant w' →
  w' = w
  ∧ ∃ platform,
      strings.Split (packagingFormatName t) "-" !! 0%nat = Some platform
      ∧ no_char "-" platform
      ∧ packagingFormatName t = platform +:+ "-" +:+ variant.
Proof.
  unfold packaging.Name. intros H.
  destruct (first_segment_split "-" (packagingFormatName t)) as [Hwhole|[rest Hcut]].
  - rewrite SplitN_2_whole in H; [done|]. rewrite Hwhole. apply first_segment_no_char.
  - pose proof (first_segment_no_char "-" (packagingFormatName t)) as Hno.
    rewrite Hcut, SplitN_2_cut in H by done. simpl in H. injection H as <- <-.
    split; [done|]. exists (first_segment "-" (packagingFormatName t)).
    split_and!; [apply (Split_head "-")|done|done].
Qed.

Lemma Name_returns_variant_witness :
  ∃ platform,
    strings.Split (packagingFormatName demo.taskA) "-" !! 0%nat = Some platform
    ∧ no_char "-" platform
    ∧ packagingFormatName demo.taskA = platform +:+ "-" +:+ "a".
Proof.
  exact (proj2 (Name_returns_variant demo.taskA demo.w0 demo.w0 "a" eq_refl)).
Defined.

(** ** The template renderer, further *)

Lemma Index_None_cons c s p :
  strings.Index (String c s) p = None →
  strings.HasPrefix (String c s) p = false ∧ strings.Index s p = None.
Proof.
  change (strings.Index (String c s) p) with
    (if strings.HasPrefix (String c s) p then Some 0%nat
     else S <$> strings.Index s p).
  destruct (strings.HasPrefix (String c s) p); [done|].
  by destruct (strings.Index s p).
Qed.

Lemma lex_text s cur :
  strings.Index s "{{" = None →
  template.lex s false false cur = Some [template.ItemText (cur +:+ s)].
Proof.
  revert cur. induction s as [|c s IH]; intros cur Hs.
  - simpl. by rewrite append_nil_r.
  - apply Index_None_cons in Hs as [Hp Hs].
    cbn [template.lex]. rewrite Hp, IH by done.
    rewrite append_assoc. done.
Qed.

Lemma executeStringTemplate_plain (E : Env) (t : string) (data : gmap string string) (w : world) :
  strings.Index t "{{" = None →
  packaging.executeStringTemplate E t data w = Returned t w.
Proof.
  intros Ht. rewrite executeStringTemplate_outcome. unfold template.Parse.
  rewrite lex_text by done. simpl. done.
Qed.

(** X9: a string without an opening delimiter is rendered as itself, for
    every context, and the world is untouched: paths and scripts that use no
    template syntax pass through unchanged. *)
Theorem executeStringTemplate_text (E : Env) (t : string) (data : gmap string string) (w : world) :
  strings.Index t "{{" = None →
  packaging.executeStringTemplate E t data w = Returned t w.
Proof.
  intros Ht. rewrite executeStringTemplate_outcome. unfold template.Parse.
  rewrite lex_text by done. simpl. done.
Qed.

Lemma executeStringTemplate_text_witness :
  packaging.executeStringTemplate demo.env "dpkg-deb --build . out.deb" ∅ demo.w0
  = Returned "dpkg-deb --build . out.deb" demo.w0.
Proof.
  apply (executeStringTemplate_text demo.env "dpkg-deb --build . out.deb" ∅ demo.w0).
  reflexivity.
Defined.

(** *** Templates of text and fields, as they are written *)

Lemma all_chars_app P a b : all_chars P (a +:+ b) = all_chars P a && all_chars P b.
Proof.
  induction a as [|c a IH]; [done|].
  change (String c a +:+ b) with (String c (a +:+ b)). simpl.
  by rewrite IH, andb_assoc.
Qed.

Lemma all_chars_impl (P Q : ascii → bool) s :
  (∀ c, P c = true → Q c = true) → all_chars P s = true → all_chars Q s = true.
Proof.
  intros HPQ. induction s as [|c s IH]; [done|]. simpl.
  intros [Hc Hs]%andb_true_iff. by rewrite (HPQ c Hc), IH.
Qed.

Lemma prefix_cons a p b s :
  String.prefix (String a p) (String b s)
  = if ascii_dec a b then String.prefix p s else false.
Proof. reflexivity. Qed.

Lemma prefix_nil s : String.prefix EmptyString s = true.
Proof. by destruct s. Qed.

Lemma HasPrefix_delimiter a b rest :
  strings.HasPrefix (String a (String b rest)) (String a (String b EmptyString)) = true.
Proof.
  unfold strings.HasPrefix. rewrite !prefix_cons, prefix_nil.
  destruct (ascii_dec a a); [|done]. by destruct (ascii_dec b b).
Qed.

Lemma HasPrefix_open c s rest :
  strings.HasPrefix (String c (s +:+ "{" +:+ rest)) "{{"
  = strings.HasPrefix (String c (s +:+ "{")) "{{".
Proof.
  unfold strings.HasPrefix. rewrite !prefix_cons. destruct (ascii_dec "{" c); [|done].
  destruct s as [|d s].
  - change (EmptyString +:+ "{" +:+ rest) with (String "{" rest).
    change (EmptyString +:+ "{") with (String "{" EmptyString).
    by rewrite !prefix_cons, !prefix_nil.
  - change (String d s +:+ "{" +:+ rest) with (String d (s +:+ "{" +:+ rest)).
    change (String d s +:+ "{") with (String d (s +:+ "{")).
    by rewrite !prefix_cons, !prefix_nil.
Qed.

(** Text before an action: the lexer hands it out as one item and goes on
    inside the action. *)
Lemma lex_text_open text rest cur :
  strings.Index (text +:+ "{") "{{" = None →
  template.lex (text +:+ "{{" +:+ rest) false false cur
  = (template.ItemText (cur +:+ text) ::.) <$> template.lex rest false true EmptyString.
Proof.
  revert cur. induction text as [|c text IH]; intros cur Hs.
  - change (EmptyString +:+ "{{" +:+ rest) with (String "{" (String "{" rest)).
    cbn [template.lex]. by rewrite HasPrefix_delimiter, append_nil_r.
  - change (String c text +:+ "{") with (String c (text +:+ "{")) in Hs.
    apply Index_None_cons in Hs as [Hp Hs].
    change (String c text +:+ "{{" +:+ rest)
      with (String c (text +:+ "{" +:+ "{" +:+ rest)).
    cbn [template.lex]. rewrite HasPrefix_open, Hp.
    change (text +:+ "{" +:+ "{" +:+ rest) with (text +:+ "{{" +:+ rest).
    rewrite IH by done. by rewrite append_assoc.
Qed.

(** The body of an action without a closing brace in it. *)
Lemma lex_action body rest cur :
  all_chars (λ c, negb (bool_decide (c = "}"%char))) body = true →
  template.lex (body +:+ "}}" +:+ rest) false true cur
  = (template.ItemAction (cur +:+ body) ::.) <$> template.lex rest false false EmptyString.
Proof.
  revert cur. induction body as [|c body IH]; intros cur Hb.
  - change (EmptyString +:+ "}}" +:+ rest) with (String "}" (String "}" rest)).
    cbn [template.lex]. by rewrite HasPrefix_delimiter, append_nil_r.
  - simpl in Hb. apply andb_true_iff in Hb as [Hc Hb].
    apply negb_true_iff, bool_decide_eq_false in Hc.
    change (String c body +:+ "}}" +:+ rest) with (String c (body +:+ "}}" +:+ rest)).
    cbn [template.lex].
    assert (strings.HasPrefix (String c (body +:+ "}}" +:+ rest)) "}}" = false) as ->.
    { unfold strings.HasPrefix. rewrite prefix_cons. by destruct (ascii_dec "}" c). }
    rewrite IH by done. by rewrite append_assoc.
Qed.

(** An action that is never closed. *)
Lemma lex_unclosed rest cur :
  strings.Index rest "}}" = None → template.lex rest false true cur = None.
Proof.
  revert cur. induction rest as [|c rest IH]; intros cur Hs; [done|].
  apply Index_None_cons in Hs as [Hp Hs].
  cbn [template.lex]. rewrite Hp. by apply IH.
Qed.

Lemma trimLeft_blank l s : blank l = true → template.trimLeft (l +:+ s) = template.trimLeft s.
Proof.
  induction l as [|c l IH]; [done|]. unfold blank. simpl.
  intros [Hc Hl]%andb_true_iff.
  change (String c l +:+ s) with (String c (l +:+ s)). simpl.
  assert (template.isSpace c = true) as ->; [|by apply IH].
  apply orb_true_iff in Hc as [->%bool_decide_eq_true| ->%bool_decide_eq_true]; done.
Qed.

Lemma identifier_blank r : blank r = true → template.identifier r = Some EmptyString.
Proof.
  intros Hr. pose proof (trimLeft_blank r EmptyString Hr) as Htrim.
  rewrite append_nil_r in Htrim. simpl in Htrim.
  destruct r as [|c r]; [done|]. simpl.
  unfold blank in Hr. simpl in Hr. apply andb_true_iff in Hr as [Hc _].
  assert (template.isAlphaNumeric c = false) as ->.
  { apply orb_true_iff in Hc as [->%bool_decide_eq_true| ->%bool_decide_eq_true]; done. }
  by rewrite decide_True.
Qed.

Lemma identifier_key k r :
  letters_and_digits k = true → blank r = true →
  template.identifier (k +:+ r) = Some k.
Proof.
  intros Hk Hr. induction k as [|c k IH]; [by apply identifier_blank|].
  unfold letters_and_digits in Hk. simpl in Hk. apply andb_true_iff in Hk as [Hc Hk].
  change (String c k +:+ r) with (String c (k +:+ r)). simpl.
  change (template.isAlphaNumeric c) with (letter c || digit c). rewrite Hc.
  by rewrite IH.
Qed.

(** The action of a field is parsed as this field. *)
Lemma parseAction_field a :
  blank (blanksBefore a) = true → field_key (fieldKey a) = true →
  blank (blanksAfter a) = true →
  template.parseAction (blanksBefore a +:+ "." +:+ fieldKey a +:+ blanksAfter a)
  = Some (template.FieldNode (fieldKey a)).
Proof.
  intros Hl Hk Hr. unfold template.parseAction. rewrite trimLeft_blank by done.
  change ("." +:+ fieldKey a +:+ blanksAfter a)
    with (String "." (fieldKey a +:+ blanksAfter a)).
  cbn [template.trimLeft template.isSpace].
  destruct (fieldKey a) as [|c k]; [done|]. simpl in Hk.
  apply andb_true_iff in Hk as [Hc Hk].
  change (String c k +:+ blanksAfter a) with (String c (k +:+ blanksAfter a)).
  unfold template.field. change (template.isLetter c) with (letter c). rewrite Hc.
  change (String c (k +:+ blanksAfter a)) with (String c k +:+ blanksAfter a).
  rewrite identifier_key; [done| |done].
  unfold letters_and_digits in *. simpl. by rewrite Hc, Hk.
Qed.

Lemma field_action_body a :
  blank (blanksBefore a) = true → field_key (fieldKey a) = true →
  blank (blanksAfter a) = true →
  all_chars (λ c, negb (bool_decide (c = "}"%char)))
    (blanksBefore a +:+ "." +:+ fieldKey a +:+ blanksAfter a) = true.
Proof.
  intros Hl Hk Hr.
  assert (∀ s, blank s = true →
            all_chars (λ c, negb (bool_decide (c = "}"%char))) s = true) as Hblank.
  { intros s. apply all_chars_impl. intros c Hc.
    apply orb_true_iff in Hc as [->%bool_decide_eq_true| ->%bool_decide_eq_true]; done. }
  assert (∀ c, letter c || digit c = true → negb (bool_decide (c = "}"%char)) = true)
    as Hkey.
  { intros c Hc. apply negb_true_iff, bool_decide_eq_false. by intros ->. }
  rewrite !all_chars_app, (Hblank _ Hl), (Hblank _ Hr). simpl.
  destruct (fieldKey a) as [|c k]; [done|]. simpl in *.
  apply andb_true_iff in Hk as [Hc Hk].
  rewrite Hkey by by rewrite Hc.
  by rewrite (all_chars_impl _ _ k Hkey Hk).
Qed.

Lemma written_cons text a pieces last :
  written ((text, a) :: pieces) last
  = text +:+ "{{" +:+ (blanksBefore a +:+ "." +:+ fieldKey a +:+ blanksAfter a)
    +:+ "}}" +:+ written pieces last.
Proof.
  simpl. unfold written_action. f_equal.
  change ("{{" +:+ blanksBefore a +:+ "." +:+ fieldKey a +:+ blanksAfter a +:+ "}}")
    with ("{{" +:+ (blanksBefore a +:+ "." +:+ fieldKey a +:+ blanksAfter a +:+ "}}")).
  rewrite !append_assoc. done.
Qed.

(** A piece of text with its field, in front of anything. *)
Lemma lex_piece text a pieces last :
  strings.Index (text +:+ "{") "{{" = None →
  blank (blanksBefore a) = true → field_key (fieldKey a) = true →
  blank (blanksAfter a) = true →
  template.lex (written ((text, a) :: pieces) last) false false EmptyString
  = (λ items, template.ItemText text
              :: template.ItemAction
                   (blanksBefore a +:+ "." +:+ fieldKey a +:+ blanksAfter a)
              :: items)
    <$> template.lex (written pieces last) false false EmptyString.
Proof.
  intros Ht Hl Hk Hr. rewrite written_cons, lex_text_open by done.
  rewrite lex_action by by apply field_action_body.
  by destruct (template.lex (written pieces last) false false EmptyString).
Qed.

(** What the parser and the execution make of a template of text and
    fields: the nodes of the pieces, whose execution appends the fully
    substituted string, or stops at the first key without a value. *)
Lemma parseItems_written pieces last :
  well_written pieces last →
  ∃ items nodes,
    template.lex (written pieces last) false false EmptyString = Some items
    ∧ template.parseItems items = Some nodes
    ∧ ∀ data buf,
        match substituted data pieces last with
        | Some out => template.walk nodes data buf = (buf +:+ out, None)
        | None =>
            ∃ key b, missing_key data pieces = Some key ∧ data !! key = None
                     ∧ template.walk nodes data buf = (b, Some (template.ErrMissingKey key))
        end.
Proof.
  intros [Hpieces Hlast].
  induction Hpieces as [|[text a] pieces (Ht & Hl & Hk & Hr) _ IH].
  - simpl. rewrite lex_text by done. do 2 eexists. split_and!; [done..|].
    intros data buf. done.
  - destruct IH as (items & nodes & Hlex & Hparse & Hwalk).
    rewrite lex_piece, Hlex by done. simpl in *.
    do 2 eexists. split; [done|]. simpl.
    rewrite parseAction_field, Hparse by done. simpl. split; [done|].
    intros data buf. simpl.
    destruct (data !! fieldKey a) as [value|] eqn:Hvalue; simpl; [|by eauto].
    specialize (Hwalk data ((buf +:+ text) +:+ value)).
    destruct (substituted data pieces last) as [out|]; simpl.
    + by rewrite Hwalk, !append_assoc.
    + destruct Hwalk as (key & b & ? & ? & ?). by eauto.
Qed.

Lemma Parse_written lib pieces last :
  well_written pieces last →
  ∃ nodes,
    template.Parse lib (written pieces last) = (template.Nodes nodes, None)
    ∧ ∀ data buf,
        match substituted data pieces last with
        | Some out => template.walk nodes data buf = (buf +:+ out, None)
        | None =>
            ∃ key b, missing_key data pieces = Some key ∧ data !! key = None
                     ∧ template.walk nodes data buf = (b, Some (template.ErrMissingKey key))
        end.
Proof.
  intros Hw. destruct (parseItems_written pieces last Hw)
    as (items & nodes & Hlex & Hparse & Hwalk).
  exists nodes. split; [|done]. unfold template.Parse. by rewrite Hlex, Hparse.
Qed.

Lemma Parse_unclosed lib pieces text rest :
  Forall (λ p : string * fieldAction,
            strings.Index (p.1 +:+ "{") "{{" = None
            ∧ blank (blanksBefore p.2) = true
            ∧ field_key (fieldKey p.2) = true
            ∧ blank (blanksAfter p.2) = true) pieces →
  strings.Index (text +:+ "{") "{{" = None →
  strings.Index rest "}}" = None →
  template.Parse lib (written pieces (text +:+ "{{" +:+ rest))
  = (template.Nodes [], Some template.ErrUnclosedAction).
Proof.
  intros Hpieces Ht Hrest. unfold template.Parse.
  assert (template.lex (written pieces (text +:+ "{{" +:+ rest)) false false EmptyString
          = None) as ->; [|done].
  induction Hpieces as [|[text' a] pieces (Ht' & Hl & Hk & Hr) _ IH].
  - simpl. by rewrite lex_text_open, lex_unclosed.
  - by rewrite lex_piece, IH.
Qed.

Lemma substituted_weaken (data data' : gmap string string) pieces last out :
  data ⊆ data' →
  substituted data pieces last = Some out → substituted data' pieces last = Some out.
Proof.
  intros Hsub. revert out. induction pieces as [|[text a] pieces IH]; intros out; [done|].
  simpl. destruct (data !! fieldKey a) as [value|] eqn:Hvalue; [|done].
  rewrite (lookup_weaken _ _ _ _ Hvalue Hsub). simpl.
  destruct (substituted data pieces last) as [rest|]; [|done].
  by rewrite (IH rest eq_refl).
Qed.

Lemma executeStringTemplate_written E pieces last data w :
  well_written pieces last →
  match substituted data pieces last with
  | Some out =>
      packaging.executeStringTemplate E (written pieces last) data w = Returned out w
  | None =>
      ∃ key, missing_key data pieces = Some key ∧ data !! key = None
             ∧ packaging.executeStringTemplate E (written pieces last) data w
               = Panicked (PanicError (ErrTemplate (template.ErrMissingKey key))) w
  end.
Proof.
  intros Hw. rewrite executeStringTemplate_outcome.
  destruct (Parse_written (text_template E) pieces last Hw) as (nodes & -> & Hwalk).
  specialize (Hwalk data EmptyString). simpl.
  destruct (substituted data pieces last) as [out|].
  - by rewrite Hwalk.
  - destruct Hwalk as (key & b & ? & ? & ->). by exists key.
Qed.

(** C4, as the code has it: a template of literal text and field actions
    [{{.key}}] is rendered as the fully substituted string when every key
    has a value, and otherwise the renderer panics with the missing-key
    error of the first key without a value; the world is untouched.  An
    action that is never closed ends the process with the parse error.
    And whatever the template, the renderer returns, or logs a parse error
    and ends the process with status 1, or panics with the error of the
    execution: what the execution wrote before it failed is never
    returned. *)
Theorem executeStringTemplate_strict (E : Env) (pieces : list (string * fieldAction))
    (last : string) (data : gmap string string) (w : world) :
  well_written pieces last →
  match substituted data pieces last with
  | Some out =>
      packaging.executeStringTemplate E (written pieces last) data w = Returned out w
  | None =>
      ∃ key, missing_key data pieces = Some key ∧ data !! key = None
             ∧ packaging.executeStringTemplate E (written pieces last) data w
               = Panicked (PanicError (ErrTemplate (template.ErrMissingKey key))) w
  end
  ∧ ((∀ p, p ∈ pieces → is_Some (data !! fieldKey p.2)) →
     is_Some (substituted data pieces last))
  ∧ (∀ text rest,
       strings.Index (text +:+ "{") "{{" = None → strings.Index rest "}}" = None →
       packaging.executeStringTemplate E (written pieces (text +:+ "{{" +:+ rest)) data w
       = Exited 1 (emit (ParseError template.ErrUnclosedAction) w))
  ∧ (∀ t, match packaging.executeStringTemplate E t data w with
          | Returned _ w' => w' = w
          | Exited code w' => code = 1 ∧ ∃ e, w' = emit (ParseError e) w
          | Panicked v w' => w' = w ∧ ∃ e, v = PanicError (ErrTemplate e)
          end).
Proof.
  intros Hw. split_and!.
  - by apply executeStringTemplate_written.
  - clear Hw. induction pieces as [|[text a] pieces IH]; intros Hkeys; [by eexists|].
    simpl. destruct (Hkeys (text, a)) as [value Hvalue]; [by left|].
    simpl in Hvalue. rewrite Hvalue. simpl.
    destruct IH as [out ->]; [|by eexists].
    intros p Hp. apply Hkeys. by right.
  - intros text rest Ht Hrest. rewrite executeStringTemplate_outcome.
    by rewrite Parse_unclosed by (done || apply Hw).
  - intros t. rewrite executeStringTemplate_outcome.
    destruct (template.Parse _ t) as [tmpl [e|]]; [split; [done|by exists e]|].
    destruct (template.Execute tmpl data EmptyString) as [bytes [e|]]; [|done].
    split; [done|by exists e].
Qed.

Lemma executeStringTemplate_strict_witness :
  let script := "tar -czf {{.packageName}}-{{ .version }}.tar.gz" in
  packaging.executeStringTemplate demo.env script
    (<["version" := "1.2.3"]> {[ "packageName" := "my_app" ]}) demo.w0
  = Returned "tar -czf my_app-1.2.3.tar.gz" demo.w0
  ∧ packaging.executeStringTemplate demo.env script {[ "packageName" := "my_app" ]} demo.w0
    = Panicked (PanicError (ErrTemplate (template.ErrMissingKey "version"))) demo.w0
  ∧ packaging.executeStringTemplate demo.env "a{{.b" ∅ demo.w0
    = Exited 1 (emit (ParseError template.ErrUnclosedAction) demo.w0).
Proof.
  assert (well_written [("tar -czf ", FieldAction EmptyString "packageName" EmptyString);
                        ("-", FieldAction " " "version" " ")] ".tar.gz") as Hw.
  { split; [|reflexivity]. repeat constructor. }
  assert (well_written [] EmptyString) as Hw0 by (split; [constructor|reflexivity]).
  split_and!.
  - exact (proj1 (executeStringTemplate_strict demo.env _ _
                    (<["version" := "1.2.3"]> {[ "packageName" := "my_app" ]})
                    demo.w0 Hw)).
  - destruct (proj1 (executeStringTemplate_strict demo.env _ _
                       {[ "packageName" := "my_app" ]} demo.w0 Hw))
      as (key & [= <-] & _ & Hpanic).
    exact Hpanic.
  - exact (proj1 (proj2 (proj2 (executeStringTemplate_strict demo.env [] EmptyString ∅ demo.w0 Hw0)))
             "a" ".b" eq_refl eq_refl).
Defined.

(** C4 fails as stated: the key [nope] is not in the context, yet the
    template that reaches for it through [index] is rendered, with the empty
    string in its place. *)
Lemma executeStringTemplate_index_missing_key :
  (∅ : gmap string string) !! "nope" = None
  ∧ packaging.executeStringTemplate demo.env "x{{index . `nope`}}y" ∅ demo.w0
    = Returned "xy" demo.w0
  ∧ packaging.executeStringTemplate demo.env "x{{.nope}}y" ∅ demo.w0
    = Panicked (PanicError (ErrTemplate (template.ErrMissingKey "nope"))) demo.w0.
Proof. split_and!; vm_compute; reflexivity. Qed.

(** X10: adding entries to the context never changes a rendering of a
    template of text and fields that succeeds: if the renderer returns
    [out] for a context, it returns the same [out] for every context that
    extends it. *)
Theorem executeStringTemplate_extend (E : Env) (pieces : list (string * fieldAction))
    (last : string) (data data' : gmap string string) (w w' : world) (out : string) :
  well_written pieces last →
  data ⊆ data' →
  packaging.executeStringTemplate E (written pieces last) data w = Returned out w' →
  packaging.executeStringTemplate E (written pieces last) data' w = Returned out w'.
Proof.
  intros Hw Hsub Hret.
  pose proof (executeStringTemplate_written E pieces last data w Hw) as H.
  pose proof (executeStringTemplate_written E pieces last data' w Hw) as H'.
  destruct (substituted data pieces last) as [out0|] eqn:Hout.
  - rewrite H in Hret. injection Hret as <- <-.
    by rewrite (substituted_weaken data data' pieces last out0 Hsub Hout) in H'.
  - destruct H as (key & _ & _ & H). by rewrite H in Hret.
Qed.

Lemma executeStringTemplate_extend_witness :
  packaging.executeStringTemplate demo.env "{{.packageName}}.deb"
    (<["version" := "1.2.3"]> {[ "packageName" := "my_app" ]}) demo.w0
  = Returned "my_app.deb" demo.w0.
Proof.
  apply (executeStringTemplate_extend demo.env [(EmptyString, FieldAction EmptyString "packageName" EmptyString)] ".deb"
           {[ "packageName" := "my_app" ]}).
  - split; [|reflexivity]. repeat constructor.
  - apply insert_subseteq. vm_compute. reflexivity.
  - vm_compute. reflexivity.
Defined.

(** ** The template context, further *)

(** What a first call that returns has done: both path templates were
    rendered, the icon path against the eleven plain entries and the
    executable path against those and the icon path. *)
Lemma getTemplateData_fresh_returned E t projectName buildVersion w data w' :
  once w = false →
  packaging.getTemplateData E t projectName buildVersion w = Returned data w' →
  ∃ context iconPath executablePath,
    dom context = list_to_set (take 11 contextKeys)
    ∧ context !! "iconPath" = None ∧ context !! "executablePath" = None
    ∧ packaging.executeStringTemplate E (linuxDesktopFileIconPath t) context w
      = Returned iconPath w
    ∧ packaging.executeStringTemplate E (linuxDesktopFileExecutablePath t)
        (<["iconPath" := iconPath]> context) w = Returned executablePath w
    ∧ data = <["executablePath" := executablePath]> (<["iconPath" := iconPath]> context)
    ∧ w' = set_once true (set_templateData data w).
Proof.
  intros Hw. unfold packaging.getTemplateData, packaging.once_Do.
  rewrite bind_unfold, Hw. unfold defer. rewrite bind_unfold.
  unfold index. rewrite Split_head. simpl.
  set (M0 := <["projectName":=_]> _).
  assert (dom M0 = list_to_set (take 11 contextKeys)) as HM0.
  { subst M0. rewrite !dom_insert_L, dom_empty_L. simpl. set_solver. }
  assert (M0 !! "iconPath" = None ∧ M0 !! "executablePath" = None) as [HMi HMe].
  { subst M0. split; by rewrite !lookup_insert_ne by done. }
  clearbody M0.
  rewrite bind_unfold. simpl. rewrite bind_unfold. simpl.
  rewrite bind_unfold, executeStringTemplate_outcome.
  destruct (template.Parse _ (linuxDesktopFileIconPath t)) as [tmpl1 [e1|]] eqn:Hp1;
    simpl; [done|].
  destruct (template.Execute tmpl1 M0 EmptyString) as [iconPath [e1|]] eqn:Hex1;
    simpl; [done|].
  rewrite bind_unfold. simpl. rewrite bind_unfold. simpl.
  rewrite bind_unfold, executeStringTemplate_outcome.
  destruct (template.Parse _ (linuxDesktopFileExecutablePath t)) as [tmpl2 [e2|]] eqn:Hp2;
    simpl; [done|].
  destruct (template.Execute tmpl2 _ EmptyString) as [executablePath [e2|]] eqn:Hex2;
    simpl; [done|].
  intros [= <- <-]. exists M0, iconPath, executablePath.
  rewrite !executeStringTemplate_outcome, Hp1, Hex1, Hp2, Hex2. by split_and!.
Qed.

(** X11: when the first call of [getTemplateData] returns, the context has
    exactly the thirteen keys; [iconPath] is the rendering of the task's icon
    path template against the context without [iconPath] and
    [executablePath], and [executablePath] is the rendering of the task's
    executable path template against the context without [executablePath],
    so it may refer to [iconPath] but not the other way round; nothing was
    logged and the file system is as before. *)
Theorem getTemplateData_keys (E : Env) (t : packagingTask)
    (projectName buildVersion : string) (w w' : world) (data : gmap string string) :
  once w = false →
  packaging.getTemplateData E t projectName buildVersion w = Returned data w' →
  dom data = list_to_set contextKeys
  ∧ (∃ iconPath,
       data !! "iconPath" = Some iconPath
       ∧ packaging.executeStringTemplate E (linuxDesktopFileIconPath t)
           (delete "iconPath" (delete "executablePath" data)) w = Returned iconPath w)
  ∧ (∃ executablePath,
       data !! "executablePath" = Some executablePath
       ∧ packaging.executeStringTemplate E (linuxDesktopFileExecutablePath t)
           (delete "executablePath" data) w = Returned executablePath w)
  ∧ fs w' = fs w ∧ trace w' = trace w.
Proof.
  intros Hw Hret.
  destruct (getTemplateData_fresh_returned E t projectName buildVersion w data w' Hw Hret)
    as (M0 & iconPath & executablePath & Hdom & Hi & He & Hicon & Hexe & -> & ->).
  assert (delete "executablePath"
            (<["executablePath":=executablePath]> (<["iconPath":=iconPath]> M0))
          = <["iconPath":=iconPath]> M0) as Hdel.
  { apply delete_insert_id. by rewrite lookup_insert_ne. }
  split_and!.
  - rewrite !dom_insert_L, Hdom. simpl. set_solver.
  - exists iconPath. split; [by simplify_map_eq|].
    by rewrite Hdel, delete_insert_id.
  - exists executablePath. split; [by simplify_map_eq|]. by rewrite Hdel.
  - done.
  - done.
Qed.

Lemma getTemplateData_keys_witness :
  let o := packaging.getTemplateData demo.env demo.taskA "demo" "1.2.3" demo.w0 in
  dom (result_or ∅ o) = list_to_set contextKeys
  ∧ result_or ∅ o !! "executablePath" = Some "/usr/bin/my_app".
Proof.
  intros o.
  assert (o = Returned (result_or ∅ o) (world_of o)) as Ho.
  { apply is_Returned_eq. vm_compute. reflexivity. }
  split.
  - exact (proj1 (getTemplateData_keys demo.env demo.taskA "demo" "1.2.3" demo.w0
                    (world_of o) (result_or ∅ o) eq_refl Ho)).
  - vm_compute. reflexivity.
Defined.

(** X12: the guard of [once] is set by a deferred store: when the first
    call of [getTemplateData] panics while rendering a path template, the
    guard is set all the same and the context lacks [executablePath]; a
    later call (after a recover) computes nothing and returns that
    incomplete context. *)
Theorem getTemplateData_panic_sets_guard (E : Env) (t : packagingTask)
    (projectName buildVersion : string) (w w' : world) (v : panicValue) :
  once w = false →
  packaging.getTemplateData E t projectName buildVersion w = Panicked v w' →
  once w' = true
  ∧ templateData w' !! "executablePath" = None
  ∧ templateData w' !! "version" = Some buildVersion
  ∧ ∀ t2 projectName2 buildVersion2,
      packaging.getTemplateData E t2 projectName2 buildVersion2 w'
      = Returned (templateData w') w'.
Proof.
  intros Hw Hpanic.
  assert (once w' = true ∧ templateData w' !! "executablePath" = None
          ∧ templateData w' !! "version" = Some buildVersion) as (Honce & Hexe & Hver).
  { revert Hpanic. unfold packaging.getTemplateData, packaging.once_Do.
    rewrite bind_unfold, Hw. unfold defer. rewrite bind_unfold.
    unfold index. rewrite Split_head. simpl.
    set (M0 := <["projectName":=_]> _).
    assert (M0 !! "executablePath" = None ∧ M0 !! "version" = Some buildVersion)
      as [HM0 HM1].
    { subst M0. by simplify_map_eq. }
    clearbody M0.
    rewrite bind_unfold. simpl. rewrite bind_unfold. simpl.
    rewrite bind_unfold, executeStringTemplate_outcome.
    destruct (template.Parse _ (linuxDesktopFileIconPath t)) as [tmpl1 [e1|]]; simpl; [done|].
    destruct (template.Execute tmpl1 M0 EmptyString) as [iconPath [e1|]]; simpl.
    { by intros [= <- <-]. }
    rewrite bind_unfold. simpl. rewrite bind_unfold. simpl.
    rewrite bind_unfold, executeStringTemplate_outcome.
    destruct (template.Parse _ (linuxDesktopFileExecutablePath t)) as [tmpl2 [e2|]];
      simpl; [done|].
    destruct (template.Execute tmpl2 _ EmptyString) as [executablePath [e2|]];
      simpl; [|done].
    intros [= <- <-]. simpl. by simplify_map_eq. }
  split_and!; [done..|].
  intros t2 projectName2 buildVersion2. by apply getTemplateData_done.
Qed.

Lemma getTemplateData_panic_sets_guard_witness :
  let t := demo.task "linux-x" [] "true" "x" in
  let t' := PackagingTask (packagingFormatName t) [] [] [] "{{.nope}}" EmptyString None
              EmptyString "true" "x" true false false in
  let o := packaging.getTemplateData demo.env t' "demo" "1.2.3" demo.w0 in
  once (world_of o) = true ∧ templateData (world_of o) !! "executablePath" = None.
Proof.
  intros t t' o.
  assert (∃ v, o = Panicked v (world_of o)) as [v Ho].
  { assert (is_Returned o = false ∧ exit_code o = None) as [H1 H2]
      by (split; vm_compute; reflexivity).
    destruct o; [done|done|by eexists]. }
  destruct (getTemplateData_panic_sets_guard demo.env t' "demo" "1.2.3" demo.w0
              (world_of o) v eq_refl Ho) as (H1 & H2 & _).
  done.
Defined.

(** ** Packing, further *)

Lemma Split_whole c s :
  no_char c s → strings.Split s (String c EmptyString) = [s].
Proof.
  intros Hs. unfold strings.Split, strings.genSplit.
  rewrite decide_False by done.
  change (-1 =? 0) with false. change (-1 <? 0) with true. cbv iota.
  set (k := Z.to_nat _). destruct k; simpl; [done|].
  by rewrite Index_char_None.
Qed.

Lemma Pack_cleanup_allowed E tmpPath w :
  os_fault E (SysRemoveAll tmpPath) (fs w) = false →
  ∃ w', packaging.Pack_cleanup E tmpPath w = Returned tt w'
        ∧ absent (fs w') tmpPath
        ∧ trace w' = trace w ++ [EvSys (SysRemoveAll tmpPath)].
Proof.
  intros Hok. unfold packaging.Pack_cleanup. rewrite bind_unfold.
  unfold os.RemoveAll. cbv zeta. simpl fs. rewrite Hok. simpl. eexists.
  split; [done|]. split; [|done].
  intros k Hk. simpl. apply map_lookup_filter_None. right. intros info _. simpl.
  by rewrite Hk.
Qed.

(** X13: a task whose format name has no hyphen cannot be packed: once
    its dependencies are packed and the temporary directory is allocated,
    [Pack] panics with index 1 out of range for length 1 at its first log
    line; the deferred removal runs, so the temporary directory is gone
    again, and nothing else was done: no copy, no script. *)
Theorem Pack_without_hyphen (E : Env) (t : packagingTask) (buildVersion : string)
    (w0 w w1 : world) (tmpPath : string) :
  no_char "-" (packagingFormatName t) →
  range (λ dep : packagingTask * string, packaging.Pack E dep.1 buildVersion)
        (dependsOn t) w0 = Returned tt w →
  packaging.getTemporaryBuildDirectory E (pubspec_Name E) (packagingFormatName t) w
    = Returned tmpPath w1 →
  os_fault E (SysRemoveAll tmpPath) (fs w1) = false →
  ∃ w', packaging.Pack E t buildVersion w0 = Panicked (IndexOutOfRange 1 1) w'
        ∧ absent (fs w') tmpPath
        ∧ trace w' = trace w1 ++ [EvSys (SysRemoveAll tmpPath)].
Proof.
  intros Hname Hdeps Htmp Hok.
  rewrite (Pack_after_dependencies E t buildVersion w0 w Hdeps).
  rewrite (Pack_own_allocated E t buildVersion w tmpPath w1 Htmp).
  destruct (Pack_cleanup_allowed E tmpPath w1 Hok) as (w' & Hclean & Habs & Htr).
  exists w'. split; [|done].
  unfold defer, packaging.Pack_stage. rewrite !bind_unfold.
  change "-" with (String "-"%char EmptyString) at 1.
  rewrite Split_whole by done. simpl. by rewrite Hclean.
Qed.

Lemma Pack_without_hyphen_witness :
  let o := packaging.Pack demo.env demo.taskPlain "1.2.3" demo.w0 in
  ∃ w', o = Panicked (IndexOutOfRange 1 1) w'
        ∧ absent (fs w') "/tmp/hover-build-demo-darwin0".
Proof.
  intros o.
  set (tmp := "/tmp/hover-build-demo-darwin0").
  set (g := packaging.getTemporaryBuildDirectory demo.env "demo" "darwin" demo.w0).
  assert (g = Returned tmp (world_of g)) as Hg.
  { rewrite (is_Returned_eq EmptyString g) at 1 by (vm_compute; reflexivity).
    by assert (result_or EmptyString g = tmp) as -> by (vm_compute; reflexivity). }
  destruct (Pack_without_hyphen demo.env demo.taskPlain "1.2.3" demo.w0 demo.w0
              (world_of g) tmp (no_char_first_segment "-" "darwin" eq_refl)
              eq_refl Hg eq_refl) as (w' & Ho & Habs & _).
  by exists w'.
Defined.

Lemma emits_Pack_own E u buildVersion :
  preserves
    (emits (removes_only (λ path,
       path = build_OutputDirectoryPath E (packagingFormatName u)
       ∨ ∃ n, path = temporaryName E (pubspec_Name E) (packagingFormatName u) n)))
    (packaging.Pack_own E u buildVersion).
Proof.
  intros w. unfold packaging.Pack_own. rewrite bind_unfold.
  pose proof (getTemporaryBuildDirectory_cases E (pubspec_Name E)
                (packagingFormatName u) w) as Htmp.
  destruct (packaging.getTemporaryBuildDirectory E _ _ w) as [tmp w1|code w1|];
    [| |done].
  - destruct Htmp as ([n ->] & _ & _ & Htr).
    etrans; [exists [EvSys (SysTempDir (temporaryPrefix (pubspec_Name E)
                                          (packagingFormatName u)))];
             split; [done|by repeat constructor]|].
    generalize w1.
    change (preserves
      (emits (removes_only (λ path,
         path = build_OutputDirectoryPath E (packagingFormatName u)
         ∨ ∃ n, path = temporaryName E (pubspec_Name E) (packagingFormatName u) n)))
      (defer (packaging.Pack_cleanup E
                (temporaryName E (pubspec_Name E) (packagingFormatName u) n))
         (packagingScript ← packaging.Pack_stage E u buildVersion (pubspec_Name E)
                              (temporaryName E (pubspec_Name E) (packagingFormatName u) n);
          packaging.runPackaging E
            (temporaryName E (pubspec_Name E) (packagingFormatName u) n) packagingScript ;;
          packaging.Pack_deliver E u buildVersion (pubspec_Name E)
            (temporaryName E (pubspec_Name E) (packagingFormatName u) n)))).
    unfold packaging.Pack_cleanup, packaging.Pack_stage, packaging.runPackaging,
      packaging.Pack_deliver, packaging.packagingFormatPath.
    repeat emits_step.
  - destruct Htmp as (_ & _ & msg & Htr). simpl. eexists. split; [done|].
    by repeat constructor.
Qed.

(** X14: whatever a [Pack] removes with [os.RemoveAll], however it ends,
    is the output directory or a temporary build directory (a
    hover-build-... directory under the system's temporary directory) of the
    task or of a task it depends on: it removes nothing else. *)
Theorem Pack_removes_only (E : Env) (t : packagingTask) (buildVersion : string)
    (w : world) :
  emits (removes_only (pack_removable E t)) w
        (world_of (packaging.Pack E t buildVersion w)).
Proof.
  rewrite Pack_flat. revert w.
  change (preserves (emits (removes_only (pack_removable E t)))
            (range (λ u, packaging.Pack_own E u buildVersion) (pack_order t))).
  apply preserves_range; [apply _|]. intros u Hu w.
  eapply emits_weaken; [|apply emits_Pack_own].
  intros e He. destruct e as [| c | | | | |]; try done.
  destruct c; try done. simpl in *. by exists u.
Qed.

Lemma Pack_removes_only_witness :
  let o := packaging.Pack demo.env demo.taskStar "1.2.3" demo.w0 in
  omap (λ e, match e with EvSys (SysRemoveAll path) => Some path | _ => None end)
       (trace (world_of o))
  = ["/project/go/build/outputs/linux-s*r"; "/tmp/hover-build-demo-linux-s0r"]
  ∧ pack_removable demo.env demo.taskStar "/tmp/hover-build-demo-linux-s0r"
  ∧ emits (removes_only (pack_removable demo.env demo.taskStar)) demo.w0 (world_of o).
Proof.
  intros o. split_and!.
  - vm_compute. reflexivity.
  - exists demo.taskStar. split; [by left|]. right. by exists 0%nat.
  - exact (Pack_removes_only demo.env demo.taskStar "1.2.3" demo.w0).
Defined.

Lemma emits_scripts w w' : emits not_bash w w' → scripts (trace w') = scripts (trace w).
Proof.
  intros (l & -> & Hl). unfold scripts. rewrite omap_app.
  assert (omap (λ e, match e with
                     | EvBash dir command => Some (dir, command)
                     | _ => None
                     end) l = []) as ->; [|by rewrite app_nil_r].
  induction Hl as [|e l He _ IH]; [done|]. simpl. by destruct e.
Qed.

Lemma emits_copies w w' : emits not_copy w w' → copies (trace w') = copies (trace w).
Proof.
  intros (l & -> & Hl). unfold copies. rewrite omap_app.
  assert (omap (λ e, match e with
                     | EvCopy src dst => Some (src, dst)
                     | _ => None
                     end) l = []) as ->; [|by rewrite app_nil_r].
  induction Hl as [|e l He _ IH]; [done|]. simpl. by destruct e.
Qed.

(** From [m w = Returned a w'] and a proof that [m] emits only events of
    one kind, the relation between [w] and [w'] *)
Lemma preserves_returned {A} (R : relation world) (m : M A) w a w' :
  preserves R m → m w = Returned a w' → R w w'.
Proof. intros Hm Hret. specialize (Hm w). by rewrite Hret in Hm. Qed.

Lemma defer_Returned_inv {A} (cleanup : M unit) (body : M A) w a w' :
  defer cleanup body w = Returned a w' →
  ∃ w2, body w = Returned a w2 ∧ cleanup w2 = Returned tt w'.
Proof.
  unfold defer. destruct (body w) as [a2 w2| |v w2]; [|done|].
  - destruct (cleanup w2) as [[] w3| |] eqn:Hc; [|done..].
    intros [= <- <-]. by exists w2.
  - by destruct (cleanup w2).
Qed.

Lemma emits_Pack_stage_not_bash E t buildVersion projectName tmpPath :
  preserves (emits not_bash)
    (packaging.Pack_stage E t buildVersion projectName tmpPath).
Proof.
  unfold packaging.Pack_stage, packaging.packagingFormatPath. repeat emits_step.
Qed.

Lemma emits_Pack_deliver_not_bash E t buildVersion projectName tmpPath :
  preserves (emits not_bash)
    (packaging.Pack_deliver E t buildVersion projectName tmpPath).
Proof. unfold packaging.Pack_deliver. repeat emits_step. Qed.

Lemma emits_Pack_cleanup_not_bash E tmpPath :
  preserves (emits not_bash) (packaging.Pack_cleanup E tmpPath).
Proof. unfold packaging.Pack_cleanup. repeat emits_step. Qed.

(** The script a returning [Pack_stage] hands over is a rendering of the
    task's script template. *)
Lemma Pack_stage_script E t buildVersion projectName tmpPath w1 script w2 :
  packaging.Pack_stage E t buildVersion projectName tmpPath w1 = Returned script w2 →
  ∃ data, packaging.executeStringTemplate E (packagingScriptTemplate t) data w2
          = Returned script w2.
Proof.
  unfold packaging.Pack_stage. intros H.
  invert_binds_until H packaging.runPackaging.
  match type of H with
  | packaging.executeStringTemplate E _ ?data _ = _ => exists data
  end.
  rewrite executeStringTemplate_outcome in H. rewrite executeStringTemplate_outcome.
  destruct (template.Parse _ _) as [tmpl [e|]]; [done|].
  destruct (template.Execute _ _ _) as [bytes [e|]]; [done|]. by injection H as -> ->.
Qed.

(** When the own steps of a task return, exactly one command was run, in
    the temporary directory of the task. *)
Lemma Pack_own_scripts E u buildVersion w w' :
  packaging.Pack_own E u buildVersion w = Returned tt w' →
  ∃ n script,
    scripts (trace w') = scripts (trace w) ++
      [(temporaryName E (pubspec_Name E) (packagingFormatName u) n, script)]
    ∧ ∃ data w2, packaging.executeStringTemplate E (packagingScriptTemplate u) data w2
                 = Returned script w2.
Proof.
  unfold packaging.Pack_own. intros H.
  apply bind_Returned_inv in H as (tmp & w1 & Htmp & H).
  pose proof (getTemporaryBuildDirectory_cases E (pubspec_Name E)
                (packagingFormatName u) w) as Hcases.
  rewrite Htmp in Hcases. destruct Hcases as ([n ->] & _ & _ & Htr1).
  apply defer_Returned_inv in H as (w5 & Hbody & Hclean).
  apply bind_Returned_inv in Hbody as (script & w2 & Hstage & Hbody).
  apply bind_Returned_inv in Hbody as ([] & w4 & Hrun & Hdeliver).
  exists n, script. split.
  - rewrite (emits_scripts w5 w')
      by (eapply preserves_returned; [apply emits_Pack_cleanup_not_bash|done]).
    rewrite (emits_scripts w4 w5)
      by (eapply preserves_returned; [apply emits_Pack_deliver_not_bash|done]).
    assert (scripts (trace w2) = scripts (trace w)) as <-.
    { rewrite (emits_scripts w1 w2)
        by (eapply preserves_returned; [apply emits_Pack_stage_not_bash|done]).
      rewrite Htr1. unfold scripts. by rewrite omap_app, app_nil_r. }
    revert Hrun. unfold packaging.runPackaging, packaging.exec_Run.
    rewrite bind_unfold. destruct (bash E _ _ _) as [f [|]]; simpl; [|done].
    intros [= <-]. simpl. unfold scripts. by rewrite omap_app.
  - apply Pack_stage_script in Hstage as [data Hdata]. by exists data, w2.
Qed.

Lemma range_Pack_own_scripts E buildVersion us w w' :
  range (λ u, packaging.Pack_own E u buildVersion) us w = Returned tt w' →
  ∃ runs, scripts (trace w') = scripts (trace w) ++ runs
          ∧ Forall2 (λ u (run : string * string),
               (∃ n, run.1 = temporaryName E (pubspec_Name E) (packagingFormatName u) n)
               ∧ ∃ data w2, packaging.executeStringTemplate E (packagingScriptTemplate u)
                              data w2 = Returned run.2 w2) us runs.
Proof.
  revert w. induction us as [|u us IH]; intros w; simpl.
  - intros [= <-]. exists []. by rewrite app_nil_r.
  - intros H. apply bind_Returned_inv in H as ([] & w1 & Hu & Hrest).
    apply Pack_own_scripts in Hu as (n & script & Hscripts & Hrender).
    destruct (IH w1 Hrest) as (runs & Hruns & Hall).
    exists ((temporaryName E (pubspec_Name E) (packagingFormatName u) n, script) :: runs).
    split.
    + by rewrite Hruns, Hscripts, <- app_assoc.
    + constructor; [|done]. split; [by exists n|done].
Qed.

(** X15: a [Pack] that returns has run exactly one command for each task
    of its packing order, in that order: each in a temporary build directory
    of that task, and each a rendering of that task's packaging script
    template. *)
Theorem Pack_scripts (E : Env) (t : packagingTask) (buildVersion : string) (w w' : world) :
  packaging.Pack E t buildVersion w = Returned tt w' →
  ∃ runs, scripts (trace w') = scripts (trace w) ++ runs
          ∧ Forall2 (λ u (run : string * string),
               (∃ n, run.1 = temporaryName E (pubspec_Name E) (packagingFormatName u) n)
               ∧ ∃ data w2, packaging.executeStringTemplate E (packagingScriptTemplate u)
                              data w2 = Returned run.2 w2) (pack_order t) runs.
Proof. rewrite Pack_flat. apply range_Pack_own_scripts. Qed.

Lemma Pack_scripts_witness :
  let o := packaging.Pack demo.env demo.taskA "1.2.3" demo.w0 in
  scripts (trace (world_of o))
  = [("/tmp/hover-build-demo-linux-c0", "touch my_app-1.2.3.c");
     ("/tmp/hover-build-demo-linux-b1", "touch my_app-1.2.3.b");
     ("/tmp/hover-build-demo-linux-a2", "touch my_app-1.2.3.a")]
  ∧ Forall2 (λ u (run : string * string),
       (∃ n, run.1 = temporaryName demo.env "demo" (packagingFormatName u) n)
       ∧ ∃ data w2, packaging.executeStringTemplate demo.env (packagingScriptTemplate u)
                      data w2 = Returned run.2 w2)
      [demo.taskC; demo.taskB; demo.taskA] (scripts (trace (world_of o))).
Proof.
  intros o.
  assert (o = Returned tt (world_of o)) as Ho.
  { rewrite (is_Returned_eq tt o) at 1 by (vm_compute; reflexivity).
    by destruct (result_or tt o). }
  split; [vm_compute; reflexivity|].
  destruct (Pack_scripts demo.env demo.taskA "1.2.3" demo.w0 (world_of o) Ho)
    as (runs & Hruns & Hall).
  change (scripts (trace demo.w0) ++ runs) with runs in Hruns. rewrite Hruns.
  exact Hall.
Defined.

Lemma index_Returned xs i w x w' : index xs i w = Returned x w' → xs !! i = Some x ∧ w' = w.
Proof. unfold index. destruct (xs !! i); [by intros [= <- <-]|done]. Qed.

Lemma copy_Copy_Returned E src dst w err w' :
  packaging.copy_Copy_ E src dst w = Returned err w' →
  copies (trace w') = copies (trace w) ++ [(src, dst)].
Proof.
  unfold packaging.copy_Copy_. destruct (copy_Copy E _ _ _) as [f e].
  intros [= _ <-]. simpl. unfold copies. by rewrite omap_app.
Qed.

Lemma copies_emit_log lv msg w :
  copies (trace (emit (EvLog lv msg) w)) = copies (trace w).
Proof. unfold copies, emit. simpl. by rewrite omap_app, app_nil_r. Qed.

(** The copies of the loop over the dependencies in [Pack], when it goes
    through: one for each dependency, in order. *)
Lemma dependency_copies E tmpPath (deps : list (packagingTask * string)) w w' :
  range (λ dep : packagingTask * string,
     let '(task, destination) := dep in
     err ← packaging.copy_Copy_ E (build_OutputDirectoryPath E (packagingFormatName task))
                      (filepath_Join E [tmpPath; destination]);
     packaging.on_error err (λ e,
       log_Errorf ("Could not copy build folder of " +:+ packagingFormatName task
                   +:+ ": " +:+ Error_ e) ;;
       os_Exit 1)) deps w = Returned tt w' →
  copies (trace w') = copies (trace w) ++
    map (λ dep : packagingTask * string,
           (build_OutputDirectoryPath E (packagingFormatName dep.1),
            filepath_Join E [tmpPath; dep.2])) deps.
Proof.
  revert w. induction deps as [|[task destination] deps IH]; intros w; simpl.
  - intros [= <-]. by rewrite app_nil_r.
  - intros H. apply bind_Returned_inv in H as ([] & w1 & Hd & Hrest).
    apply bind_Returned_inv in Hd as (err & wc & Hcopy & Herr).
    destruct err as [e|]; [done|]. injection Herr as <-.
    rewrite (IH _ Hrest), (copy_Copy_Returned _ _ _ _ _ _ Hcopy).
    by rewrite <- app_assoc.
Qed.

(** X16: when the staging part of [Pack] returns, the copies it made with
    [copy.Copy] are, in this order: the build output of the platform (the
    format name up to its first hyphen) if the task has a build output
    directory, and then for each dependency its output directory to the
    destination given for it under the temporary directory.  So a task
    without dependencies and without a build output directory copies
    nothing before its script runs. *)
Theorem Pack_stage_copies (E : Env) (t : packagingTask)
    (buildVersion projectName tmpPath script : string) (w1 w2 : world) :
  packaging.Pack_stage E t buildVersion projectName tmpPath w1 = Returned script w2 →
  ∃ build,
    copies (trace w2) = copies (trace w1) ++ build ++
      map (λ dep : packagingTask * string,
             (build_OutputDirectoryPath E (packagingFormatName dep.1),
              filepath_Join E [tmpPath; dep.2])) (dependsOn t)
    ∧ (buildOutputDirectory t = EmptyString → build = [])
    ∧ (buildOutputDirectory t ≠ EmptyString →
       ∃ dst, build = [(build_OutputDirectoryPath E
                          (first_segment "-" (packagingFormatName t)), dst)]).
Proof.
  unfold packaging.Pack_stage. intros H.
  apply bind_Returned_inv in H as (variant & wa & Hvariant & H).
  apply index_Returned in Hvariant as [_ ->].
  apply bind_Returned_inv in H as ([] & wb & Hlog & H). injection Hlog as <-.
  apply bind_Returned_inv in H as ([] & wc & Hbuild & H).
  apply bind_Returned_inv in H as ([] & wd & Hdeps & H).
  assert (copies (trace w2) = copies (trace wd)) as ->.
  { apply emits_copies.
    match type of H with
    | ?m _ = _ => apply (preserves_returned (emits not_copy) m wd script w2); [|done]
    end.
    unfold packaging.packagingFormatPath. repeat emits_step. }
  rewrite (dependency_copies _ _ _ _ _ Hdeps).
  destruct (decide (buildOutputDirectory t ≠ EmptyString)) as [Hne|Heq].
  - apply bind_Returned_inv in Hbuild as (platform & we & Hplatform & Hbuild).
    apply index_Returned in Hplatform as [Hplatform ->].
    change "-" with (String "-"%char EmptyString) in Hplatform.
    rewrite Split_head in Hplatform. injection Hplatform as <-.
    apply bind_Returned_inv in Hbuild as (data & wf & Hdata & Hbuild).
    apply bind_Returned_inv in Hbuild as (dst & wg & Hdst & Hbuild).
    apply bind_Returned_inv in Hbuild as (err & wh & Hcopy & Herr).
    destruct err as [e|]; [done|]. injection Herr as <-.
    exists [(build_OutputDirectoryPath E (first_segment "-" (packagingFormatName t)), dst)].
    split_and!; [|done|by eexists].
    rewrite (copy_Copy_Returned _ _ _ _ _ _ Hcopy).
    assert (copies (trace wg) = copies (trace wf)) as ->.
    { apply emits_copies.
      eapply preserves_returned; [|exact Hdst]. repeat emits_step. }
    assert (copies (trace wf) = copies (trace w1)) as ->.
    { rewrite <- (copies_emit_log LInfo
                    ("Packaging " +:+ variant +:+ " in " +:+ tmpPath) w1).
      apply emits_copies.
      eapply preserves_returned; [|exact Hdata]. repeat emits_step. }
    by rewrite <- !app_assoc.
  - injection Hbuild as <-. exists []. split_and!; [|done|].
    + by rewrite copies_emit_log.
    + intros Hne. by destruct Heq.
Qed.

Lemma Pack_stage_copies_witness :
  let tmp := "/tmp/hover-build-demo-linux-b1" in
  let g := packaging.Pack demo.env demo.taskC "1.2.3" demo.w0 in
  let s := packaging.Pack_stage demo.env demo.taskB "1.2.3" "demo" tmp (world_of g) in
  ∃ build,
    copies (trace (world_of s)) = copies (trace (world_of g)) ++ build ++
      [("/project/go/build/outputs/linux-c", "/tmp/hover-build-demo-linux-b1/c")]
    ∧ build = [].
Proof.
  intros tmp g s.
  assert (s = Returned (result_or EmptyString s) (world_of s)) as Hs.
  { apply is_Returned_eq. vm_compute. reflexivity. }
  destruct (Pack_stage_copies demo.env demo.taskB "1.2.3" "demo" tmp
              (result_or EmptyString s) (world_of g) (world_of s) Hs)
    as (build & Hcopies & Hnil & _).
  exists build. split; [exact Hcopies|]. by apply Hnil.
Defined.

(** X17: when the delivering part of [Pack] returns, it has made exactly
    one copy: of the artifact, under its computed name in the temporary
    directory, to the rendering of the path of that name in the output
    directory of the format; when that path has no opening delimiter the
    destination is the path itself. *)
Theorem Pack_deliver_copies (E : Env) (t : packagingTask)
    (buildVersion projectName tmpPath : string) (w w' : world) :
  packaging.Pack_deliver E t buildVersion projectName tmpPath w = Returned tt w' →
  let name := packaging.outputFileName E t projectName buildVersion in
  let path := filepath_Join E [build_OutputDirectoryPath E (packagingFormatName t); name] in
  ∃ dst,
    copies (trace w') = copies (trace w) ++ [(filepath_Join E [tmpPath; name], dst)]
    ∧ (∃ data wd, packaging.executeStringTemplate E path data wd = Returned dst wd)
    ∧ (strings.Index path "{{" = None → dst = path).
Proof.
  intros H name path. unfold packaging.Pack_deliver in H. cbv zeta in H.
  fold name in H. fold path in H.
  apply bind_Returned_inv in H as (data & wa & Hdata & H).
  apply bind_Returned_inv in H as (dst & wb & Hdst & H).
  apply bind_Returned_inv in H as (err & wc & Hcopy & Herr).
  destruct err as [e|]; [done|]. injection Herr as <-.
  exists dst. split_and!.
  - rewrite (copy_Copy_Returned _ _ _ _ _ _ Hcopy).
    rewrite (emits_copies wa wb)
      by (eapply preserves_returned; [|exact Hdst]; repeat emits_step).
    rewrite (emits_copies w wa)
      by (eapply preserves_returned; [|exact Hdata]; repeat emits_step).
    done.
  - exists data, wa.
    rewrite executeStringTemplate_outcome in Hdst. rewrite executeStringTemplate_outcome.
    destruct (template.Parse _ _) as [tmpl [e|]]; [done|].
    destruct (template.Execute _ _ _) as [bytes [e|]]; [done|]. by injection Hdst as -> ->.
  - intros Hplain.
    rewrite (executeStringTemplate_plain E path data wa Hplain) in Hdst.
    by injection Hdst as ->.
Qed.

Lemma Pack_deliver_copies_witness :
  let tmp := "/tmp/hover-build-demo-linux-c0" in
  let g := packaging.getTemporaryBuildDirectory demo.env "demo" "linux-c" demo.w0 in
  let s := packaging.Pack_stage demo.env demo.taskC "1.2.3" "demo" tmp (world_of g) in
  let r := packaging.runPackaging demo.env tmp "touch my_app-1.2.3.c" (world_of s) in
  let d := packaging.Pack_deliver demo.env demo.taskC "1.2.3" "demo" tmp (world_of r) in
  ∃ dst,
    copies (trace (world_of d)) = copies (trace (world_of r)) ++
      [("/tmp/hover-build-demo-linux-c0/my_app-1.2.3.c", dst)]
    ∧ dst = "/project/go/build/outputs/linux-c/my_app-1.2.3.c".
Proof.
  intros tmp g s r d.
  assert (d = Returned tt (world_of d)) as Hd.
  { rewrite (is_Returned_eq tt d) at 1 by (vm_compute; reflexivity).
    by destruct (result_or tt d). }
  destruct (Pack_deliver_copies demo.env demo.taskC "1.2.3" "demo" tmp
              (world_of r) (world_of d) Hd) as (dst & Hcopies & _ & Hdst).
  exists dst. split; [exact Hcopies|]. apply Hdst. reflexivity.
Defined.

(** X18: when neither path template of the task has an opening delimiter
    (as for the tasks that set none), [getTemplateData] always returns: it
    neither ends the process nor panics; and a first call puts the two
    templates themselves under [iconPath] and [executablePath]. *)
Theorem getTemplateData_plain_templates (E : Env) (t : packagingTask)
    (projectName buildVersion : string) (w : world) :
  strings.Index (linuxDesktopFileIconPath t) "{{" = None →
  strings.Index (linuxDesktopFileExecutablePath t) "{{" = None →
  ∃ data w',
    packaging.getTemplateData E t projectName buildVersion w = Returned data w'
    ∧ (once w = false →
       data !! "iconPath" = Some (linuxDesktopFileIconPath t)
       ∧ data !! "executablePath" = Some (linuxDesktopFileExecutablePath t)
       ∧ data !! "projectName" = Some projectName).
Proof.
  intros Hicon Hexe. destruct (once w) eqn:Hw.
  - rewrite getTemplateData_done by done. by eexists _, _.
  - unfold packaging.getTemplateData, packaging.once_Do.
    rewrite bind_unfold, Hw. unfold defer. rewrite bind_unfold.
    unfold index. rewrite Split_head. simpl.
    set (M0 := <["projectName":=_]> _).
    assert (M0 !! "projectName" = Some projectName) as HM0.
    { subst M0. by simplify_map_eq. }
    clearbody M0.
    rewrite bind_unfold. simpl. rewrite bind_unfold. simpl.
    rewrite bind_unfold, executeStringTemplate_plain by done.
    rewrite bind_unfold. simpl. rewrite bind_unfold. simpl.
    rewrite bind_unfold, executeStringTemplate_plain by done.
    simpl. eexists _, _. split; [done|]. intros _. by simplify_map_eq.
Qed.

Lemma getTemplateData_plain_templates_witness :
  ∃ data w',
    packaging.getTemplateData demo.env demo.taskDmg "demo" "1.2.3" demo.w0
    = Returned data w'
    ∧ (once demo.w0 = false →
       data !! "iconPath" = Some EmptyString
       ∧ data !! "executablePath" = Some EmptyString
       ∧ data !! "projectName" = Some "demo").
Proof.
  exact (getTemplateData_plain_templates demo.env demo.taskDmg "demo" "1.2.3" demo.w0
           eq_refl eq_refl).
Defined.

Lemma emits_chmods w w' : emits not_chmod w w' → chmods (trace w') = chmods (trace w).
Proof.
  intros (l & -> & Hl). unfold chmods. rewrite omap_app.
  assert (omap (λ e, match e with
                     | EvSys (SysChmod path) => Some path
                     | _ => None
                     end) l = []) as ->; [|by rewrite app_nil_r].
  induction Hl as [|e l He _ IH]; [done|]. simpl. destruct e as [|c| | | | |]; try done.
  by destruct c.
Qed.

(** A change of permissions that reports no error was made on something
    that exists. *)
Lemma Chmod_Returned E path mode w err w' :
  os.Chmod E path mode w = Returned err w' →
  chmods (trace w') = chmods (trace w) ++ [path]
  ∧ (err = None → path_exists (fs w) path ∧ ∃ info, fs w' !! path = Some info ∧ Mode info = mode).
Proof.
  unfold os.Chmod, path_exists. cbv zeta. simpl fs.
  destruct (os_fault E _ _).
  { intros [= <- <-]. split; [|done]. unfold chmods. simpl. by rewrite omap_app. }
  destruct (fs w !! path) as [info|] eqn:Hp.
  - intros [= <- <-]. split; [unfold chmods; simpl; by rewrite omap_app|].
    intros _. split; [by eexists|]. simpl. rewrite lookup_insert_eq. by eexists.
  - intros [= <- <-]. split; [|done]. unfold chmods. simpl. by rewrite omap_app.
Qed.

(** Invert one bind of a returning computation whose first part changes no
    permissions. *)
Ltac quiet_bind H :=
  let a := fresh "a" in
  let w := fresh "w" in
  let Hq := fresh "Hq" in
  apply bind_Returned_inv in H as (a & w & Hq & H);
  apply (preserves_returned (emits not_chmod)) in Hq;
  [apply emits_chmods in Hq
  |unfold packaging.packagingFormatPath; repeat emits_step].

Lemma executable_chmods E t buildVersion projectName tmpPath (files : list string) w w' :
  range (λ file : string,
     data ← packaging.getTemplateData E t projectName buildVersion;
     path ← packaging.executeStringTemplate E (filepath_Join E [tmpPath; file]) data;
     err ← os.Chmod E path 511;
     packaging.on_error err (λ e,
       log_Errorf ("Failed to change file permissions for " +:+ file +:+ " file: "
                   +:+ Error_ e) ;;
       os_Exit 1)) files w = Returned tt w' →
  ∃ paths,
    chmods (trace w') = chmods (trace w) ++ paths
    ∧ Forall2 (λ file path,
         ∃ data wd, packaging.executeStringTemplate E (filepath_Join E [tmpPath; file])
                      data wd = Returned path wd) files paths.
Proof.
  revert w. induction files as [|file files IH]; intros w; simpl.
  - intros [= <-]. exists []. by rewrite app_nil_r.
  - intros H. apply bind_Returned_inv in H as ([] & w1 & Hfile & Hrest).
    quiet_bind Hfile.
    apply bind_Returned_inv in Hfile as (path & wp & Hpath & Hfile).
    assert (wp = w0 ∧ ∃ data wd, packaging.executeStringTemplate E
              (filepath_Join E [tmpPath; file]) data wd = Returned path wd) as [-> Hrender].
    { revert Hpath. rewrite executeStringTemplate_outcome.
      destruct (template.Parse _ _) as [tmpl [e|]] eqn:Hparse; [done|].
      destruct (template.Execute _ _ _) as [bytes [e|]] eqn:Hexec; [done|].
      intros [= <- <-]. split; [done|]. exists a, w0.
      by rewrite executeStringTemplate_outcome, Hparse, Hexec. }
    apply bind_Returned_inv in Hfile as (err & wc & Hchmod & Herr).
    destruct err as [e|]; [done|]. injection Herr as <-.
    apply Chmod_Returned in Hchmod as [Hchmod _].
    destruct (IH _ Hrest) as (paths & Hpaths & Hall).
    exists (path :: paths). split.
    + rewrite Hpaths, Hchmod, Hq. by rewrite <- app_assoc.
    + by constructor.
Qed.

(** X19: when the staging part of [Pack] returns, the permissions it
    changed are those of the executable files of the task, one change each
    and in their order, each at the rendering of the file's path under the
    temporary directory; nothing else had its permissions changed. *)
Theorem Pack_stage_chmods (E : Env) (t : packagingTask)
    (buildVersion projectName tmpPath script : string) (w1 w2 : world) :
  packaging.Pack_stage E t buildVersion projectName tmpPath w1 = Returned script w2 →
  ∃ paths,
    chmods (trace w2) = chmods (trace w1) ++ paths
    ∧ Forall2 (λ file path,
         ∃ data wd, packaging.executeStringTemplate E (filepath_Join E [tmpPath; file])
                      data wd = Returned path wd) (executableFiles t) paths.
Proof.
  unfold packaging.Pack_stage. intros H.
  do 8 quiet_bind H.
  apply bind_Returned_inv in H as ([] & wx & Hfiles & H).
  apply executable_chmods in Hfiles as (paths & Hpaths & Hall).
  exists paths. split; [|done].
  assert (chmods (trace w2) = chmods (trace wx)) as ->.
  { apply emits_chmods.
    match type of H with
    | ?m _ = _ => apply (preserves_returned (emits not_chmod) m wx script w2); [|done]
    end.
    repeat emits_step. }
  rewrite Hpaths. congruence.
Qed.

Lemma Pack_stage_chmods_witness :
  let tmp := "/tmp/hover-build-demo-linux-hook0" in
  let g := packaging.getTemporaryBuildDirectory demo.env "demo" "linux-hook" demo.w0 in
  let s := packaging.Pack_stage demo.env demo_taskHook "1.2.3" "demo" tmp (world_of g) in
  chmods (trace (world_of s)) = ["/tmp/hover-build-demo-linux-hook0/run.sh"]
  ∧ ∃ paths, chmods (trace (world_of s)) = chmods (trace (world_of g)) ++ paths
             ∧ length paths = 1%nat.
Proof.
  intros tmp g s.
  assert (s = Returned (result_or EmptyString s) (world_of s)) as Hs.
  { apply is_Returned_eq. vm_compute. reflexivity. }
  split; [vm_compute; reflexivity|].
  destruct (Pack_stage_chmods demo.env demo_taskHook "1.2.3" "demo" tmp
              (result_or EmptyString s) (world_of g) (world_of s) Hs)
    as (paths & Hpaths & Hall).
  exists paths. split; [exact Hpaths|]. by rewrite <- (Forall2_length _ _ _ Hall).
Defined.

(** ** The model on concrete inputs *)

Example Split_version : strings.Split "2.5.1" "." = ["2"; "5"; "1"].
Proof. reflexivity. Qed.

Example SplitN_format :
  strings.SplitN "linux-appimage-x" "-" 2 = ["linux"; "appimage-x"].
Proof. reflexivity. Qed.

Example SplitN_plain : strings.SplitN "darwin" "-" 2 = ["darwin"].
Proof. reflexivity. Qed.

Example SplitN_empty : strings.SplitN EmptyString "-" 2 = [EmptyString].
Proof. reflexivity. Qed.

Example Parse_script :
  template.Parse (text_template demo.env)
    "tar -czf {{.packageName}}-{{ .version }}.tar.gz" =
  (template.Nodes
     [template.TextNode "tar -czf "; template.FieldNode "packageName";
      template.TextNode "-"; template.FieldNode "version";
      template.TextNode ".tar.gz"], None).
Proof. reflexivity. Qed.

Example Parse_index :
  template.Parse (text_template demo.env) "x{{ index . `nope` }}y" =
  (template.Nodes
     [template.TextNode "x"; template.IndexNode "nope"; template.TextNode "y"], None).
Proof. reflexivity. Qed.

Example Parse_unclosed_action :
  (template.Parse (text_template demo.env) "a{{.b").2 = Some template.ErrUnclosedAction.
Proof. reflexivity. Qed.

(** Templates of another form are left to the library: a number after the
    dot, a call of [len], a trim marker. *)
Example Parse_other_forms (lib : template.library) :
  template.Parse lib "{{.1abc}}" = match lib "{{.1abc}}" with
                                   | inl tmpl => (tmpl, None)
                                   | inr e => (template.Nodes [], Some e)
                                   end
  ∧ template.Parse lib "{{len .}}" = match lib "{{len .}}" with
                                     | inl tmpl => (tmpl, None)
                                     | inr e => (template.Nodes [], Some e)
                                     end
  ∧ template.Parse lib "a {{- .b}}" = match lib "a {{- .b}}" with
                                      | inl tmpl => (tmpl, None)
                                      | inr e => (template.Nodes [], Some e)
                                      end.
Proof. split_and!; reflexivity. Qed.

Example render_missing_key :
  packaging.executeStringTemplate demo.env "{{.packageName}}-{{.nope}}"
    {[ "packageName" := "my_app" ]} demo.w0
  = Panicked (PanicError (ErrTemplate (template.ErrMissingKey "nope"))) demo.w0.
Proof. vm_compute. reflexivity. Qed.

(** The random string of the temporary directory stands in place of the
    last [*] of the pattern, and a pattern with a path separator is
    refused. *)
Example temporary_directory_names :
  result_or EmptyString
    (packaging.getTemporaryBuildDirectory demo.env "demo" "linux-a" demo.w0)
  = "/tmp/hover-build-demo-linux-a0"
  ∧ result_or EmptyString
      (packaging.getTemporaryBuildDirectory demo.env "demo" "linux-a*b" demo.w0)
    = "/tmp/hover-build-demo-linux-a0b"
  ∧ result_or EmptyString
      (packaging.getTemporaryBuildDirectory demo.env "de*mo" "linux-a*b" demo.w0)
    = "/tmp/hover-build-de*mo-linux-a0b"
  ∧ temporaryName demo.env "de*mo" "linux-a*b" 0 = "/tmp/hover-build-de*mo-linux-a0b"
  ∧ exit_code (packaging.getTemporaryBuildDirectory demo.env "demo" "linux/a" demo.w0)
    = Some 1.
Proof. split_and!; vm_compute; reflexivity. Qed.

(** A format name with the wildcard: the command runs in, and the deferred
    call removes, the directory named with the random string in place of
    the wildcard. *)
Example Pack_star :
  let o := packaging.Pack demo.env demo.taskStar "1.2.3" demo.w0 in
  is_Returned o = true
  ∧ scripts (trace (world_of o))
    = [("/tmp/hover-build-demo-linux-s0r", "touch my_app-1.2.3.s")]
  ∧ omap (λ e, match e with EvSys (SysRemoveAll path) => Some path | _ => None end)
         (trace (world_of o))
    = ["/project/go/build/outputs/linux-s*r"; "/tmp/hover-build-demo-linux-s0r"]
  ∧ temporaryName demo.env "demo" "linux-s*r" 0 = "/tmp/hover-build-demo-linux-s0r".
Proof. split_and!; vm_compute; reflexivity. Qed.

(** What [os.Stat] refuses to look at counts as initialised, whatever the
    file system holds. *)
Example refused_stat_is_initialized :
  packaging.IsInitialized demo.env_refusing demo.taskA demo.w_blocked
  = Returned true demo.w_blocked
  ∧ packaging.AssertInitialized demo.env_refusing demo.taskA demo.w_blocked
    = Returned tt demo.w_blocked
  ∧ packaging.Init demo.env_refusing demo.taskC demo.w_blocked
    = Exited 1 (emit (AlreadyInitializedError demo.taskC) demo.w_blocked)
  ∧ packaging.init demo.env_refusing demo.taskA true demo.w_blocked
    = Returned tt demo.w_blocked.
Proof. split_and!; vm_compute; reflexivity. Qed.

Example demo_Pack_chain :
  let o := packaging.Pack demo.env demo.taskA "1.2.3" demo.w0 in
  is_Returned o = true
  ∧ path_exists (fs (world_of o)) "/project/go/build/outputs/linux-a/my_app-1.2.3.a"
  ∧ omap (λ e, match e with EvBash _ command => Some command | _ => None end)
         (trace (world_of o))
    = ["touch my_app-1.2.3.c"; "touch my_app-1.2.3.b"; "touch my_app-1.2.3.a"].
Proof.
  split_and!.
  - vm_compute. reflexivity.
  - unfold path_exists. vm_compute. eauto.
  - vm_compute. reflexivity.
Qed.
